(** * arXiv-mcp: a shallow embedding of [arxiv_mcp/server.py] and [arxiv_mcp/models.py]

    Python [str] values are modelled as lists of characters; a character is a
    code point below 256 (the [ascii] type read as Latin-1), so the character
    classes below are Python's [str.isspace], [\d] and [\w] restricted to that
    range.  Python [int] is [Z]; an [Optional] value is an [option]. *)

From Stdlib Require Import List Ascii String ZArith Lia Bool Arith PeanoNat.
From Stdlib Require Import Sorted Permutation DecimalString.
Import ListNotations.

Open Scope string_scope.
Open Scope list_scope.

Definition str := list ascii.

Coercion list_ascii_of_string : string >-> list.

(** ** Python built-ins used by the server *)

Module Py.

(** [ord(c)] *)
Definition ord (c : ascii) : nat := nat_of_ascii c.

Definition between (lo hi : nat) (c : ascii) : bool :=
  ((lo <=? ord c) && (ord c <=? hi))%nat.

(** [str.isspace] on one character: TAB..CR, FS..US, SPACE, NEL, NBSP. *)
Definition isspace (c : ascii) : bool :=
  between 9 13 c || between 28 32 c || Nat.eqb (ord c) 133 || Nat.eqb (ord c) 160.

(** Decimal digits: what [\d] matches. *)
Definition isdecimal (c : ascii) : bool := between 48 57 c.

Definition isupper_az (c : ascii) : bool := between 65 90 c.
Definition islower_az (c : ascii) : bool := between 97 122 c.

(** Word characters: what [\w] matches ([str.isalnum] or underscore). *)
Definition isword (c : ascii) : bool :=
  isdecimal c || isupper_az c || islower_az c || Nat.eqb (ord c) 95
  || Nat.eqb (ord c) 170 || Nat.eqb (ord c) 178 || Nat.eqb (ord c) 179 || Nat.eqb (ord c) 181
  || Nat.eqb (ord c) 185 || Nat.eqb (ord c) 186 || between 188 190 c
  || between 192 214 c || between 216 246 c || between 248 255 c.

Definition str_eqb (a b : str) : bool :=
  if list_eq_dec ascii_dec a b then true else false.

(** [s.startswith(p)] *)
Fixpoint startswith (s p : str) {struct p} : bool :=
  match p, s with
  | [], _ => true
  | _ :: _, [] => false
  | a :: p', b :: s' => Ascii.eqb a b && startswith s' p'
  end.

(** [needle in s] *)
Fixpoint contains (s needle : str) : bool :=
  startswith s needle ||
  match s with
  | [] => false
  | _ :: t => contains t needle
  end.

(** [s.replace(old, new)] for a non-empty [old] (every call site passes a
    non-empty literal): occurrences are replaced left to right without
    overlap; [skip] counts the characters of a replaced occurrence still to be
    dropped. *)
Fixpoint replace_from (old new : str) (skip : nat) (s : str) : str :=
  match s with
  | [] => []
  | c :: t =>
      match skip with
      | S k => replace_from old new k t
      | O =>
          if startswith s old
          then new ++ replace_from old new (List.length old - 1)%nat t
          else c :: replace_from old new 0 t
      end
  end.

Definition replace (s old new : str) : str := replace_from old new 0 s.

(** [s.split()]: the maximal runs of non-whitespace characters. *)
Fixpoint split (s : str) : list str :=
  match s with
  | [] => []
  | c :: t =>
      if isspace c then split t
      else match t with
           | [] => [[c]]
           | d :: _ =>
               if isspace d then [c] :: split t
               else match split t with
                    | w :: ws => (c :: w) :: ws
                    | [] => [[c]]
                    end
           end
  end.

(** [sep.join(parts)] *)
Fixpoint join (sep : str) (parts : list str) : str :=
  match parts with
  | [] => []
  | [w] => w
  | w :: ws => w ++ sep ++ join sep ws
  end.

Fixpoint lstrip (s : str) : str :=
  match s with
  | [] => []
  | c :: t => if isspace c then lstrip t else s
  end.

Definition rstrip (s : str) : str := rev (lstrip (rev s)).

(** [s.strip()] *)
Definition strip (s : str) : str := rstrip (lstrip s).

(** [str(n)] for an [int]. *)
Definition str_of_int (n : Z) : str := NilZero.string_of_int (Z.to_int n).

(** Truthiness of an [Optional[str]]: [None] and the empty string are falsy. *)
Definition truthy (o : option str) : bool :=
  match o with
  | Some (_ :: _) => true
  | _ => false
  end.

(** Lexicographic comparison of strings by code point, as [<] on [str]. *)
Fixpoint str_compare (a b : str) : comparison :=
  match a, b with
  | [], [] => Eq
  | [], _ :: _ => Lt
  | _ :: _, [] => Gt
  | x :: a', y :: b' =>
      match Ascii.compare x y with
      | Eq => str_compare a' b'
      | o => o
      end
  end.

Definition str_ltb (a b : str) : bool :=
  match str_compare a b with Lt => true | _ => false end.

End Py.

(** ** [cleanText] *)

Definition cleanText (text : str) : str :=
  let text := Py.replace text (String "010" "") " " in
  let text := Py.join " " (Py.split text) in
  Py.strip text.

(** ** The fragment of Python's [re] that the server uses

    Every repetition in the server's patterns ranges over one character class,
    so repetition is a constructor over a class.  Matching is by backtracking
    with the priorities of [re]: greedy repetition tries the longest run first,
    lazy repetition the shortest, alternation the left branch first.  Each
    pattern has at most one capturing group; [cap] holds its text. *)

Module Re.

Inductive regex : Type :=
| Eps
| Chr (c : ascii)
| Cls (p : ascii -> bool)
| Star (p : ascii -> bool)
| Plus (p : ascii -> bool)
| LazyStar (p : ascii -> bool)
| Seq (r1 r2 : regex)
| Alt (r1 r2 : regex)
| Grp (r : regex)
| Bol
| Eol.

(** A literal string. *)
Fixpoint lit (s : str) : regex :=
  match s with
  | [] => Eps
  | c :: t => Seq (Chr c) (lit t)
  end.

Fixpoint seqs (rs : list regex) : regex :=
  match rs with
  | [] => Eps
  | [r] => r
  | r :: rs' => Seq r (seqs rs')
  end.

Section Matcher.

Context {R : Type}.

(** Length of the whole subject string: position 0 is where the rest of the
    input still has that length. *)
Variable n0 : nat.

Fixpoint star (p : ascii -> bool) (s : str) (k : str -> option R) : option R :=
  match s with
  | [] => k []
  | c :: t =>
      if p c
      then match star p t k with
           | Some x => Some x
           | None => k s
           end
      else k s
  end.

Fixpoint lazy (p : ascii -> bool) (s : str) (k : str -> option R) : option R :=
  match k s with
  | Some x => Some x
  | None =>
      match s with
      | [] => None
      | c :: t => if p c then lazy p t k else None
      end
  end.

(** [$] without [re.MULTILINE]: the end of the string, or just before a
    newline that ends the string. *)
Definition at_eol (s : str) : bool :=
  match s with
  | [] => true
  | [c] => Ascii.eqb c "010"
  | _ => false
  end.

Fixpoint run (r : regex) (s : str) (cap : option str)
  (k : str -> option str -> option R) : option R :=
  match r with
  | Eps => k s cap
  | Chr c =>
      match s with
      | x :: t => if Ascii.eqb x c then k t cap else None
      | [] => None
      end
  | Cls p =>
      match s with
      | x :: t => if p x then k t cap else None
      | [] => None
      end
  | Star p => star p s (fun t => k t cap)
  | Plus p =>
      match s with
      | x :: t => if p x then star p t (fun t' => k t' cap) else None
      | [] => None
      end
  | LazyStar p => lazy p s (fun t => k t cap)
  | Seq r1 r2 => run r1 s cap (fun t c => run r2 t c k)
  | Alt r1 r2 =>
      match run r1 s cap k with
      | Some x => Some x
      | None => run r2 s cap k
      end
  | Grp r' =>
      run r' s cap
        (fun t _ => k t (Some (firstn (List.length s - List.length t) s)))
  | Bol => if Nat.eqb (List.length s) n0 then k s cap else None
  | Eol => if at_eol s then k s cap else None
  end.

End Matcher.

(** A match anchored at the current position: the unconsumed rest of the
    subject and the text of the group. *)
Definition match_at (r : regex) (n0 : nat) (s : str) : option (str * option str) :=
  run n0 r s None (fun t c => Some (t, c)).

Fixpoint search_from (r : regex) (n0 : nat) (s : str) : option (str * option str) :=
  match match_at r n0 s with
  | Some m => Some m
  | None =>
      match s with
      | [] => None
      | _ :: t => search_from r n0 t
      end
  end.

(** [re.search(r, s)]: the leftmost match, as (rest after the match, group). *)
Definition search (r : regex) (s : str) : option (str * option str) :=
  search_from r (List.length s) s.

(** [m.group(1)] of a match of a pattern that has a group. *)
Definition group1 (m : str * option str) : str :=
  match snd m with
  | Some g => g
  | None => []
  end.

(** [re.sub(r, repl, s)] for a replacement without back-references.  Matches
    are found left to right without overlap; [skip] counts characters of the
    last match still to be dropped.  (The server's patterns never match the
    empty string; an empty match is replaced and scanning moves on by one
    character.) *)
Fixpoint sub_from (r : regex) (repl : str) (n0 : nat) (skip : nat) (s : str) : str :=
  match skip with
  | S k =>
      match s with
      | [] => []
      | _ :: t => sub_from r repl n0 k t
      end
  | O =>
      match match_at r n0 s with
      | Some (rest, _) =>
          match s with
          | [] => repl
          | c :: t =>
              match (List.length s - List.length rest)%nat with
              | O => repl ++ c :: sub_from r repl n0 0 t
              | S l => repl ++ sub_from r repl n0 l t
              end
          end
      | None =>
          match s with
          | [] => []
          | c :: t => c :: sub_from r repl n0 0 t
          end
      end
  end.

Definition sub (r : regex) (repl s : str) : str :=
  sub_from r repl (List.length s) 0 s.

(** [re.findall(r, s)]: for each match, its group if the pattern has one and
    the whole match otherwise. *)
Fixpoint findall_from (r : regex) (n0 : nat) (skip : nat) (s : str) : list str :=
  match skip with
  | S k =>
      match s with
      | [] => []
      | _ :: t => findall_from r n0 k t
      end
  | O =>
      match match_at r n0 s with
      | Some (rest, cap) =>
          let len := (List.length s - List.length rest)%nat in
          let item := match cap with Some g => g | None => firstn len s end in
          match s with
          | [] => [item]
          | _ :: t => item :: findall_from r n0 (len - 1) t
          end
      | None =>
          match s with
          | [] => []
          | _ :: t => findall_from r n0 0 t
          end
      end
  end.

Definition findall (r : regex) (s : str) : list str :=
  findall_from r (List.length s) 0 s.

End Re.

(** ** The patterns of [server.py] *)

Module Pat.

Import Re.

Definition dot_char : ascii := ".".

(** [\d+\.\d+] *)
Definition number_dot_number : regex :=
  seqs [Plus Py.isdecimal; Chr dot_char; Plus Py.isdecimal].

(** [arxiv\.org/abs/(\d+\.\d+)] *)
Definition abs_url : regex := Seq (lit "arxiv.org/abs/") (Grp number_dot_number).

(** [arxiv\.org/pdf/(\d+\.\d+)] *)
Definition pdf_url : regex := Seq (lit "arxiv.org/pdf/") (Grp number_dot_number).

(** [^(\d+\.\d+)$] *)
Definition bare_id : regex := seqs [Bol; Grp number_dot_number; Eol].

Definition digit_or_comma (c : ascii) : bool := Py.isdecimal c || Ascii.eqb c ",".

(** [of ([\d,]+) results] *)
Definition total : regex := seqs [lit "of "; Grp (Plus digit_or_comma); lit " results"].

(** [\s*(Less|More)\s*$] *)
Definition toggle : regex :=
  seqs [Star Py.isspace; Grp (Alt (lit "Less") (lit "More")); Star Py.isspace; Eol].

(** [^Abstract:\s*] *)
Definition abstract_label : regex := seqs [Bol; lit "Abstract:"; Star Py.isspace].

(** [Submitted\s+(\d+\s+\w+,?\s+\d+)] *)
Definition submitted : regex :=
  seqs [lit "Submitted"; Plus Py.isspace;
        Grp (seqs [Plus Py.isdecimal; Plus Py.isspace; Plus Py.isword;
                   Alt (Chr ",") Eps; Plus Py.isspace; Plus Py.isdecimal])].

(** [.] does not match a newline. *)
Definition any_but_newline (c : ascii) : bool := negb (Ascii.eqb c "010").

(** [Submitted.*?(\d+\s+\w+\s+\d+)] *)
Definition submitted_history : regex :=
  seqs [lit "Submitted"; LazyStar any_but_newline;
        Grp (seqs [Plus Py.isdecimal; Plus Py.isspace; Plus Py.isword;
                   Plus Py.isspace; Plus Py.isdecimal])].

Definition not_rparen (c : ascii) : bool := negb (Ascii.eqb c ")").

(** [\(([^)]+)\)] *)
Definition parenthesised : regex := seqs [Chr "("; Grp (Plus not_rparen); Chr ")"].

Definition lower_or_dash (c : ascii) : bool := Py.islower_az c || Ascii.eqb c "-".

(** [[a-z-]+\.[A-Z]+] *)
Definition category_code : regex :=
  seqs [Plus lower_or_dash; Chr dot_char; Plus Py.isupper_az].

(** [\(([a-z-]+\.[A-Z]+)\)] *)
Definition parenthesised_code : regex := seqs [Chr "("; Grp category_code; Chr ")"].

(** [([a-z-]+\.[A-Z]+)] *)
Definition listed_code : regex := Grp category_code.

(** [/abs/(\d+\.\d+)] *)
Definition abs_href : regex := Seq (lit "/abs/") (Grp number_dot_number).

End Pat.

(** ** [extractPaperId] *)

Definition extractPaperId_patterns : list Re.regex :=
  [Pat.abs_url; Pat.pdf_url; Pat.bare_id].

(** The loop over [patterns]: the first pattern that matches decides. *)
Fixpoint extractPaperId_loop (patterns : list Re.regex) (url : str) : option str :=
  match patterns with
  | [] => None
  | pattern :: more =>
      match Re.search pattern url with
      | Some m => Some (Re.group1 m)
      | None => extractPaperId_loop more url
      end
  end.

Definition extractPaperId (url : str) : option str :=
  extractPaperId_loop extractPaperId_patterns url.

(** ** [models.py] *)

Record Paper : Type := mkPaper {
  id_arxiv : str;
  title : str;
  abstract : str;
  authors : list str;
  categories : list str;
  url_abstract : str;
  url_pdf : str;
  date_published : option str;
  date_updated : option str
}.

Record SearchResult : Type := mkSearchResult {
  query : str;
  total_results : Z;
  papers : list Paper;
  page : Z;
  page_size : Z
}.

Record Category : Type := mkCategory {
  code : str;
  name : str;
  group : str
}.

(** A [dict[str, str]] literal, in insertion order. *)
Definition dict := list (str * str).

Fixpoint dict_get (d : dict) (key default : str) : str :=
  match d with
  | [] => default
  | (k, v) :: d' => if Py.str_eqb k key then v else dict_get d' key default
  end.

Definition ARXIV_CATEGORIES : dict :=
  [ ("cs.AI" : str, "Artificial Intelligence" : str);
    ("cs.CL" : str, "Computation and Language" : str);
    ("cs.CV" : str, "Computer Vision and Pattern Recognition" : str);
    ("cs.LG" : str, "Machine Learning" : str);
    ("cs.NE" : str, "Neural and Evolutionary Computing" : str);
    ("cs.RO" : str, "Robotics" : str);
    ("cs.SE" : str, "Software Engineering" : str);
    ("cs.DS" : str, "Data Structures and Algorithms" : str);
    ("cs.DB" : str, "Databases" : str);
    ("cs.DC" : str, "Distributed, Parallel, and Cluster Computing" : str);
    ("cs.CR" : str, "Cryptography and Security" : str);
    ("cs.HC" : str, "Human-Computer Interaction" : str);
    ("cs.IR" : str, "Information Retrieval" : str);
    ("cs.IT" : str, "Information Theory" : str);
    ("cs.MA" : str, "Multiagent Systems" : str);
    ("cs.PL" : str, "Programming Languages" : str);
    ("stat.ML" : str, "Machine Learning (Statistics)" : str);
    ("stat.TH" : str, "Statistics Theory" : str);
    ("stat.ME" : str, "Methodology" : str);
    ("math.OC" : str, "Optimization and Control" : str);
    ("math.ST" : str, "Statistics Theory" : str);
    ("math.PR" : str, "Probability" : str);
    ("math.NA" : str, "Numerical Analysis" : str);
    ("quant-ph" : str, "Quantum Physics" : str);
    ("cond-mat" : str, "Condensed Matter" : str);
    ("hep-th" : str, "High Energy Physics - Theory" : str);
    ("eess.SP" : str, "Signal Processing" : str);
    ("eess.IV" : str, "Image and Video Processing" : str);
    ("eess.AS" : str, "Audio and Speech Processing" : str);
    ("q-bio.NC" : str, "Neurons and Cognition" : str);
    ("q-bio.QM" : str, "Quantitative Methods" : str);
    ("q-fin.ST" : str, "Statistical Finance" : str);
    ("q-fin.CP" : str, "Computational Finance" : str) ].

Definition SORT_OPTIONS : dict :=
  [ ("relevance" : str, "" : str);
    ("date_desc" : str, "-announced_date_first" : str);
    ("date_asc" : str, "announced_date_first" : str);
    ("submissions_desc" : str, "-submittedDate" : str);
    ("submissions_asc" : str, "submittedDate" : str) ].

(** ** The parsed document: what [BeautifulSoup] hands to the server

    The HTML parser itself is outside the repository; the server only walks
    the tree it returns.  An element carries its name (in lower case, as the
    parser gives it), its class list and its other attributes; a [Text] is a
    string of the document; a [Tag] also knows its ancestors (nearest first),
    because a selector applied to a tag may look at the tag's ancestors. *)

Module Soup.

Record hdr : Type := mkHdr {
  el_name : str;
  el_classes : list str;
  el_attrs : list (str * str)
}.

#[warnings="-register-all"]
Inductive node : Type :=
| Text (s : str)
| Elem (h : hdr) (children : list node).

Record Tag : Type := mkTag {
  tag_hdr : hdr;
  tag_contents : list node;
  tag_parents : list hdr
}.

(** The [BeautifulSoup] object that holds the top-level nodes. *)
Definition document (top : list node) : Tag :=
  mkTag (mkHdr "[document]" [] []) top [].

Fixpoint node_text (n : node) : str :=
  match n with
  | Text s => s
  | Elem _ children => List.concat (map node_text children)
  end.

(** [tag.text] *)
Definition text (t : Tag) : str := List.concat (map node_text (tag_contents t)).

(** [tag.name] *)
Definition name (t : Tag) : str := el_name (tag_hdr t).

Fixpoint lookup (l : list (str * str)) (key : str) : option str :=
  match l with
  | [] => None
  | (k, v) :: l' => if Py.str_eqb k key then Some v else lookup l' key
  end.

(** [tag.get(attr)]: [None] when the attribute is absent. *)
Definition get (t : Tag) (attr : str) : option str := lookup (el_attrs (tag_hdr t)) attr.

(** The elements below a node in document order, each with its ancestors. *)
Fixpoint tags_of (ctx : list hdr) (n : node) : list Tag :=
  match n with
  | Text _ => []
  | Elem h children => mkTag h children ctx :: flat_map (tags_of (h :: ctx)) children
  end.

Definition descendants (t : Tag) : list Tag :=
  flat_map (tags_of (tag_hdr t :: tag_parents t)) (tag_contents t).

(** A compound selector: [name#id.class1.class2[attr*='value']]. *)
Record compound : Type := mkCompound {
  c_name : option str;
  c_id : option str;
  c_classes : list str;
  c_attr_contains : option (str * str)
}.

Inductive combinator : Type := Descendant | Child.

(** A complex selector, read from its right end: [Rel lhs comb c] is
    [lhs comb c], and [c] is matched against the element itself. *)
Inductive complex : Type :=
| Last (c : compound)
| Rel (lhs : complex) (comb : combinator) (c : compound).

(** A selector list [a, b]. *)
Definition selector := list complex.

Definition opt_holds {A} (o : option A) (f : A -> bool) : bool :=
  match o with
  | None => true
  | Some a => f a
  end.

Definition mem (x : str) (l : list str) : bool := existsb (Py.str_eqb x) l.

Definition matches_compound (c : compound) (h : hdr) : bool :=
  opt_holds (c_name c) (fun n => Py.str_eqb n (el_name h))
  && opt_holds (c_id c) (fun i =>
       match lookup (el_attrs h) "id" with
       | Some v => Py.str_eqb v i
       | None => false
       end)
  && forallb (fun k => mem k (el_classes h)) (c_classes c)
  && opt_holds (c_attr_contains c) (fun av =>
       match lookup (el_attrs h) (fst av) with
       | Some v => Py.contains v (snd av)
       | None => false
       end).

Fixpoint matches_complex (x : complex) (h : hdr) (parents : list hdr) : bool :=
  match x with
  | Last c => matches_compound c h
  | Rel lhs comb c =>
      matches_compound c h &&
      match comb with
      | Child =>
          match parents with
          | p :: ps => matches_complex lhs p ps
          | [] => false
          end
      | Descendant =>
          (fix some_ancestor (ps : list hdr) : bool :=
             match ps with
             | [] => false
             | p :: ps' => matches_complex lhs p ps' || some_ancestor ps'
             end) parents
      end
  end.

Definition matches (sel : selector) (t : Tag) : bool :=
  existsb (fun x => matches_complex x (tag_hdr t) (tag_parents t)) sel.

(** [tag.select(sel)]: the matching descendants in document order. *)
Definition select (sel : selector) (t : Tag) : list Tag :=
  filter (matches sel) (descendants t).

(** [tag.select_one(sel)] *)
Definition select_one (sel : selector) (t : Tag) : option Tag :=
  hd_error (select sel t).

(** Selector syntax. *)
Definition cls (names : list str) : compound := mkCompound None None names None.
Definition el (n : str) : compound := mkCompound (Some n) None [] None.
Definition el_cls (n : str) (names : list str) : compound := mkCompound (Some n) None names None.
Definition el_id (n i : str) : compound := mkCompound (Some n) (Some i) [] None.
Definition el_attr_contains (n a v : str) : compound := mkCompound (Some n) None [] (Some (a, v)).

End Soup.

(** The selectors of [server.py]. *)

Module Sel.

Import Soup.

(** [.arxiv-result] *)
Definition arxiv_result : selector := [Last (cls ["arxiv-result" : str])].
(** [.title.is-clearfix] *)
Definition title_is_clearfix : selector := [Last (cls ["title" : str; "is-clearfix" : str])].
(** [.title] *)
Definition title : selector := [Last (cls ["title" : str])].
(** [.abstract-full] *)
Definition abstract_full : selector := [Last (cls ["abstract-full" : str])].
(** [.abstract] *)
Definition abstract : selector := [Last (cls ["abstract" : str])].
(** [.list-title > span > a] *)
Definition list_title_span_a : selector :=
  [Rel (Rel (Last (cls ["list-title" : str])) Child (el "span")) Child (el "a")].
(** [.authors a] *)
Definition authors_a : selector := [Rel (Last (cls ["authors" : str])) Descendant (el "a")].
(** [.tag.is-small] *)
Definition tag_is_small : selector := [Last (cls ["tag" : str; "is-small" : str])].
(** [.is-size-7] *)
Definition is_size_7 : selector := [Last (cls ["is-size-7" : str])].
(** [.title.mathjax] *)
Definition title_mathjax : selector := [Last (cls ["title" : str; "mathjax" : str])].
(** [.abstract.mathjax] *)
Definition abstract_mathjax : selector := [Last (cls ["abstract" : str; "mathjax" : str])].
(** [.authors] *)
Definition authors : selector := [Last (cls ["authors" : str])].
(** [a] *)
Definition a : selector := [Last (el "a")].
(** [.tablecell.subjects] *)
Definition tablecell_subjects : selector := [Last (cls ["tablecell" : str; "subjects" : str])].
(** [span.primary-subject] *)
Definition span_primary_subject : selector := [Last (el_cls "span" ["primary-subject" : str])].
(** [.dateline] *)
Definition dateline : selector := [Last (cls ["dateline" : str])].
(** [dl#articles dt, dl#articles dd] *)
Definition articles_dt_dd : selector :=
  [Rel (Last (el_id "dl" "articles")) Descendant (el "dt");
   Rel (Last (el_id "dl" "articles")) Descendant (el "dd")].
(** [a[href*='/abs/']] *)
Definition a_href_abs : selector := [Last (el_attr_contains "a" "href" "/abs/")].
(** [.list-title] *)
Definition list_title : selector := [Last (cls ["list-title" : str])].
(** [.list-authors] *)
Definition list_authors : selector := [Last (cls ["list-authors" : str])].
(** [.list-subjects] *)
Definition list_subjects : selector := [Last (cls ["list-subjects" : str])].

End Sel.

(** ** Exceptions and the network *)

Inductive exn : Type :=
| TypeError
| ValueError
| HTTPStatusError (status : Z)
| RequestError
| InvalidURL.

Inductive result (A : Type) : Type :=
| Ok (a : A)
| Raised (e : exn).

Arguments Ok {A} a.
Arguments Raised {A} e.

Definition result_map {A B} (f : A -> B) (r : result A) : result B :=
  match r with
  | Ok a => Ok (f a)
  | Raised e => Raised e
  end.

(** [client.get(url)] with the client's settings. *)
Record Request : Type := mkRequest {
  req_url : str;
  req_timeout : Z;
  req_follow_redirects : bool
}.

Record Response : Type := mkResponse {
  status_code : Z;
  resp_text : str
}.

(** A tool call either returns, raises, or calls [client.get] and goes on
    with the response.  An exception of [client.get] itself ([RequestError],
    or [InvalidURL] for a URL the client refuses) is not caught anywhere in
    the server, so it ends the call ([exec] below). *)
Inductive io (A : Type) : Type :=
| Ret (a : A)
| Throw (e : exn)
| HttpGet (rq : Request) (k : Response -> io A).

Arguments Ret {A} a.
Arguments Throw {A} e.
Arguments HttpGet {A} rq k.

Definition lift {A} (r : result A) : io A :=
  match r with
  | Ok a => Ret a
  | Raised e => Throw e
  end.

(** Running a call against a network.  [net] is what [client.get] does with
    a request: the response it returns, or the exception it raises. *)
Fixpoint exec {A} (net : Request -> result Response) (m : io A) : result A :=
  match m with
  | Ret a => Ok a
  | Throw e => Raised e
  | HttpGet rq k =>
      match net rq with
      | Ok response => exec net (k response)
      | Raised e => Raised e
      end
  end.

(** The calls of [client.get] a tool makes against a network, in order. *)
Fixpoint requests {A} (net : Request -> result Response) (m : io A) : list Request :=
  match m with
  | Ret _ => []
  | Throw _ => []
  | HttpGet rq k =>
      rq :: match net rq with
            | Ok response => requests net (k response)
            | Raised _ => []
            end
  end.

(** What [httpx] checks of a URL before it sends anything: [client.get]
    raises [InvalidURL] for a URL of more than [MAX_URL_LENGTH] characters,
    and for one with an ASCII character that is not printable (a control
    character or DEL). *)
Definition MAX_URL_LENGTH : Z := 65536.

Definition nonprintable_ascii (c : ascii) : bool :=
  (Py.ord c <? 32)%nat || Nat.eqb (Py.ord c) 127.

Definition invalid_url (url : str) : bool :=
  (MAX_URL_LENGTH <? Z.of_nat (List.length url))%Z || existsb nonprintable_ascii url.

(** [client.get] over a transport: a refused URL never reaches the
    transport. *)
Definition client (transport : Request -> result Response) (rq : Request)
  : result Response :=
  if invalid_url (req_url rq) then Raised InvalidURL else transport rq.

(** [response.raise_for_status()]: any status outside 2xx raises. *)
Definition raise_for_status (response : Response) : result unit :=
  if ((200 <=? status_code response) && (status_code response <=? 299))%Z
  then Ok tt
  else Raised (HTTPStatusError (status_code response)).

(** A tool result that is either [{"error": ...}] or a dumped model. *)
Inductive reply (A : Type) : Type :=
| ErrorDict (error : str)
| Dump (a : A).

Arguments ErrorDict {A} error.
Arguments Dump {A} a.

(** [int(s)] for a string of decimal digits (the one call site passes the
    digits of a [[\d,]+] capture): the empty string raises [ValueError], and
    so does a string of more than [int_max_str_digits] digits, leading zeros
    counted (the interpreter's default limit on the conversion, which the
    server does not change). *)
Definition digit_value (c : ascii) : Z := Z.of_nat (Py.ord c - 48).

Definition int_max_str_digits : Z := 4300.

Definition int_ (s : str) : result Z :=
  match s with
  | [] => Raised ValueError
  | _ :: _ =>
      if forallb Py.isdecimal s
      then if (Z.of_nat (List.length s) <=? int_max_str_digits)%Z
           then Ok (fold_left (fun acc c => (10 * acc + digit_value c)%Z) s 0%Z)
           else Raised ValueError
      else Raised ValueError
  end.

(** [urllib.parse.quote_plus]: letters, digits and [_.-~] stay, a space
    becomes [+], every other character is the [%XX] of its UTF-8 bytes. *)
Module Quote.

Definition utf8 (c : ascii) : list nat :=
  let n := Py.ord c in
  if (n <? 128)%nat then [n] else [(192 + n / 64)%nat; (128 + n mod 64)%nat].

Definition hex_digit (n : nat) : ascii :=
  nth n ("0123456789ABCDEF" : str) "0"%char.

Definition percent (b : nat) : str :=
  ["%"%char; hex_digit (b / 16); hex_digit (b mod 16)].

Definition unreserved (c : ascii) : bool :=
  Py.isdecimal c || Py.isupper_az c || Py.islower_az c
  || Ascii.eqb c "_" || Ascii.eqb c "." || Ascii.eqb c "-" || Ascii.eqb c "~".

Definition quote_char (c : ascii) : str :=
  if Ascii.eqb c " " then "+"
  else if unreserved c then [c]
  else flat_map percent (utf8 c).

Definition quote_plus (s : str) : str := flat_map quote_char s.

End Quote.

Definition URL_BASE : str := "https://arxiv.org".
Definition URL_EXPORT : str := "https://export.arxiv.org".
Definition URL_JINA : str := "https://r.jina.ai".
(** Seconds. *)
Definition TIMEOUT : Z := 30.

(** [x or ""] for an [Optional[str]]. *)
Definition or_empty (o : option str) : str :=
  match o with
  | Some (c :: t) => c :: t
  | _ => []
  end.

(** [sorted(l, key=...)]: a stable sort that compares with [<] only. *)
Fixpoint insert_sorted {A} (lt : A -> A -> bool) (x : A) (l : list A) : list A :=
  match l with
  | [] => [x]
  | y :: l' => if lt y x then y :: insert_sorted lt x l' else x :: l
  end.

Fixpoint sorted {A} (lt : A -> A -> bool) (l : list A) : list A :=
  match l with
  | [] => []
  | x :: l' => insert_sorted lt x (sorted lt l')
  end.

(** [functools.lru_cache(maxsize=1)] around a function of no argument: the
    cache is empty or holds the value computed by the first call. *)
Definition lru_cache {A} (f : unit -> A) (cache : option A) : A * option A :=
  match cache with
  | Some v => (v, cache)
  | None => let v := f tt in (v, Some v)
  end.

(** [getRecent]'s result mapping. *)
Record RecentListing : Type := mkRecentListing {
  recent_category : str;
  recent_category_name : str;
  recent_count : Z;
  recent_papers : list Paper
}.

(** ** [server.py] *)

Section Server.

(** [BeautifulSoup(html, "html.parser")]: the top-level nodes of the parsed
    document. *)
Variable BeautifulSoup : str -> list Soup.node.

(** [list(set(xs))]: the distinct elements of [xs] in the interpreter's
    iteration order. *)
Variable list_of_set : list str -> list str.

(** The page-header count of [parseSearchResults]. *)
Definition header_total (soup : Soup.Tag) : result Z :=
  match Soup.select_one Sel.title_is_clearfix soup with
  | Some total_text =>
      match Re.search Pat.total (Soup.text total_text) with
      | Some m => int_ (Py.replace (Re.group1 m) "," "")
      | None => Ok 0%Z
      end
  | None => Ok 0%Z
  end.

(** The normalised text of the abstract element of one result block. *)
Definition block_abstract_text (item : Soup.Tag) : str :=
  let abstract_elem :=
    match Soup.select_one Sel.abstract_full item with
    | Some e => Some e
    | None => Soup.select_one Sel.abstract item
    end in
  match abstract_elem with
  | Some e => cleanText (Soup.text e)
  | None => []
  end.

(** The abstract of one result block: the two [re.sub] calls. *)
Definition block_abstract (item : Soup.Tag) : str :=
  let abstract := block_abstract_text item in
  let abstract := Re.sub Pat.toggle "" abstract in
  Re.sub Pat.abstract_label "" abstract.

(** The body of the [try] for one result block.  [url_elem.get("href")] is
    [None] for an anchor without that attribute, and [re.search] on [None]
    raises [TypeError]. *)
Definition parse_block (item : Soup.Tag) : result Paper :=
  let title_elem := Soup.select_one Sel.title item in
  let title :=
    match title_elem with
    | Some e => cleanText (Soup.text e)
    | None => "Unknown Title" : str
    end in
  let abstract := block_abstract item in
  let url_elem := Soup.select_one Sel.list_title_span_a item in
  let url_abstract : option str :=
    match url_elem with
    | Some e => Soup.get e "href"
    | None => Some []
    end in
  match url_abstract with
  | None => Raised TypeError
  | Some url_abstract =>
      let id_arxiv := or_empty (extractPaperId url_abstract) in
      let authors := map (fun author => Py.strip (Soup.text author))
                         (Soup.select Sel.authors_a item) in
      let categories :=
        filter (fun cat_text =>
                  match cat_text with
                  | [] => false
                  | _ :: _ => negb (Py.startswith cat_text "doi:")
                  end)
               (map (fun tag => Py.strip (Soup.text tag))
                    (Soup.select Sel.tag_is_small item)) in
      let date_published :=
        match Soup.select_one Sel.is_size_7 item with
        | Some date_elem =>
            match Re.search Pat.submitted (Soup.text date_elem) with
            | Some submitted_match => Some (Re.group1 submitted_match)
            | None => None
            end
        | None => None
        end in
      let date_updated : option str := None in
      Ok (mkPaper id_arxiv title abstract authors categories url_abstract
            (match id_arxiv with
             | _ :: _ => "https://arxiv.org/pdf/" ++ id_arxiv ++ ".pdf"
             | [] => []
             end)
            date_published date_updated)
  end.

(** The [for item in items] loop: a block whose body raises is skipped. *)
Fixpoint parse_blocks (items : list Soup.Tag) (papers : list Paper) : list Paper :=
  match items with
  | [] => papers
  | item :: more =>
      match parse_block item with
      | Ok paper => parse_blocks more (papers ++ [paper])
      | Raised _ => parse_blocks more papers
      end
  end.

Definition parseSearchResults (html query : str) (page page_size : Z) : result SearchResult :=
  let soup := Soup.document (BeautifulSoup html) in
  let items := Soup.select Sel.arxiv_result soup in
  match header_total soup with
  | Raised e => Raised e
  | Ok total_results =>
      let papers := parse_blocks items [] in
      Ok (mkSearchResult query total_results papers page page_size)
  end.

(** The continuation of the two search tools after the GET. *)
Definition search_response (full_query : str) (page page_size : Z)
  (response : Response) : result SearchResult :=
  match raise_for_status response with
  | Raised e => Raised e
  | Ok _ => parseSearchResults (resp_text response) full_query page page_size
  end.

Definition search (query : str) (category author : option str) (sort_by : str)
  (page page_size : Z) : io SearchResult :=
  let page_size := Z.min page_size 50 in
  let start := ((page - 1) * page_size)%Z in
  let search_terms : list str := [] in
  let search_terms :=
    match query with _ :: _ => search_terms ++ [query] | [] => search_terms end in
  let search_terms :=
    match author with
    | Some (c :: t) => search_terms ++ ["au:" ++ c :: t]
    | _ => search_terms
    end in
  let search_terms :=
    match category with
    | Some (c :: t) => search_terms ++ ["cat:" ++ c :: t]
    | _ => search_terms
    end in
  let full_query : str :=
    if (1 <? List.length search_terms)%nat then Py.join " AND " search_terms
    else match search_terms with
         | first :: _ => first
         | [] => []
         end in
  let encoded_query := Quote.quote_plus full_query in
  let sort_order := dict_get SORT_OPTIONS sort_by "" in
  let url : str :=
    URL_BASE ++ "/search/?query=" ++ encoded_query
    ++ "&searchtype=all&abstracts=show"
    ++ "&order=" ++ sort_order ++ "&size=" ++ Py.str_of_int page_size
    ++ "&start=" ++ Py.str_of_int start in
  HttpGet (mkRequest url TIMEOUT false)
    (fun response => lift (search_response full_query page page_size response)).

(** The query parts of [searchAdvanced], in the order they are appended. *)
Definition advanced_parts (title abstract author category id_arxiv : option str) : list str :=
  let query_parts : list str := [] in
  let query_parts :=
    match title with Some (c :: t) => query_parts ++ ["ti:" ++ c :: t] | _ => query_parts end in
  let query_parts :=
    match abstract with Some (c :: t) => query_parts ++ ["abs:" ++ c :: t] | _ => query_parts end in
  let query_parts :=
    match author with Some (c :: t) => query_parts ++ ["au:" ++ c :: t] | _ => query_parts end in
  let query_parts :=
    match category with Some (c :: t) => query_parts ++ ["cat:" ++ c :: t] | _ => query_parts end in
  match id_arxiv with Some (c :: t) => query_parts ++ ["id:" ++ c :: t] | _ => query_parts end.

Definition searchAdvanced (title abstract author category id_arxiv date_from date_to : option str)
  (sort_by : str) (page page_size : Z) : io (reply SearchResult) :=
  let page_size := Z.min page_size 50 in
  let start := ((page - 1) * page_size)%Z in
  let query_parts := advanced_parts title abstract author category id_arxiv in
  match query_parts with
  | [] => Ret (ErrorDict "At least one search field is required")
  | _ :: _ =>
      let full_query := Py.join " AND " query_parts in
      let encoded_query := Quote.quote_plus full_query in
      let sort_order := dict_get SORT_OPTIONS sort_by "" in
      let url : str :=
        URL_BASE ++ "/search/advanced?terms-0-operator=AND"
        ++ "&terms-0-term=" ++ encoded_query ++ "&terms-0-field=all"
        ++ "&classification-physics_archives=all"
        ++ "&classification-include_cross_list=include"
        ++ "&abstracts=show&size=" ++ Py.str_of_int page_size
        ++ "&start=" ++ Py.str_of_int start
        ++ "&order=" ++ sort_order in
      let url : str :=
        match date_from with
        | Some (c :: t) => url ++ "&date-from_date=" ++ c :: t
        | _ => url
        end in
      let url : str :=
        match date_to with
        | Some (c :: t) => url ++ "&date-to_date=" ++ c :: t
        | _ => url
        end in
      HttpGet (mkRequest url TIMEOUT false)
        (fun response =>
           lift (result_map Dump (search_response full_query page page_size response)))
  end.

(** The category list of [getPaper]: the primary subjects, then every
    parenthesised code of the subjects text that is not yet listed. *)
Definition append_new (categories : list str) (cat : str) : list str :=
  if Soup.mem cat categories then categories else categories ++ [cat].

Definition paper_categories (soup : Soup.Tag) : list str :=
  match Soup.select_one Sel.tablecell_subjects soup with
  | Some subj_elem =>
      let primary :=
        flat_map (fun span =>
                    match Re.search Pat.parenthesised (Soup.text span) with
                    | Some cat_match => [Re.group1 cat_match]
                    | None => []
                    end)
                 (Soup.select Sel.span_primary_subject subj_elem) in
      let subj_text := Soup.text subj_elem in
      let cat_matches := Re.findall Pat.parenthesised_code subj_text in
      fold_left append_new cat_matches primary
  | None => []
  end.

(** The abstract of [getPaper]. *)
Definition paper_abstract (soup : Soup.Tag) : str :=
  match Soup.select_one Sel.abstract_mathjax soup with
  | Some abstract_elem => cleanText (Py.replace (Soup.text abstract_elem) "Abstract:" "")
  | None => []
  end.

(** What [getPaper] builds from the fetched page. *)
Definition paper_of_page (id_arxiv url_abstract html : str) : Paper :=
  let soup := Soup.document (BeautifulSoup html) in
  let title :=
    match Soup.select_one Sel.title_mathjax soup with
    | Some title_elem => cleanText (Py.replace (Soup.text title_elem) "Title:" "")
    | None => "Unknown" : str
    end in
  let abstract := paper_abstract soup in
  let authors :=
    match Soup.select_one Sel.authors soup with
    | Some authors_div => map (fun a => Py.strip (Soup.text a)) (Soup.select Sel.a authors_div)
    | None => []
    end in
  let categories := paper_categories soup in
  let date_submitted :=
    match Soup.select_one Sel.dateline soup with
    | Some date_history =>
        match Re.search Pat.submitted_history (Soup.text date_history) with
        | Some date_match => Some (Re.group1 date_match)
        | None => None
        end
    | None => None
    end in
  mkPaper id_arxiv title abstract authors categories url_abstract
    (URL_BASE ++ "/pdf/" ++ id_arxiv ++ ".pdf") date_submitted None.

Definition getPaper (id_or_url : str) : io (reply Paper) :=
  match extractPaperId id_or_url with
  | Some (c :: t) =>
      let id_arxiv := c :: t in
      let url_abstract : str := URL_BASE ++ "/abs/" ++ id_arxiv in
      HttpGet (mkRequest url_abstract TIMEOUT true)
        (fun response =>
           match raise_for_status response with
           | Raised e => Throw e
           | Ok _ => Ret (Dump (paper_of_page id_arxiv url_abstract (resp_text response)))
           end)
  | _ => Ret (ErrorDict ("Could not extract arXiv ID from: " ++ id_or_url))
  end.

Definition getContent (id_or_url : str) : io str :=
  let url_target : str :=
    match extractPaperId id_or_url with
    | Some (c :: t) => URL_BASE ++ "/abs/" ++ c :: t
    | _ =>
        if Py.startswith id_or_url "http" then id_or_url
        else URL_BASE ++ "/abs/" ++ id_or_url
    end in
  let jina_url : str := URL_JINA ++ "/" ++ url_target in
  HttpGet (mkRequest jina_url (TIMEOUT * 2) false)
    (fun response =>
       match raise_for_status response with
       | Raised e => Throw e
       | Ok _ => Ret (resp_text response)
       end).

(** The group of a category code, by prefix. *)
Definition group_of (code : str) : str :=
  if Py.startswith code "cs." then "Computer Science"
  else if Py.startswith code "stat." then "Statistics"
  else if Py.startswith code "math." then "Mathematics"
  else if Py.startswith code "eess." then "Electrical Engineering"
  else if Py.startswith code "q-bio." then "Quantitative Biology"
  else if Py.startswith code "q-fin." then "Quantitative Finance"
  else "Physics".

(** [(x["group"], x["code"]) < (y["group"], y["code"])] on tuples. *)
Definition key_lt (x y : Category) : bool :=
  match Py.str_compare (group x) (group y) with
  | Lt => true
  | Gt => false
  | Eq => Py.str_ltb (code x) (code y)
  end.

(** The [{"code", "name", "group"}] record of one table entry. *)
Definition category_of (item : str * str) : Category :=
  mkCategory (fst item) (snd item) (group_of (fst item)).

(** The body of [listCategories] over a table. *)
Definition categories_of (table : dict) : list Category :=
  sorted key_lt (map category_of table).

Definition listCategories_body (_ : unit) : list Category := categories_of ARXIV_CATEGORIES.

(** [listCategories] under its cache decorator: the call threads the cache. *)
Definition listCategories (cache : option (list Category))
  : list Category * option (list Category) :=
  lru_cache listCategories_body cache.

(** The identifier [getRecent] reads from a [dt]; empty when there is none. *)
Definition recent_id (dt : Soup.Tag) : str :=
  match Soup.select_one Sel.a_href_abs dt with
  | Some id_link =>
      let href := match Soup.get id_link "href" with Some h => h | None => [] end in
      match Re.search Pat.abs_href href with
      | Some id_match => Re.group1 id_match
      | None => []
      end
  | None => []
  end.

(** What [getRecent] makes of one [dt]/[dd] pair: a paper when an
    identifier is found in the [dt]. *)
Definition recent_pair (dt dd : Soup.Tag) : list Paper :=
  let id_arxiv : str := recent_id dt in
  let title :=
    match Soup.select_one Sel.list_title dd with
    | Some title_elem => cleanText (Py.replace (Soup.text title_elem) "Title:" "")
    | None => []
    end in
  let authors :=
    match Soup.select_one Sel.list_authors dd with
    | Some authors_elem => map (fun a => Py.strip (Soup.text a)) (Soup.select Sel.a authors_elem)
    | None => []
    end in
  let categories :=
    match Soup.select_one Sel.list_subjects dd with
    | Some subj_elem => list_of_set (Re.findall Pat.listed_code (Soup.text subj_elem))
    | None => []
    end in
  match id_arxiv with
  | _ :: _ =>
      [mkPaper id_arxiv title [] authors categories
         (URL_BASE ++ "/abs/" ++ id_arxiv) (URL_BASE ++ "/pdf/" ++ id_arxiv ++ ".pdf")
         None None]
  | [] => []
  end.

(** The [while i < len(entries) - 1] loop: at a [dt] followed by a [dd] it
    handles the pair and moves on by two, otherwise by one. *)
Fixpoint recent_loop (entries : list Soup.Tag) (papers : list Paper) : list Paper :=
  match entries with
  | [] => papers
  | first :: rest =>
      match rest with
      | [] => papers
      | second :: rest' =>
          if Py.str_eqb (Soup.name first) "dt" && Py.str_eqb (Soup.name second) "dd"
          then recent_loop rest' (papers ++ recent_pair first second)
          else recent_loop rest papers
      end
  end.

(** What [getRecent] builds from the fetched page. *)
Definition recent_of_page (category html : str) : RecentListing :=
  let soup := Soup.document (BeautifulSoup html) in
  let entries := Soup.select Sel.articles_dt_dd soup in
  let papers := recent_loop entries [] in
  mkRecentListing category (dict_get ARXIV_CATEGORIES category category)
    (Z.of_nat (List.length papers)) papers.

Definition getRecent (category : str) (count : Z) : io RecentListing :=
  let count := Z.min count 50 in
  let url : str :=
    URL_BASE ++ "/list/" ++ category ++ "/recent?skip=0&show=" ++ Py.str_of_int count in
  HttpGet (mkRequest url TIMEOUT true)
    (fun response =>
       match raise_for_status response with
       | Raised e => Throw e
       | Ok _ => Ret (recent_of_page category (resp_text response))
       end).

End Server.

(** ** Vocabulary of the statements *)

Definition newline : ascii := "010".
Definition space : ascii := " ".

(** A word: non-empty and free of whitespace. *)
Definition word (w : str) : Prop :=
  w <> [] /\ forallb (fun c => negb (Py.isspace c)) w = true.

(** No two whitespace characters in a row. *)
Fixpoint no_ws_run (t : str) : bool :=
  match t with
  | [] => true
  | c :: t' =>
      match t' with
      | [] => true
      | d :: _ => negb (Py.isspace c && Py.isspace d) && no_ws_run t'
      end
  end.


(** The longest prefix of [s] made of characters of class [p], and what
    follows it. *)
Fixpoint take_while (p : ascii -> bool) (s : str) : str :=
  match s with
  | [] => []
  | c :: t => if p c then c :: take_while p t else []
  end.

Fixpoint drop_while (p : ascii -> bool) (s : str) : str :=
  match s with
  | [] => []
  | c :: t => if p c then drop_while p t else s
  end.

(** A non-empty run of decimal digits. *)
Definition digits (d : str) : Prop := d <> [] /\ forallb Py.isdecimal d = true.

(** An identifier [digits.digits]. *)
Definition identifier (id : str) : Prop :=
  exists d1 d2, digits d1 /\ digits d2 /\ id = d1 ++ Pat.dot_char :: d2.

(** [s] does not begin with a character of class [p]. *)
Definition not_headed (p : ascii -> bool) (s : str) : Prop :=
  forall c t, s = c :: t -> p c = false.

(** After [pre], [url] reads [prefix] and then the identifier [id], which is
    as long as it can be. *)
Definition occurs_at (prefix url pre id : str) : Prop :=
  exists post,
    url = pre ++ prefix ++ id ++ post /\ identifier id /\ not_headed Py.isdecimal post.

Definition has_occurrence (prefix url : str) : Prop :=
  exists pre id, occurs_at prefix url pre id.

(** [id] is the identifier of the leftmost occurrence of [prefix] followed by
    an identifier. *)
Definition first_occurrence (prefix url id : str) : Prop :=
  exists pre,
    occurs_at prefix url pre id /\
    forall pre' id', occurs_at prefix url pre' id' -> (List.length pre <= List.length pre')%nat.

(** The whole string is the identifier [id], up to one final newline. *)
Definition bare (url id : str) : Prop :=
  identifier id /\ (url = id \/ url = id ++ [newline]).

Definition abs_prefix : str := "arxiv.org/abs/".
Definition pdf_prefix : str := "arxiv.org/pdf/".

(** The abstract-page URL of an identifier is [abs_page ++ id]. *)
Definition abs_page : str := "https://arxiv.org/abs/".

(** What identifier extraction has to return for [url]. *)
Inductive extract_spec (url : str) : option str -> Prop :=
| from_abs (id : str) :
    first_occurrence abs_prefix url id -> extract_spec url (Some id)
| from_pdf (id : str) :
    ~ has_occurrence abs_prefix url ->
    first_occurrence pdf_prefix url id -> extract_spec url (Some id)
| from_bare (id : str) :
    ~ has_occurrence abs_prefix url ->
    ~ has_occurrence pdf_prefix url ->
    bare url id -> extract_spec url (Some id)
| not_found :
    ~ has_occurrence abs_prefix url ->
    ~ has_occurrence pdf_prefix url ->
    (forall id, ~ bare url id) -> extract_spec url None.

(** The identifier read at the head of [s], with what follows it. *)
Definition scan_number (s : str) : option (str * str) :=
  let d1 := take_while Py.isdecimal s in
  match d1, drop_while Py.isdecimal s with
  | _ :: _, c :: r =>
      if Ascii.eqb c Pat.dot_char
      then let d2 := take_while Py.isdecimal r in
           match d2 with
           | _ :: _ => Some (d1 ++ Pat.dot_char :: d2, drop_while Py.isdecimal r)
           | [] => None
           end
      else None
  | _, _ => None
  end.


(** No filter field of [searchAdvanced] is given: each of the five is [None]
    or empty.  The two dates are not among them. *)
Definition no_filter (title abstract author category id_arxiv : option str) : bool :=
  negb (Py.truthy title) && negb (Py.truthy abstract) && negb (Py.truthy author)
  && negb (Py.truthy category) && negb (Py.truthy id_arxiv).





(** [a <= b] on strings. *)
Definition str_le (a b : str) : Prop := Py.str_compare a b <> Gt.

(** [(group, code)] of [x] is at most that of [y], lexicographically. *)
Definition key_le (x y : Category) : Prop :=
  Py.str_compare (group x) (group y) = Lt
  \/ (group x = group y /\ str_le (code x) (code y)).

(** The states the cache of [listCategories] goes through in a process. *)
Inductive cache_state : option (list Category) -> Prop :=
| cache_empty : cache_state None
| cache_after (c : option (list Category)) :
    cache_state c -> cache_state (snd (listCategories c)).


(** The [dt]/[dd] pairs the loop of [getRecent] handles, in order. *)
Fixpoint dt_dd_pairs (entries : list Soup.Tag) : list (Soup.Tag * Soup.Tag) :=
  match entries with
  | [] => []
  | first :: rest =>
      match rest with
      | [] => []
      | second :: rest' =>
          if Py.str_eqb (Soup.name first) "dt" && Py.str_eqb (Soup.name second) "dd"
          then (first, second) :: dt_dd_pairs rest'
          else dt_dd_pairs rest
      end
  end.

(** An identifier was read from the [dt] of the pair. *)
Definition pair_identified (pair : Soup.Tag * Soup.Tag) : bool :=
  match recent_id (fst pair) with
  | [] => false
  | _ :: _ => true
  end.

(** The entries of a listing page. *)
Definition listing_entries (top : list Soup.node) : list Soup.Tag :=
  Soup.select Sel.articles_dt_dd (Soup.document top).

(** An element node. *)
Definition element (name : str) (classes : list str) (attrs : list (str * str))
  (children : list Soup.node) : Soup.node :=
  Soup.Elem (Soup.mkHdr name classes attrs) children.

(** A listing page with two [dt]/[dd] pairs; the second [dt] has no link. *)
Definition sample_listing : list Soup.node :=
  [element "dl" [] [("id" : str, "articles" : str)]
     [element "dt" [] []
        [element "a" [] [("href" : str, "/abs/2301.00001" : str)]
           [Soup.Text "arXiv:2301.00001"]];
      element "dd" [] []
        [element "div" ["list-title" : str] [] [Soup.Text "Title: First paper"]];
      element "dt" [] [] [Soup.Text "withdrawn"];
      element "dd" [] []
        [element "div" ["list-title" : str] [] [Soup.Text "Title: Second paper"]]]].

(** A network that answers every request with the same page. *)
Definition always_ok (body : str) (rq : Request) : result Response :=
  Ok (mkResponse 200 body).

(** A paper without identifier carries no PDF URL. *)
Definition pdf_only_if_identified (p : Paper) : Prop :=
  id_arxiv p = [] -> url_pdf p = [].


(** The papers one result block contributes: none when its body raises. *)
Definition block_papers (item : Soup.Tag) : list Paper :=
  match parse_block item with
  | Ok paper => [paper]
  | Raised _ => []
  end.

(** The block has a link anchor, and that anchor has no [href]. *)
Definition link_without_href (item : Soup.Tag) : bool :=
  match Soup.select_one Sel.list_title_span_a item with
  | Some url_elem =>
      match Soup.get url_elem "href" with
      | None => true
      | Some _ => false
      end
  | None => false
  end.

(** The block has neither a title element nor a link anchor. *)
Definition lacks_title_and_link (item : Soup.Tag) : Prop :=
  Soup.select_one Sel.title item = None
  /\ Soup.select_one Sel.list_title_span_a item = None.

(** The result blocks of a search page. *)
Definition result_blocks (top : list Soup.node) : list Soup.Tag :=
  Soup.select Sel.arxiv_result (Soup.document top).

(** A well-formed result block. *)
Definition sample_block (id title_text abstract_text : str) : Soup.node :=
  element "li" ["arxiv-result" : str] []
    [element "div" ["list-title" : str] []
       [element "span" [] []
          [element "a" [] [("href" : str, "https://arxiv.org/abs/" ++ id)]
             [Soup.Text ("arXiv:" ++ id)]]];
     element "p" ["title" : str] [] [Soup.Text title_text];
     element "span" ["abstract-full" : str] [] [Soup.Text abstract_text]].

(** A result block without title element and without link. *)
Definition sample_block_without_title_and_link : Soup.node :=
  element "li" ["arxiv-result" : str] []
    [element "span" ["abstract-full" : str] [] [Soup.Text "Abstract: An orphan entry Less"]].

(** A search page with three result blocks, the second without title and
    link, under a header that counts 1,234 results. *)
Definition sample_search_page : list Soup.node :=
  [element "h1" ["title" : str; "is-clearfix" : str] []
     [Soup.Text "Showing 1-3 of 1,234 results for all: LLM"];
   element "ol" [] []
     [sample_block "2301.00001" "First paper" "Abstract: One. More";
      sample_block_without_title_and_link;
      sample_block "2301.00003" "Third paper" "Abstract: Three."]].

(** A result block whose link anchor has no [href]. *)
Definition sample_block_without_href : Soup.node :=
  element "li" ["arxiv-result" : str] []
    [element "div" ["list-title" : str] []
       [element "span" [] [] [element "a" [] [] [Soup.Text "arXiv"]]];
     element "p" ["title" : str] [] [Soup.Text "No address"]].


(** Whitespace only. *)
Definition blank (w : str) : Prop := forallb Py.isspace w = true.

Definition less : str := "Less".
Definition more : str := "More".
Definition abstract_colon : str := "Abstract:".

(** One of the two toggle labels. *)
Definition toggle_label (l : str) : Prop := l = less \/ l = more.

(** A toggle label with whitespace around it. *)
Definition toggle_tail (tail : str) : Prop :=
  exists w1 l w2, tail = w1 ++ l ++ w2 /\ blank w1 /\ toggle_label l /\ blank w2.

(** [body] does not end with whitespace. *)
Definition no_trailing_space (body : str) : Prop :=
  forall b c, body = b ++ [c] -> Py.isspace c = false.

(** Removing a trailing toggle label: the text ends with a label and the
    whitespace around it, which are cut off; or it has no such end and is
    kept. *)
Inductive toggle_stripped : str -> str -> Prop :=
| toggle_cut (body tail : str) :
    toggle_tail tail -> no_trailing_space body -> toggle_stripped (body ++ tail) body
| toggle_kept (t : str) :
    (forall body tail, t = body ++ tail -> ~ toggle_tail tail) -> toggle_stripped t t.

(** Removing a leading "Abstract:" with the whitespace after it. *)
Inductive label_stripped : str -> str -> Prop :=
| label_cut (t : str) :
    label_stripped (abstract_colon ++ t) (drop_while Py.isspace t)
| label_kept (t : str) :
    Py.startswith t abstract_colon = false -> label_stripped t t.

(** Deleting every "Abstract:" of a text, from the left: a text without the
    label is kept; otherwise the first label is cut out, what stands before
    it is kept, and the deletion goes on in what follows it. *)
Inductive label_deleted : str -> str -> Prop :=
| deleted_none (t : str) :
    (forall pre post, t <> pre ++ abstract_colon ++ post) -> label_deleted t t
| deleted_first (pre post r : str) :
    (forall pre' post',
       pre ++ abstract_colon ++ post = pre' ++ abstract_colon ++ post' ->
       (List.length pre <= List.length pre')%nat) ->
    label_deleted post r ->
    label_deleted (pre ++ abstract_colon ++ post) (pre ++ r).

(** Whether the toggle pattern matches at the head of [s]. *)
Definition toggle_at (s : str) : bool :=
  let r := drop_while Py.isspace s in
  (Py.startswith r less || Py.startswith r more)
  && match drop_while Py.isspace (skipn 4 r) with
     | [] => true
     | _ :: _ => false
     end.

(** An abstract page whose abstract ends with the word "More". *)
Definition sample_paper_page : list Soup.node :=
  [element "h1" ["title" : str; "mathjax" : str] [] [Soup.Text "Title: A sample"];
   element "blockquote" ["abstract" : str; "mathjax" : str] []
     [Soup.Text "Abstract: We want More"]].

(** An abstract element laid out as on the abstract page: the label comes
    after a line break. *)
Definition sample_paper_page_spaced : list Soup.node :=
  [element "blockquote" ["abstract" : str; "mathjax" : str] []
     [Soup.Text "
";
      element "span" ["descriptor" : str] [] [Soup.Text "Abstract:"];
      Soup.Text "We study X.
"]].

(** A result block with the same abstract text. *)
Definition sample_block_more : list Soup.node :=
  [sample_block "2301.00001" "A sample" "Abstract: We want More"].


(** ** Vocabulary of the further properties *)

(** The PDF URL of an identifier is [pdf_page ++ id ++ ".pdf"]. *)
Definition pdf_page : str := "https://arxiv.org/pdf/".

(** [sub] occurs in [s]. *)
Definition substring (sub s : str) : Prop := exists pre post, s = pre ++ sub ++ post.

(** The identifier of a paper is well formed and both of its URLs resolve
    back to it. *)
Definition linked (p : Paper) : Prop :=
  identifier (id_arxiv p)
  /\ extractPaperId (url_abstract p) = Some (id_arxiv p)
  /\ extractPaperId (url_pdf p) = Some (id_arxiv p).

(** No identifier can be read from [url]. *)
Definition unrecognised (url : str) : Prop :=
  ~ has_occurrence abs_prefix url
  /\ ~ has_occurrence pdf_prefix url
  /\ (forall id, ~ bare url id).

(** The status is a 2xx. *)
Definition success (response : Response) : Prop :=
  (200 <= status_code response <= 299)%Z.

(** The status is a 4xx or a 5xx. *)
Definition error_status (response : Response) : Prop :=
  (400 <= status_code response <= 599)%Z.

(** A call issues at most one request on any network, and a request that
    fails, or is answered with an error status, ends the call with that
    exception. *)
Definition single_shot {A} (call : io A) : Prop :=
  forall net,
    (List.length (requests net call) <= 1)%nat
    /\ forall rq, In rq (requests net call) ->
         match net rq with
         | Raised e => exec net call = Raised e
         | Ok response =>
             error_status response ->
             exec net call = Raised (HTTPStatusError (status_code response))
         end.

(** The continuation of a GET checks the status before anything else and
    issues no further request. *)
Definition guarded {A} (k : Response -> io A) : Prop :=
  forall response,
    (forall e, raise_for_status response = Raised e -> k response = Throw e)
    /\ (forall rq k', k response <> HttpGet rq k').

(** The address [getContent] hands to the rendering proxy. *)
Definition proxied (target : str) : str := URL_JINA ++ "/" ++ target.

(** What reaches the transport when a tool runs on the client: the calls of
    [client.get] with a URL the client does not refuse. *)
Definition sent {A} (transport : Request -> result Response) (call : io A)
  : list Request :=
  filter (fun rq => negb (invalid_url (req_url rq))) (requests (client transport) call).





(** No whitespace at either end. *)
Definition trimmed (s : str) : Prop :=
  not_headed Py.isspace s /\ no_trailing_space s.

(** A category kept from a result block: not empty, not a DOI tag, trimmed. *)
Definition category_tag (c : str) : Prop :=
  c <> [] /\ Py.startswith c "doi:" = false /\ trimmed c.

(** The primary subjects [getPaper] reads from the subjects cell. *)
Definition primary_subjects (subj_elem : Soup.Tag) : list str :=
  flat_map (fun span =>
              match Re.search Pat.parenthesised (Soup.text span) with
              | Some cat_match => [Re.group1 cat_match]
              | None => []
              end)
           (Soup.select Sel.span_primary_subject subj_elem).

(** The parenthesised codes [getPaper] finds in the subjects text. *)
Definition subject_codes (subj_elem : Soup.Tag) : list str :=
  Re.findall Pat.parenthesised_code (Soup.text subj_elem).

(** A result block with three tags: a category in blanks, a DOI, an empty
    tag; and an author in blanks. *)
Definition sample_block_tags : list Soup.node :=
  [element "li" ["arxiv-result" : str] []
     [element "span" ["tag" : str; "is-small" : str] [] [Soup.Text "  cs.LG "];
      element "span" ["tag" : str; "is-small" : str] [] [Soup.Text "doi:10.1000/x"];
      element "span" ["tag" : str; "is-small" : str] [] [Soup.Text "   "];
      element "p" ["authors" : str] []
        [element "a" [] [] [Soup.Text " Ada Lovelace
"]]]].

(** A search page whose header count is made of commas only, above one
    well-formed result block. *)
Definition sample_comma_page : list Soup.node :=
  [element "h1" ["title" : str; "is-clearfix" : str] []
     [Soup.Text "Showing 1-1 of ,, results"];
   element "ol" [] [] [sample_block "2301.00001" "First paper" "Abstract: One."]].

Definition comma : ascii := ",".

(** The header text reads "of N results" after [pre]: the count is a
    non-empty run of digits and commas between "of " and " results". *)
Definition reads_count (text pre count rest : str) : Prop :=
  text = pre ++ "of " ++ count ++ " results" ++ rest
  /\ count <> [] /\ forallb Pat.digit_or_comma count = true.

(** [count] is the count at the first place where the text reads
    "of N results". *)
Definition first_count (text count : str) : Prop :=
  exists pre rest,
    reads_count text pre count rest
    /\ forall pre' count' rest',
         reads_count text pre' count' rest' -> (List.length pre <= List.length pre')%nat.

(** The number a string of digits denotes: each digit weighs ten times the
    one after it. *)
Fixpoint decimal (d : str) : Z :=
  match d with
  | [] => 0
  | c :: t => digit_value c * 10 ^ Z.of_nat (List.length t) + decimal t
  end.

(** The characters that structure a URL's query part. *)
Definition separator (c : ascii) : bool :=
  Ascii.eqb c "&" || Ascii.eqb c "=" || Ascii.eqb c "?" || Ascii.eqb c "#"
  || Ascii.eqb c " ".

(** How often [x] occurs in [s]. *)
Definition occurrences (x : ascii) (s : str) : nat :=
  List.length (filter (Ascii.eqb x) s).

(** [s] has no separator. *)
Definition separator_free (s : str) : Prop :=
  forallb (fun c => negb (separator c)) s = true.

(** The two search URLs with their variable parts left empty. *)
Definition search_template : str :=
  "https://arxiv.org/search/?query=&searchtype=all&abstracts=show&order=&size=&start=".

Definition advanced_template : str :=
  "https://arxiv.org/search/advanced?terms-0-operator=AND&terms-0-term=&terms-0-field=all&classification-physics_archives=all&classification-include_cross_list=include&abstracts=show&size=&start=&order=".

(** What a date filter adds to the URL. *)
Definition date_part (key : str) (date : option str) : str :=
  match date with
  | Some (c :: t) => key ++ c :: t
  | _ => []
  end.

(** Normalised text: no whitespace at the ends, no two whitespace characters
    in a row, and no whitespace character other than the space. *)
Definition normal_form (s : str) : Prop :=
  trimmed s
  /\ no_ws_run s = true
  /\ (forall c, In c s -> Py.isspace c = true -> c = space).

(** Title and abstract of a paper are normalised. *)
Definition normal_text (p : Paper) : Prop :=
  normal_form (title p) /\ normal_form (abstract p).

(** * Properties *)

(** ** Text normalisation *)

Section CleanText.

Import Py.

Lemma replace_newline_map (s : str) :
  replace s [newline] [space] = map (fun c => if Ascii.eqb c newline then space else c) s.
Proof.
  unfold replace. induction s as [|c t IH]; [reflexivity|].
  cbn [replace_from startswith List.length Nat.sub map app].
  rewrite Ascii.eqb_sym, andb_true_r.
  destruct (Ascii.eqb c newline); cbn; now rewrite IH.
Qed.

Lemma split_map (f : ascii -> ascii) (s : str) :
  (forall c, isspace (f c) = isspace c) ->
  (forall c, isspace c = false -> f c = c) ->
  split (map f s) = split s.
Proof.
  intros Hsp Hid. induction s as [|c t IH]; [reflexivity|].
  cbn [map split]. rewrite Hsp.
  destruct (isspace c) eqn:Ec; [exact IH|].
  rewrite (Hid c Ec).
  destruct t as [|d t']; [reflexivity|].
  cbn [map] in *. rewrite Hsp.
  destruct (isspace d) eqn:Ed; now rewrite IH.
Qed.

Lemma split_replace_newline (s : str) : split (replace s [newline] [space]) = split s.
Proof.
  rewrite replace_newline_map. apply split_map; intro c.
  - destruct (Ascii.eqb c newline) eqn:E; [|reflexivity].
    apply Ascii.eqb_eq in E. now subst.
  - intro H. destruct (Ascii.eqb c newline) eqn:E; [|reflexivity].
    apply Ascii.eqb_eq in E. subst. discriminate.
Qed.

Lemma split_words (s : str) : Forall word (split s).
Proof.
  induction s as [|c t IH]; [constructor|].
  cbn [split]. destruct (isspace c) eqn:Ec; [exact IH|].
  assert (Hc : word [c]) by (split; [discriminate | cbn; now rewrite Ec]).
  destruct t as [|d t']; [now constructor|].
  destruct (isspace d) eqn:Ed; [now constructor|].
  destruct (split (d :: t')) as [|w ws]; [now constructor|].
  inversion IH as [|? ? [Hw1 Hw2] Hws]; subst.
  constructor; [|assumption].
  split; [discriminate|]. cbn. now rewrite Ec.
Qed.

Lemma split_space (c : ascii) (t : str) : isspace c = true -> split (c :: t) = split t.
Proof. intro H. cbn [split]. now rewrite H. Qed.

Lemma split_last (c : ascii) : isspace c = false -> split [c] = [[c]].
Proof. intro H. cbn [split]. now rewrite H. Qed.

Lemma split_end_of_word (c d : ascii) (t : str) :
  isspace c = false -> isspace d = true -> split (c :: d :: t) = [c] :: split t.
Proof.
  intros Hc Hd. rewrite <- (split_space d t Hd).
  change (split (c :: d :: t))
    with (if isspace c then split (d :: t)
          else if isspace d then [c] :: split (d :: t)
               else match split (d :: t) with w :: ws => (c :: w) :: ws | [] => [[c]] end).
  now rewrite Hc, Hd.
Qed.

Lemma split_in_word (c d : ascii) (t : str) :
  isspace c = false -> isspace d = false ->
  split (c :: d :: t) =
  match split (d :: t) with w :: ws => (c :: w) :: ws | [] => [[c]] end.
Proof.
  intros Hc Hd.
  change (split (c :: d :: t))
    with (if isspace c then split (d :: t)
          else if isspace d then [c] :: split (d :: t)
               else match split (d :: t) with w :: ws => (c :: w) :: ws | [] => [[c]] end).
  now rewrite Hc, Hd.
Qed.

Lemma word_cons (c : ascii) (w : str) :
  forallb (fun c => negb (isspace c)) (c :: w) = true ->
  isspace c = false /\ forallb (fun c => negb (isspace c)) w = true.
Proof.
  cbn. intro H. apply andb_prop in H as [Hc Hw]. now apply negb_true_iff in Hc.
Qed.

Lemma split_word_then_space (w : str) (sp : ascii) (r : str) :
  word w -> isspace sp = true -> split (w ++ sp :: r) = w :: split r.
Proof.
  intros [Hne Hws] Hsp. induction w as [|c w IH]; [congruence|].
  apply word_cons in Hws as [Hc Hw].
  destruct w as [|d w'].
  - now apply split_end_of_word.
  - destruct (word_cons _ _ Hw) as [Hd _].
    cbn [app] in *. rewrite split_in_word by assumption.
    rewrite IH; [reflexivity | discriminate | exact Hw].
Qed.

Lemma split_word (w : str) : word w -> split w = [w].
Proof.
  intros [Hne Hws]. induction w as [|c w IH]; [congruence|].
  apply word_cons in Hws as [Hc Hw].
  destruct w as [|d w']; [now apply split_last|].
  destruct (word_cons _ _ Hw) as [Hd _].
  rewrite split_in_word by assumption.
  rewrite IH; [reflexivity | discriminate | exact Hw].
Qed.

Lemma split_join (ws : list str) : Forall word ws -> split (join [space] ws) = ws.
Proof.
  induction 1 as [|w ws Hw Hws IH]; [reflexivity|].
  destruct ws as [|w' ws'].
  - now apply split_word.
  - change (join [space] (w :: w' :: ws')) with (w ++ space :: join [space] (w' :: ws')).
    rewrite split_word_then_space by (assumption || reflexivity).
    now rewrite IH.
Qed.

Lemma join_chars (ws : list str) (c : ascii) :
  Forall word ws -> In c (join [space] ws) -> isspace c = true -> c = space.
Proof.
  induction 1 as [|w ws [Hne Hw] Hws IH]; [contradiction|].
  assert (Hin : In c w -> isspace c = true -> c = space).
  { intros Hi Hs. rewrite forallb_forall in Hw. specialize (Hw c Hi).
    now rewrite Hs in Hw. }
  destruct ws as [|w' ws']; [exact Hin|].
  change (join [space] (w :: w' :: ws')) with (w ++ space :: join [space] (w' :: ws')).
  intros Hi Hs. apply in_app_or in Hi as [Hi|[Hi|Hi]]; auto.
Qed.

Lemma join_head (ws : list str) :
  Forall word ws -> ws <> [] ->
  exists c t, join [space] ws = c :: t /\ isspace c = false.
Proof.
  intros H Hne. destruct H as [|w ws [Hw1 Hw2] Hws]; [congruence|].
  destruct w as [|c w]; [congruence|].
  cbn in Hw2. apply andb_prop in Hw2 as [Hc _]. apply negb_true_iff in Hc.
  destruct ws; cbn; eauto.
Qed.

Lemma join_last (ws : list str) :
  Forall word ws -> ws <> [] ->
  exists t c, join [space] ws = t ++ [c] /\ isspace c = false.
Proof.
  induction 1 as [|w ws [Hne Hw] Hws IH]; [congruence|]. intros _.
  destruct ws as [|w' ws'].
  - cbn. destruct (exists_last Hne) as (t & c & ->).
    exists t, c. split; [reflexivity|].
    rewrite forallb_app in Hw. apply andb_prop in Hw as [_ Hc]. cbn in Hc.
    rewrite andb_true_r in Hc. now apply negb_true_iff in Hc.
  - destruct IH as (t & c & E & Hc); [discriminate|].
    change (join [space] (w :: w' :: ws')) with (w ++ space :: join [space] (w' :: ws')).
    rewrite E. exists (w ++ space :: t), c. split; [|exact Hc].
    now rewrite <- app_assoc.
Qed.

Lemma lstrip_nonspace (c : ascii) (t : str) : isspace c = false -> lstrip (c :: t) = c :: t.
Proof. intro H. cbn. now rewrite H. Qed.

Lemma strip_join (ws : list str) : Forall word ws -> strip (join [space] ws) = join [space] ws.
Proof.
  intro H. destruct ws as [|w ws]; [reflexivity|].
  destruct (join_head _ H) as (c & t & E & Hc); [discriminate|].
  destruct (join_last _ H) as (t' & c' & E' & Hc'); [discriminate|].
  unfold strip, rstrip. rewrite E, lstrip_nonspace by assumption. rewrite <- E, E'.
  rewrite rev_app_distr. cbn [rev app]. rewrite lstrip_nonspace by assumption.
  change (c' :: rev t') with ([c'] ++ rev t').
  now rewrite rev_app_distr, rev_involutive.
Qed.

Lemma no_ws_run_join (ws : list str) : Forall word ws -> no_ws_run (join [space] ws) = true.
Proof.
  induction 1 as [|w ws Hw Hws IH]; [reflexivity|].
  assert (Hword : forall (r : str), no_ws_run r = true ->
            (forall c t, r = c :: t -> isspace c = false) ->
            forall w0, forallb (fun c => negb (isspace c)) w0 = true ->
            no_ws_run (w0 ++ r) = true /\
            (forall c t, w0 ++ r = c :: t -> isspace c = false)).
  { intros r Hr Hh w0. induction w0 as [|c w0 IHw]; intro Hw0; [now split|].
    cbn in Hw0. apply andb_prop in Hw0 as [Hc Hw0]. apply negb_true_iff in Hc.
    destruct (IHw Hw0) as [I1 I2]. split.
    - cbn [app no_ws_run]. destruct (w0 ++ r) eqn:E; [reflexivity|].
      now rewrite Hc, I1.
    - intros c0 t0 E. now injection E as <- _. }
  destruct Hw as [Hne Hw].
  destruct ws as [|w' ws'].
  - cbn [join]. rewrite <- (app_nil_r w). apply Hword; [reflexivity|discriminate|exact Hw].
  - change (join [space] (w :: w' :: ws')) with (w ++ space :: join [space] (w' :: ws')).
    destruct (join_head (w' :: ws') Hws) as (c & t & E & Hc); [discriminate|].
    destruct w as [|a w] using rev_ind; [congruence|].
    rewrite forallb_app in Hw. apply andb_prop in Hw as [Hw Ha]. cbn in Ha.
    rewrite andb_true_r in Ha. apply negb_true_iff in Ha.
    rewrite <- app_assoc. cbn [app].
    apply Hword; [|now intros ? ? [= <- _]|exact Hw].
    cbn [no_ws_run]. rewrite Ha. cbn [andb negb]. rewrite E in *.
    rewrite Hc, andb_false_r. exact IH.
Qed.

Lemma cleanText_join_split (s : str) : cleanText s = join [space] (split s).
Proof.
  unfold cleanText.
  change (list_ascii_of_string (String "010" "")) with [newline].
  change (list_ascii_of_string " ") with [space].
  rewrite split_replace_newline. apply strip_join, split_words.
Qed.

End CleanText.

(** C7. [cleanText] is idempotent; its result keeps the words of the input
    (so only whitespace changes), has no whitespace character other than the
    single space (so no newline), has no two whitespace characters in a row,
    and is unchanged by stripping. *)
Theorem cleanText_idempotent (s : str) :
  cleanText (cleanText s) = cleanText s
  /\ Py.split (cleanText s) = Py.split s
  /\ (forall c, In c (cleanText s) -> Py.isspace c = true -> c = space)
  /\ no_ws_run (cleanText s) = true
  /\ Py.strip (cleanText s) = cleanText s.
Proof.
  pose proof (split_words s) as Hw.
  rewrite !cleanText_join_split.
  rewrite (split_join _ Hw).
  repeat split.
  - intros c. now apply join_chars.
  - now apply no_ws_run_join.
  - now apply strip_join.
Qed.


(** ** The matcher on the server's patterns *)

Section Spans.

Variable p : ascii -> bool.

Lemma take_drop (s : str) : take_while p s ++ drop_while p s = s.
Proof.
  induction s as [|c t IH]; [reflexivity|].
  cbn. destruct (p c); cbn; [now rewrite IH | reflexivity].
Qed.

Lemma take_while_all (s : str) : forallb p (take_while p s) = true.
Proof.
  induction s as [|c t IH]; [reflexivity|].
  cbn. destruct (p c) eqn:E; cbn; [now rewrite E | reflexivity].
Qed.

Lemma drop_while_head (s : str) : not_headed p (drop_while p s).
Proof.
  induction s as [|c t IH]; [intros ? ? [=]|].
  cbn. destruct (p c) eqn:E; [exact IH|].
  now intros ? ? [= <- _].
Qed.

Lemma take_while_app (d r : str) :
  forallb p d = true -> not_headed p r -> take_while p (d ++ r) = d.
Proof.
  intros Hd Hr. induction d as [|c d IH].
  - destruct r as [|c t]; [reflexivity|]. cbn. now rewrite (Hr c t eq_refl).
  - cbn in *. apply andb_prop in Hd as [Hc Hd]. now rewrite Hc, IH.
Qed.

Lemma drop_while_app (d r : str) :
  forallb p d = true -> not_headed p r -> drop_while p (d ++ r) = r.
Proof.
  intros Hd Hr. induction d as [|c d IH].
  - destruct r as [|c t]; [reflexivity|]. cbn. now rewrite (Hr c t eq_refl).
  - cbn in *. apply andb_prop in Hd as [Hc Hd]. now rewrite Hc, IH.
Qed.

Lemma drop_while_length (s : str) : (List.length (drop_while p s) <= List.length s)%nat.
Proof.
  induction s as [|c t IH]; [reflexivity|].
  cbn. destruct (p c); cbn; lia.
Qed.

End Spans.

Section Engine.

Context {R : Type}.
Variable n0 : nat.

(** A greedy repetition hands the continuation the rest after the longest
    run, provided the continuation accepts it or cannot start inside a run. *)
Lemma star_longest (p : ascii -> bool) (s : str) (k : str -> option R) :
  k (drop_while p s) <> None \/ (forall c t, p c = true -> k (c :: t) = None) ->
  Re.star p s k = k (drop_while p s).
Proof.
  intro H. induction s as [|c t IH]; [reflexivity|].
  cbn in *. destruct (p c) eqn:E; [|reflexivity].
  rewrite IH by assumption.
  destruct (k (drop_while p t)) eqn:Ek; [reflexivity|].
  destruct H as [H|H]; [congruence|]. now apply H.
Qed.

Lemma run_lit (l s : str) (cap : option str) (k : str -> option str -> option R) :
  Re.run n0 (Re.lit l) s cap k =
  if Py.startswith s l then k (skipn (List.length l) s) cap else None.
Proof.
  revert s. induction l as [|a l IH]; intro s; [reflexivity|].
  destruct s as [|x t]; [reflexivity|].
  cbn [Re.lit Re.run Py.startswith List.length skipn].
  rewrite (Ascii.eqb_sym a x). destruct (Ascii.eqb x a); [apply IH | reflexivity].
Qed.

End Engine.

Lemma startswith_iff (s l : str) :
  Py.startswith s l = true <-> exists t, s = l ++ t.
Proof.
  revert s. induction l as [|a l IH]; intro s.
  - split; [eexists; reflexivity | reflexivity].
  - destruct s as [|x t].
    + split; [discriminate | intros [? [=]]].
    + cbn [Py.startswith]. rewrite andb_true_iff, Ascii.eqb_eq, IH. split.
      * intros [-> [t' ->]]. now exists t'.
      * intros [t' [= -> ->]]. split; [reflexivity | now exists t'].
Qed.

Lemma skipn_prefix (l t : str) : skipn (List.length l) (l ++ t) = t.
Proof. induction l; [reflexivity | assumption]. Qed.

Lemma firstn_prefix (l t : str) :
  firstn (List.length (l ++ t) - List.length t) (l ++ t) = l.
Proof.
  rewrite length_app. replace (List.length l + List.length t - List.length t)%nat
    with (List.length l) by lia.
  induction l; cbn; [now destruct t | congruence].
Qed.

Lemma digit_not_dot (c : ascii) : Py.isdecimal c = true -> Ascii.eqb c Pat.dot_char = false.
Proof.
  intro H. destruct (Ascii.eqb c Pat.dot_char) eqn:E; [|reflexivity].
  apply Ascii.eqb_eq in E. subst. discriminate.
Qed.

Lemma digit_not_newline (c : ascii) : Py.isdecimal c = true -> Ascii.eqb c newline = false.
Proof.
  intro H. destruct (Ascii.eqb c newline) eqn:E; [|reflexivity].
  apply Ascii.eqb_eq in E. subst. discriminate.
Qed.

(** [scan_number] reads exactly the identifiers. *)
Lemma scan_number_spec (s id rest : str) :
  scan_number s = Some (id, rest) <->
  s = id ++ rest /\ identifier id /\ not_headed Py.isdecimal rest.
Proof.
  unfold scan_number. cbv zeta. split.
  - pose proof (take_drop Py.isdecimal s) as Hs.
    pose proof (take_while_all Py.isdecimal s) as Hd1.
    pose proof (drop_while_head Py.isdecimal s) as Hh1.
    destruct (take_while Py.isdecimal s) as [|a d1] eqn:E1; [discriminate|].
    destruct (drop_while Py.isdecimal s) as [|c r] eqn:E2; [discriminate|].
    destruct (Ascii.eqb c Pat.dot_char) eqn:Ec; [|discriminate].
    apply Ascii.eqb_eq in Ec. subst c.
    pose proof (take_drop Py.isdecimal r) as Hr.
    pose proof (take_while_all Py.isdecimal r) as Hd2.
    pose proof (drop_while_head Py.isdecimal r) as Hh2.
    destruct (take_while Py.isdecimal r) as [|b d2] eqn:E3; [discriminate|].
    remember (drop_while Py.isdecimal r) as rest' eqn:E4.
    intros [= <- <-]. split; [|split].
    + rewrite <- Hs, <- Hr. cbn [app]. now rewrite <- app_assoc.
    + exists (a :: d1), (b :: d2). repeat split; (discriminate || assumption).
    + assumption.
  - intros (-> & (d1 & d2 & [Hn1 Hd1] & [Hn2 Hd2] & ->) & Hrest).
    assert (Hdot : not_headed Py.isdecimal (Pat.dot_char :: d2 ++ rest))
      by now intros ? ? [= <- _].
    rewrite <- !app_assoc. cbn [app].
    rewrite take_while_app, drop_while_app by assumption.
    destruct d1 as [|a d1]; [congruence|].
    rewrite Ascii.eqb_refl.
    rewrite take_while_app, drop_while_app by assumption.
    destruct d2 as [|b d2]; [congruence|]. reflexivity.
Qed.

Section NumberPattern.

Context {R : Type}.
Variable n0 : nat.

(** [\d+\.\d+] followed by a continuation that takes the longest second
    run: the matcher reads what [scan_number] reads. *)
Lemma run_number (s : str) (cap : option str) (k : str -> option str -> option R) :
  (forall t, Re.star Py.isdecimal t (fun t' => k t' cap) = k (drop_while Py.isdecimal t) cap) ->
  Re.run n0 Pat.number_dot_number s cap k =
  match scan_number s with
  | Some (_, rest) => k rest cap
  | None => None
  end.
Proof.
  intro Hk. unfold scan_number. cbv zeta.
  destruct s as [|x t]; [reflexivity|].
  cbn [Pat.number_dot_number Re.seqs Re.run take_while drop_while].
  destruct (Py.isdecimal x) eqn:Ex; [|reflexivity].
  rewrite star_longest.
  2:{ right. intros c t' Hc. now rewrite (digit_not_dot c Hc). }
  destruct (drop_while Py.isdecimal t) as [|c r]; [reflexivity|].
  destruct (Ascii.eqb c Pat.dot_char); [|reflexivity].
  destruct r as [|y r']; [reflexivity|].
  cbn [take_while drop_while].
  destruct (Py.isdecimal y) eqn:Ey; [|reflexivity].
  apply Hk.
Qed.

End NumberPattern.


(** The two URL patterns at one position. *)
Lemma match_at_url (prefix : str) (n0 : nat) (s : str) :
  Re.match_at (Re.Seq (Re.lit prefix) (Re.Grp Pat.number_dot_number)) n0 s =
  if Py.startswith s prefix
  then match scan_number (skipn (List.length prefix) s) with
       | Some (id, rest) => Some (rest, Some id)
       | None => None
       end
  else None.
Proof.
  unfold Re.match_at. cbn [Re.run]. rewrite run_lit.
  destruct (Py.startswith s prefix); [|reflexivity].
  set (s' := skipn (List.length prefix) s).
  cbn [Re.run]. rewrite run_number.
  - destruct (scan_number s') as [[id rest]|] eqn:E; [|reflexivity].
    apply scan_number_spec in E as (E & _ & _).
    now rewrite E, firstn_prefix.
  - intro t. apply star_longest. left. discriminate.
Qed.

(** The bare pattern at one position. *)
Lemma match_at_bare (n0 : nat) (s : str) :
  Re.match_at Pat.bare_id n0 s =
  if Nat.eqb (List.length s) n0
  then match scan_number s with
       | Some (id, rest) => if Re.at_eol rest then Some (rest, Some id) else None
       | None => None
       end
  else None.
Proof.
  unfold Re.match_at. cbn [Pat.bare_id Re.seqs Re.run].
  destruct (Nat.eqb (List.length s) n0); [|reflexivity].
  rewrite run_number.
  - destruct (scan_number s) as [[id rest]|] eqn:E; [|reflexivity].
    apply scan_number_spec in E as (E & _ & _).
    now rewrite E, firstn_prefix.
  - intro t. apply star_longest. right. intros c t' Hc.
    cbn [Re.at_eol]. destruct t'; [|reflexivity].
    fold newline. now rewrite (digit_not_newline c Hc).
Qed.

(** [re.search] finds the leftmost position with a match. *)
Lemma search_from_some (r : Re.regex) (n0 : nat) (s : str) (m : str * option str) :
  Re.search_from r n0 s = Some m ->
  exists pre s',
    s = pre ++ s' /\ Re.match_at r n0 s' = Some m /\
    forall pre' s'', s = pre' ++ s'' -> (List.length pre' < List.length pre)%nat ->
                     Re.match_at r n0 s'' = None.
Proof.
  induction s as [|c t IH]; cbn [Re.search_from].
  - destruct (Re.match_at r n0 []) eqn:E; [|discriminate].
    intros [= <-]. exists [], []. repeat split; [assumption|]. cbn. lia.
  - destruct (Re.match_at r n0 (c :: t)) eqn:E.
    + intros [= <-]. exists [], (c :: t). repeat split; [assumption|]. cbn. lia.
    + intro H. destruct (IH H) as (pre & s' & -> & Hm & Hleft).
      exists (c :: pre), s'. repeat split; [assumption|].
      intros pre' s'' Es Hlen. destruct pre' as [|c' pre'].
      * cbn in Es. now rewrite <- Es.
      * injection Es as <- Es. apply (Hleft pre' s'' Es). cbn in Hlen. lia.
Qed.

Lemma search_from_none (r : Re.regex) (n0 : nat) (s : str) :
  Re.search_from r n0 s = None ->
  forall pre s', s = pre ++ s' -> Re.match_at r n0 s' = None.
Proof.
  induction s as [|c t IH]; cbn [Re.search_from].
  - destruct (Re.match_at r n0 []) eqn:E; [discriminate|].
    intros _ pre s' Es. symmetry in Es. apply app_eq_nil in Es as [_ ->]. exact E.
  - destruct (Re.match_at r n0 (c :: t)) eqn:E; [discriminate|].
    intros H pre s' Es. destruct pre as [|c' pre].
    + cbn in Es. now rewrite <- Es.
    + injection Es as <- Es. now apply (IH H pre).
Qed.

(** An occurrence is a match of the URL pattern at that position. *)
Lemma occurs_at_match (prefix url pre id : str) (n0 : nat) :
  occurs_at prefix url pre id <->
  exists s' rest,
    url = pre ++ s' /\
    Re.match_at (Re.Seq (Re.lit prefix) (Re.Grp Pat.number_dot_number)) n0 s'
    = Some (rest, Some id).
Proof.
  split.
  - intros (post & -> & Hid & Hpost).
    exists (prefix ++ id ++ post), post. split; [reflexivity|].
    rewrite match_at_url.
    replace (Py.startswith (prefix ++ id ++ post) prefix) with true
      by (symmetry; apply startswith_iff; eauto).
    rewrite skipn_prefix.
    replace (scan_number (id ++ post)) with (Some (id, post)); [reflexivity|].
    symmetry. now apply scan_number_spec.
  - intros (s' & rest & -> & Hm). rewrite match_at_url in Hm.
    destruct (Py.startswith s' prefix) eqn:Ep; [|discriminate].
    apply startswith_iff in Ep as [t ->]. rewrite skipn_prefix in Hm.
    destruct (scan_number t) as [[id' rest']|] eqn:E; [|discriminate].
    injection Hm as <- <-.
    apply scan_number_spec in E as (-> & Hid & Hrest).
    now exists rest'.
Qed.

Lemma search_url (prefix url : str) :
  match Re.search (Re.Seq (Re.lit prefix) (Re.Grp Pat.number_dot_number)) url with
  | Some m => first_occurrence prefix url (Re.group1 m)
  | None => ~ has_occurrence prefix url
  end.
Proof.
  unfold Re.search.
  set (r := Re.Seq (Re.lit prefix) (Re.Grp Pat.number_dot_number)).
  set (n0 := List.length url).
  destruct (Re.search_from r n0 url) as [m|] eqn:E.
  - apply search_from_some in E as (pre & s' & Eu & Hm & Hleft).
    assert (Hocc : occurs_at prefix url pre (Re.group1 m)).
    { apply (occurs_at_match _ _ _ _ n0). fold r.
      pose proof Hm as Hm'. unfold r in Hm'. rewrite match_at_url in Hm'.
      destruct (Py.startswith s' prefix); [|discriminate].
      destruct (scan_number _) as [[id rest]|]; [|discriminate].
      injection Hm' as <-. now exists s', rest. }
    exists pre. split; [exact Hocc|].
    intros pre' id' Hocc'. apply (occurs_at_match _ _ _ _ n0) in Hocc'.
    destruct Hocc' as (s'' & rest'' & Eu' & Hm'').
    destruct (Nat.le_gt_cases (List.length pre) (List.length pre')) as [|Hlt]; [assumption|].
    fold r in Hm''. rewrite (Hleft pre' s'' Eu' Hlt) in Hm''. discriminate.
  - intros (pre & id & Hocc). apply (occurs_at_match _ _ _ _ n0) in Hocc.
    destruct Hocc as (s' & rest & Eu & Hm). fold r in Hm.
    rewrite (search_from_none _ _ _ E pre s' Eu) in Hm. discriminate.
Qed.

Lemma at_eol_iff (s : str) : Re.at_eol s = true <-> s = [] \/ s = [newline].
Proof.
  destruct s as [|c [|d t]]; cbn.
  - intuition.
  - fold newline. rewrite Ascii.eqb_eq. split.
    + intros ->. now right.
    + intros [[=]|[= ->]]. reflexivity.
  - split; [discriminate | intros [[=]|[=]]].
Qed.

Lemma bare_scan (url id : str) :
  bare url id -> exists rest, scan_number url = Some (id, rest) /\ Re.at_eol rest = true.
Proof.
  intros [Hid [Hu|Hu]]; [exists [] | exists [newline]];
    (split; [apply scan_number_spec | reflexivity]).
  - repeat split; [now rewrite app_nil_r | assumption | intros ? ? [=]].
  - repeat split; [assumption | assumption | now intros ? ? [= <- _]].
Qed.

Lemma search_bare (url : str) :
  match Re.search Pat.bare_id url with
  | Some m => bare url (Re.group1 m)
  | None => forall id, ~ bare url id
  end.
Proof.
  unfold Re.search. destruct url as [|c t].
  - cbn. intros id Hb. apply bare_scan in Hb as (rest & E & _). discriminate.
  - cbn [Re.search_from]. rewrite match_at_bare, Nat.eqb_refl.
    assert (Hnone : Re.search_from Pat.bare_id (List.length (c :: t)) t = None).
    { assert (G : forall s, (List.length s < List.length (c :: t))%nat ->
                 Re.search_from Pat.bare_id (List.length (c :: t)) s = None).
      { induction s as [|x s IH]; intro Hl; cbn [Re.search_from];
          rewrite match_at_bare;
          (replace (Nat.eqb _ _) with false by (symmetry; apply Nat.eqb_neq; lia)).
        - reflexivity.
        - apply IH. cbn in Hl |- *. lia. }
      apply G. cbn. lia. }
    destruct (scan_number (c :: t)) as [[id rest]|] eqn:E.
    + destruct (Re.at_eol rest) eqn:Ee.
      * apply scan_number_spec in E as (Eu & Hid & Hrest).
        apply at_eol_iff in Ee. cbn [Re.group1 snd]. split; [assumption|].
        destruct Ee as [->| ->]; rewrite Eu; [left; now rewrite app_nil_r | now right].
      * rewrite Hnone. intros id' Hb. apply bare_scan in Hb as (rest' & E' & Ee').
        congruence.
    + rewrite Hnone. intros id' Hb. apply bare_scan in Hb as (rest' & E' & _).
      congruence.
Qed.


(** ** Identifier extraction *)

Lemma extractPaperId_meets_spec (url : str) : extract_spec url (extractPaperId url).
Proof.
  unfold extractPaperId, extractPaperId_patterns. cbn [extractPaperId_loop].
  pose proof (search_url abs_prefix url) as Habs.
  pose proof (search_url pdf_prefix url) as Hpdf.
  pose proof (search_bare url) as Hbare.
  change (Re.Seq (Re.lit abs_prefix) (Re.Grp Pat.number_dot_number)) with Pat.abs_url in Habs.
  change (Re.Seq (Re.lit pdf_prefix) (Re.Grp Pat.number_dot_number)) with Pat.pdf_url in Hpdf.
  destruct (Re.search Pat.abs_url url); [now apply from_abs|].
  destruct (Re.search Pat.pdf_url url); [now apply from_pdf|].
  destruct (Re.search Pat.bare_id url); [now apply from_bare | now apply not_found].
Qed.

Lemma same_length_prefix (a b x y : str) :
  a ++ x = b ++ y -> List.length a = List.length b -> a = b /\ x = y.
Proof.
  revert b. induction a as [|c a IH]; intros [|d b] E L; try discriminate.
  - now split.
  - injection E as -> E. injection L as L. destruct (IH b E L) as [-> ->]. now split.
Qed.

Lemma first_occurrence_unique (prefix url id id' : str) :
  first_occurrence prefix url id -> first_occurrence prefix url id' -> id = id'.
Proof.
  intros (pre & Ho & Hmin) (pre' & Ho' & Hmin').
  pose proof (Hmin _ _ Ho') as L1. pose proof (Hmin' _ _ Ho) as L2.
  destruct Ho as (post & E & Hid & Hpost). destruct Ho' as (post' & E' & Hid' & Hpost').
  rewrite E in E'. apply same_length_prefix in E' as [_ E']; [|lia].
  apply app_inv_head in E'.
  assert (S1 : scan_number (id ++ post) = Some (id, post)) by now apply scan_number_spec.
  assert (S2 : scan_number (id' ++ post') = Some (id', post')) by now apply scan_number_spec.
  rewrite E' in S1. congruence.
Qed.

Lemma first_occurrence_has (prefix url id : str) :
  first_occurrence prefix url id -> has_occurrence prefix url.
Proof. intros (pre & Ho & _). now exists pre, id. Qed.

Lemma bare_unique (url id id' : str) : bare url id -> bare url id' -> id = id'.
Proof.
  intros H H'. apply bare_scan in H as (r & E & _). apply bare_scan in H' as (r' & E' & _).
  congruence.
Qed.

Lemma extract_spec_functional (url : str) (r r' : option str) :
  extract_spec url r -> extract_spec url r' -> r = r'.
Proof.
  intros H H'.
  destruct H as [id Ha|id Hna Hp|id Hna Hnp Hb|Hna Hnp Hnb];
    destruct H' as [id' Ha'|id' Hna' Hp'|id' Hna' Hnp' Hb'|Hna' Hnp' Hnb'];
    try reflexivity;
    try (f_equal; eauto using first_occurrence_unique, bare_unique);
    exfalso;
    repeat match goal with
           | H : first_occurrence _ _ _ |- _ => apply first_occurrence_has in H
           end;
    try contradiction.
  - exact (Hnb' _ Hb).
  - exact (Hnb _ Hb').
Qed.

Lemma extractPaperId_complete (url : str) (r : option str) :
  extract_spec url r -> extractPaperId url = r.
Proof.
  intro H. exact (extract_spec_functional url _ _ (extractPaperId_meets_spec url) H).
Qed.

(** C1. [extractPaperId] returns exactly what the contract asks: the
    identifier of the leftmost abstract-page URL if the string has one;
    otherwise that of the leftmost PDF-page URL if it has one; otherwise the
    whole string if it is a bare identifier (one final newline is allowed by
    [$]); and [None] for every other string. *)
Theorem extractPaperId_spec (url : str) (r : option str) :
  extractPaperId url = r <-> extract_spec url r.
Proof.
  split.
  - intros <-. apply extractPaperId_meets_spec.
  - apply extractPaperId_complete.
Qed.

Example extractPaperId_abs_url :
  extractPaperId "https://arxiv.org/abs/2301.00001v2" = Some ("2301.00001" : str).
Proof. reflexivity. Qed.

Example extractPaperId_pdf_url :
  extractPaperId "https://arxiv.org/pdf/2301.00001.pdf" = Some ("2301.00001" : str).
Proof. reflexivity. Qed.

Example extractPaperId_bare :
  extractPaperId "2301.00001" = Some ("2301.00001" : str).
Proof. reflexivity. Qed.

Example extractPaperId_order :
  extractPaperId "arxiv.org/pdf/1.2 arxiv.org/abs/3.4" = Some ("3.4" : str).
Proof. reflexivity. Qed.

Example extractPaperId_none :
  extractPaperId "see 2301.00001" = None.
Proof. reflexivity. Qed.


(** ** A bare identifier and its abstract-page URL *)

Lemma identifier_chars (id : str) (c : ascii) :
  identifier id -> In c id -> Py.isdecimal c = true \/ c = Pat.dot_char.
Proof.
  intros (d1 & d2 & [_ H1] & [_ H2] & ->) Hin.
  rewrite forallb_forall in H1, H2.
  apply in_app_or in Hin as [Hin|[Hin|Hin]]; auto.
Qed.

Lemma identifier_nonempty (id : str) : identifier id -> exists c t, id = c :: t.
Proof.
  intros (d1 & d2 & [Hn _] & _ & ->). destruct d1 as [|c d1]; [congruence|].
  now exists c, (d1 ++ Pat.dot_char :: d2).
Qed.

Lemma identifier_no_url (prefix id : str) :
  In "a"%char prefix -> identifier id -> ~ has_occurrence prefix id.
Proof.
  intros Ha Hid (pre & id' & post & E & _).
  destruct (identifier_chars id "a"%char Hid) as [H|H]; try discriminate.
  rewrite E. apply in_or_app. right. apply in_or_app. now left.
Qed.

Lemma extractPaperId_of_identifier (id : str) :
  identifier id -> extractPaperId id = Some id.
Proof.
  intro Hid. apply extractPaperId_complete. apply from_bare.
  - apply identifier_no_url; [cbn; tauto | assumption].
  - apply identifier_no_url; [cbn; tauto | assumption].
  - split; [assumption | now left].
Qed.

Lemma extractPaperId_of_abs_page (id : str) :
  identifier id -> extractPaperId (abs_page ++ id) = Some id.
Proof.
  intro Hid. apply extractPaperId_complete. apply from_abs.
  exists ("https://" : str). split.
  - exists []. repeat split; [rewrite app_nil_r; reflexivity | assumption | intros ? ? [=]].
  - intros pre' id' (post' & E & _).
    do 8 (destruct pre' as [|? pre']; [cbn in E; discriminate E | cbn in E; injection E as <- E]).
    cbn. lia.
Qed.

(** C9. For every identifier [id], [getPaper id] and
    [getPaper ("https://arxiv.org/abs/" ++ id)] resolve the same identifier
    [id] and are the same call: one GET of the abstract page of [id],
    continued in the same way. *)
Theorem getPaper_id_or_url (BeautifulSoup : str -> list Soup.node) (id : str) :
  identifier id ->
  extractPaperId id = Some id
  /\ extractPaperId (abs_page ++ id) = Some id
  /\ getPaper BeautifulSoup id = getPaper BeautifulSoup (abs_page ++ id)
  /\ exists k, getPaper BeautifulSoup id
               = HttpGet (mkRequest (URL_BASE ++ "/abs/" ++ id) TIMEOUT true) k.
Proof.
  intro Hid.
  pose proof (extractPaperId_of_identifier id Hid) as E1.
  pose proof (extractPaperId_of_abs_page id Hid) as E2.
  destruct (identifier_nonempty id Hid) as (c & t & Eid).
  repeat split; try assumption.
  - unfold getPaper. rewrite E1, E2, Eid. reflexivity.
  - unfold getPaper. rewrite E1, Eid. eexists. reflexivity.
Qed.

Lemma getPaper_id_or_url_witness :
  identifier "2301.00001"
  /\ getPaper (fun _ => []) "2301.00001"
     = getPaper (fun _ => []) "https://arxiv.org/abs/2301.00001".
Proof.
  assert (H : identifier "2301.00001").
  { exists ("2301" : str), ("00001" : str).
    repeat split; (discriminate || reflexivity). }
  split; [exact H|].
  exact (proj1 (proj2 (proj2 (getPaper_id_or_url (fun _ => []) "2301.00001" H)))).
Defined.


(** ** The adapters: validation, clamping, offsets *)

Lemma advanced_parts_empty (title abstract author category id_arxiv : option str) :
  no_filter title abstract author category id_arxiv = true ->
  advanced_parts title abstract author category id_arxiv = [].
Proof.
  unfold no_filter.
  destruct title as [[|? ?]|], abstract as [[|? ?]|], author as [[|? ?]|],
    category as [[|? ?]|], id_arxiv as [[|? ?]|]; (discriminate || reflexivity).
Qed.

Lemma advanced_parts_nonempty (title abstract author category id_arxiv : option str) :
  no_filter title abstract author category id_arxiv = false ->
  advanced_parts title abstract author category id_arxiv <> [].
Proof.
  unfold no_filter, advanced_parts.
  destruct title as [[|? ?]|], abstract as [[|? ?]|], author as [[|? ?]|],
    category as [[|? ?]|], id_arxiv as [[|? ?]|];
    (discriminate || (intros _ H; apply app_eq_nil in H as [_ H]; discriminate H)
     || (intros _ H; discriminate H)).
Qed.

Lemma requests_lift {A} (net : Request -> result Response) (r : result A) :
  requests net (lift r) = [].
Proof. now destruct r. Qed.

(** C3. When none of the five filter fields is given (whatever the dates
    are), [searchAdvanced] returns the error mapping and issues no request on
    any network; when one is given it issues exactly one GET. *)
Theorem searchAdvanced_requires_field (BeautifulSoup : str -> list Soup.node)
  (title abstract author category id_arxiv date_from date_to : option str)
  (sort_by : str) (page page_size : Z) :
  let call := searchAdvanced BeautifulSoup title abstract author category id_arxiv
                date_from date_to sort_by page page_size in
  if no_filter title abstract author category id_arxiv
  then call = Ret (ErrorDict "At least one search field is required")
       /\ forall net, requests net call = []
  else exists url k,
         call = HttpGet (mkRequest url TIMEOUT false) k
         /\ forall net, requests net call = [mkRequest url TIMEOUT false].
Proof.
  intro call. subst call. unfold searchAdvanced.
  destruct (no_filter title abstract author category id_arxiv) eqn:E.
  - rewrite (advanced_parts_empty _ _ _ _ _ E). now split.
  - pose proof (advanced_parts_nonempty _ _ _ _ _ E) as Hne.
    destruct (advanced_parts title abstract author category id_arxiv) as [|part parts];
      [congruence|].
    eexists. eexists. split; [reflexivity|].
    intro net. cbn [requests]. destruct (net _); [|reflexivity].
    now rewrite requests_lift.
Qed.

Example searchAdvanced_dates_only :
  searchAdvanced (fun _ => []) None None None None None
    (Some ("2023-01-01" : str)) (Some ("2023-12-31" : str)) "relevance" 1 25
  = Ret (ErrorDict "At least one search field is required").
Proof. reflexivity. Qed.





Example search_size_1000 :
  exists k,
    search (fun _ => []) "LLM" None None "relevance" 3 1000
    = HttpGet (mkRequest
        "https://arxiv.org/search/?query=LLM&searchtype=all&abstracts=show&order=&size=50&start=100"
        TIMEOUT false) k.
Proof. eexists. reflexivity. Qed.

Example searchAdvanced_size_1000 :
  exists k,
    searchAdvanced (fun _ => []) (Some ("LLM" : str)) None None None None None None
      "date_desc" 2 1000
    = HttpGet (mkRequest
        ("https://arxiv.org/search/advanced?terms-0-operator=AND&terms-0-term=ti%3ALLM"
         ++ "&terms-0-field=all&classification-physics_archives=all"
         ++ "&classification-include_cross_list=include"
         ++ "&abstracts=show&size=50&start=50&order=-announced_date_first")
        TIMEOUT false) k.
Proof. eexists. reflexivity. Qed.

Example getRecent_count_1000 :
  exists k,
    getRecent (fun _ => []) (fun xs => xs) "cs.AI" 1000
    = HttpGet (mkRequest "https://arxiv.org/list/cs.AI/recent?skip=0&show=50" TIMEOUT true) k.
Proof. eexists. reflexivity. Qed.


(** ** The category list *)

Section StrOrder.

Lemma str_compare_antisym (a b : str) : Py.str_compare b a = CompOpp (Py.str_compare a b).
Proof.
  revert b. induction a as [|x a IH]; intros [|y b]; try reflexivity.
  cbn. rewrite (Ascii.compare_antisym y x).
  destruct (Ascii.compare x y); cbn; [apply IH | reflexivity | reflexivity].
Qed.

Lemma str_compare_eq (a b : str) : Py.str_compare a b = Eq -> a = b.
Proof.
  revert b. induction a as [|x a IH]; intros [|y b]; try discriminate; [reflexivity|].
  cbn. destruct (Ascii.compare x y) eqn:E; try discriminate.
  apply Ascii.compare_eq_iff in E. intro H. now rewrite E, (IH b H).
Qed.

Lemma str_compare_refl (a : str) : Py.str_compare a a = Eq.
Proof.
  induction a as [|x a IH]; [reflexivity|].
  cbn. unfold Ascii.compare. now rewrite N.compare_refl.
Qed.

Lemma ascii_lt_trans (x y z : ascii) :
  Ascii.compare x y = Lt -> Ascii.compare y z = Lt -> Ascii.compare x z = Lt.
Proof. unfold Ascii.compare. rewrite !N.compare_lt_iff. lia. Qed.

Lemma str_lt_trans (a b c : str) :
  Py.str_compare a b = Lt -> Py.str_compare b c = Lt -> Py.str_compare a c = Lt.
Proof.
  revert b c. induction a as [|x a IH]; intros [|y b] [|z c]; try discriminate; try reflexivity.
  cbn.
  destruct (Ascii.compare x y) eqn:Exy; try discriminate;
    destruct (Ascii.compare y z) eqn:Eyz; try discriminate; intros H1 H2.
  - apply Ascii.compare_eq_iff in Exy, Eyz. subst.
    unfold Ascii.compare. rewrite N.compare_refl. now apply (IH b).
  - apply Ascii.compare_eq_iff in Exy. subst. now rewrite Eyz.
  - apply Ascii.compare_eq_iff in Eyz. subst. now rewrite Exy.
  - now rewrite (ascii_lt_trans x y z).
Qed.

(** [x <= y] is what the sort sees as "[y < x] is false". *)
Lemma key_le_iff (x y : Category) : key_le x y <-> key_lt y x = false.
Proof.
  unfold key_le, key_lt, str_le, Py.str_ltb.
  rewrite (str_compare_antisym (group x) (group y)).
  rewrite (str_compare_antisym (code x) (code y)).
  destruct (Py.str_compare (group x) (group y)) eqn:Eg; cbn.
  - apply str_compare_eq in Eg.
    destruct (Py.str_compare (code x) (code y)); cbn; split; intro H;
      try reflexivity; try discriminate.
    + right. split; [assumption | discriminate].
    + right. split; [assumption | discriminate].
    + destruct H as [H|[_ H]]; [discriminate | congruence].
  - split; [reflexivity | now left].
  - split; [|discriminate]. intros [H|[H _]]; [discriminate|].
    rewrite H, str_compare_refl in Eg. discriminate.
Qed.

Lemma key_lt_asym (x y : Category) : key_lt x y = true -> key_lt y x = false.
Proof.
  unfold key_lt, Py.str_ltb.
  rewrite (str_compare_antisym (group x) (group y)).
  rewrite (str_compare_antisym (code x) (code y)).
  destruct (Py.str_compare (group x) (group y)); cbn; try congruence.
  destruct (Py.str_compare (code x) (code y)); cbn; congruence.
Qed.

Lemma key_lt_trans (x y z : Category) :
  key_lt x y = true -> key_lt y z = true -> key_lt x z = true.
Proof.
  unfold key_lt, Py.str_ltb.
  destruct (Py.str_compare (group x) (group y)) eqn:Exy; try discriminate;
    destruct (Py.str_compare (group y) (group z)) eqn:Eyz; try discriminate.
  - apply str_compare_eq in Exy, Eyz. rewrite Exy, Eyz, str_compare_refl.
    destruct (Py.str_compare (code x) (code y)) eqn:Cxy; try discriminate.
    destruct (Py.str_compare (code y) (code z)) eqn:Cyz; try discriminate.
    now rewrite (str_lt_trans _ _ _ Cxy Cyz).
  - apply str_compare_eq in Exy. now rewrite Exy, Eyz.
  - apply str_compare_eq in Eyz. now rewrite <- Eyz, Exy.
  - now rewrite (str_lt_trans _ _ _ Exy Eyz).
Qed.

Lemma key_lt_total (x y : Category) :
  key_lt x y = false -> key_lt y x = false -> group x = group y /\ code x = code y.
Proof.
  unfold key_lt, Py.str_ltb.
  rewrite (str_compare_antisym (group x) (group y)).
  rewrite (str_compare_antisym (code x) (code y)).
  destruct (Py.str_compare (group x) (group y)) eqn:Eg; cbn; try discriminate.
  destruct (Py.str_compare (code x) (code y)) eqn:Ec; cbn; try discriminate.
  intros _ _. split; now apply str_compare_eq.
Qed.

Lemma key_le_trans (x y z : Category) : key_le x y -> key_le y z -> key_le x z.
Proof.
  rewrite !key_le_iff. intros Hyx Hzy.
  destruct (key_lt z x) eqn:Hzx; [exfalso|reflexivity].
  destruct (key_lt y z) eqn:Hyz.
  - rewrite (key_lt_trans y z x Hyz Hzx) in Hyx. discriminate.
  - destruct (key_lt_total y z Hyz Hzy) as [Eg Ec].
    unfold key_lt in Hyx, Hzx. rewrite Eg, Ec in Hyx. congruence.
Qed.

End StrOrder.

Section Sorting.

Context {A : Type}.
Variable lt : A -> A -> bool.

Lemma insert_sorted_perm (x : A) (l : list A) : Permutation (insert_sorted lt x l) (x :: l).
Proof.
  induction l as [|y l IH]; [reflexivity|].
  cbn. destruct (lt y x); [|reflexivity].
  rewrite IH. apply perm_swap.
Qed.

Lemma sorted_perm (l : list A) : Permutation (sorted lt l) l.
Proof.
  induction l as [|x l IH]; [reflexivity|].
  cbn. rewrite insert_sorted_perm. now constructor.
Qed.

Variable le : A -> A -> Prop.
Hypothesis le_of_not_lt : forall x y, lt y x = false -> le x y.
Hypothesis le_of_lt : forall x y, lt x y = true -> le x y.
Hypothesis le_trans : forall x y z, le x y -> le y z -> le x z.

Lemma insert_sorted_sorted (x : A) (l : list A) :
  StronglySorted le l -> StronglySorted le (insert_sorted lt x l).
Proof.
  induction 1 as [|y l Hs IH Hy]; [repeat constructor|].
  cbn. destruct (lt y x) eqn:E.
  - constructor; [exact IH|].
    rewrite (insert_sorted_perm x l). constructor; [now apply le_of_lt | exact Hy].
  - assert (Hxy : le x y) by now apply le_of_not_lt.
    constructor; [now constructor|].
    constructor; [exact Hxy|].
    eapply Forall_impl; [|exact Hy]. intros z Hz. now apply (le_trans x y z).
Qed.

Lemma sorted_sorted (l : list A) : StronglySorted le (sorted lt l).
Proof.
  induction l as [|x l IH]; [constructor|]. now apply insert_sorted_sorted.
Qed.

End Sorting.

Lemma categories_of_sorted (table : dict) : StronglySorted key_le (categories_of table).
Proof.
  apply sorted_sorted.
  - intros x y H. now apply key_le_iff.
  - intros x y H. apply key_le_iff. now apply key_lt_asym.
  - exact key_le_trans.
Qed.

Lemma cache_state_inv (c : option (list Category)) :
  cache_state c -> c = None \/ c = Some (listCategories_body tt).
Proof.
  induction 1 as [|c _ [-> | ->]]; [now left | now right | now right].
Qed.

Lemma category_of_item (item : str * str) :
  (code (category_of item), name (category_of item)) = item.
Proof. now destruct item. Qed.

(** C8. [listCategories] returns one record for each entry of the built-in
    table and no other: the codes with their names are those of the table,
    each record has the group of its code, and the list is sorted by
    [(group, code)], which puts the codes in the order written out below.
    Every call in a process returns that same list.  The group is decided by
    the six prefixes, with ["Physics"] for every other code. *)
Theorem listCategories_sorted :
  let cats := fst (listCategories None) in
  Permutation cats (map category_of ARXIV_CATEGORIES)
  /\ Permutation (map (fun c => (code c, name c)) cats) ARXIV_CATEGORIES
  /\ (forall c, In c cats -> group c = group_of (code c))
  /\ StronglySorted key_le cats
  /\ map code cats
     = ["cs.AI" : str; "cs.CL" : str; "cs.CR" : str; "cs.CV" : str; "cs.DB" : str;
        "cs.DC" : str; "cs.DS" : str; "cs.HC" : str; "cs.IR" : str; "cs.IT" : str;
        "cs.LG" : str; "cs.MA" : str; "cs.NE" : str; "cs.PL" : str; "cs.RO" : str;
        "cs.SE" : str; "eess.AS" : str; "eess.IV" : str; "eess.SP" : str;
        "math.NA" : str; "math.OC" : str; "math.PR" : str; "math.ST" : str;
        "cond-mat" : str; "hep-th" : str; "quant-ph" : str;
        "q-bio.NC" : str; "q-bio.QM" : str; "q-fin.CP" : str; "q-fin.ST" : str;
        "stat.ME" : str; "stat.ML" : str; "stat.TH" : str]
  /\ (forall cache, cache_state cache -> fst (listCategories cache) = cats)
  /\ (forall t, group_of ("cs." ++ t) = ("Computer Science" : str))
  /\ (forall t, group_of ("stat." ++ t) = ("Statistics" : str))
  /\ (forall t, group_of ("math." ++ t) = ("Mathematics" : str))
  /\ (forall t, group_of ("eess." ++ t) = ("Electrical Engineering" : str))
  /\ (forall t, group_of ("q-bio." ++ t) = ("Quantitative Biology" : str))
  /\ (forall t, group_of ("q-fin." ++ t) = ("Quantitative Finance" : str))
  /\ (forall code,
        existsb (Py.startswith code)
          ["cs." : str; "stat." : str; "math." : str; "eess." : str;
           "q-bio." : str; "q-fin." : str] = false ->
        group_of code = ("Physics" : str)).
Proof.
  cbn zeta.
  assert (Hperm : Permutation (fst (listCategories None)) (map category_of ARXIV_CATEGORIES))
    by apply sorted_perm.
  split; [exact Hperm|].
  split.
  { rewrite (Permutation_map (fun c => (code c, name c)) Hperm), map_map.
    rewrite (map_ext _ (fun item => item) category_of_item), map_id. reflexivity. }
  split.
  { intros c Hc. apply (Permutation_in _ Hperm) in Hc.
    apply in_map_iff in Hc as (item & <- & _). reflexivity. }
  split; [apply categories_of_sorted|].
  split; [vm_compute; reflexivity|].
  split.
  { intros cache Hc. destruct (cache_state_inv cache Hc) as [-> | ->]; reflexivity. }
  repeat split; try reflexivity.
  intros code H. cbn [existsb] in H.
  repeat (apply orb_false_elim in H as [?E H]).
  unfold group_of. now rewrite E, E0, E1, E2, E3, E4.
Qed.


(** ** The recent listing *)

Lemma pairs_induction (P : list Soup.Tag -> Prop) :
  P [] ->
  (forall x, P [x]) ->
  (forall x y l, P l -> P (y :: l) -> P (x :: y :: l)) ->
  forall l, P l.
Proof.
  intros H0 H1 H2 l.
  assert (G : P l /\ forall x, P (x :: l)).
  { induction l as [|y l [IH1 IH2]]; [now split|].
    split; [apply IH2|]. intro x. apply H2; [exact IH1 | apply IH2]. }
  exact (proj1 G).
Qed.

Section RecentLoop.

Variable list_of_set : list str -> list str.

Lemma recent_loop_pairs (entries : list Soup.Tag) :
  forall papers,
    recent_loop list_of_set entries papers
    = papers ++ flat_map (fun pair => recent_pair list_of_set (fst pair) (snd pair))
                         (dt_dd_pairs entries).
Proof.
  induction entries as [|x|x y l IHl IHyl] using pairs_induction; intro papers.
  - cbn. now rewrite app_nil_r.
  - cbn. now rewrite app_nil_r.
  - cbn [recent_loop dt_dd_pairs].
    destruct (Py.str_eqb (Soup.name x) "dt" && Py.str_eqb (Soup.name y) "dd").
    + rewrite IHl. cbn [flat_map fst snd]. now rewrite app_assoc.
    + apply IHyl.
Qed.

Lemma recent_pair_length (pair : Soup.Tag * Soup.Tag) :
  List.length (recent_pair list_of_set (fst pair) (snd pair))
  = if pair_identified pair then 1%nat else 0%nat.
Proof.
  unfold recent_pair, pair_identified. now destruct (recent_id (fst pair)).
Qed.

Lemma recent_pair_id (dt dd : Soup.Tag) (p : Paper) :
  In p (recent_pair list_of_set dt dd) ->
  id_arxiv p = recent_id dt /\ id_arxiv p <> []
  /\ url_pdf p = URL_BASE ++ "/pdf/" ++ id_arxiv p ++ ".pdf"
  /\ abstract p = [].
Proof.
  unfold recent_pair. destruct (recent_id dt) as [|c t] eqn:E; [contradiction|].
  intros [<-|[]]. cbn. repeat split. discriminate.
Qed.

Lemma flat_map_length_filter {A B} (f : A -> list B) (b : A -> bool) (l : list A) :
  (forall a, List.length (f a) = if b a then 1%nat else 0%nat) ->
  List.length (flat_map f l) = List.length (filter b l).
Proof.
  intro H. induction l as [|a l IH]; [reflexivity|].
  cbn. rewrite length_app, H, IH. now destruct (b a).
Qed.

End RecentLoop.

Lemma dict_get_absent (d : dict) (key default : str) :
  ~ In key (map fst d) -> dict_get d key default = default.
Proof.
  induction d as [|[k v] d IH]; [reflexivity|].
  cbn. intro H. unfold Py.str_eqb.
  destruct (list_eq_dec ascii_dec k key) as [->|_]; [tauto|].
  apply IH. tauto.
Qed.

Lemma dict_get_present (d : dict) (key default : str) :
  In key (map fst d) -> In (key, dict_get d key default) d.
Proof.
  induction d as [|[k v] d IH]; [contradiction|].
  cbn. unfold Py.str_eqb.
  destruct (list_eq_dec ascii_dec k key) as [->|Hne]; [now left|].
  intros [H|H]; [congruence | right; now apply IH].
Qed.

(** C10. [getRecent] issues one GET; whatever page comes back, the [count]
    it returns is the length of the returned [papers], which are the papers of
    the [dt]/[dd] pairs with an identifier, in page order, so [count] is the
    number of such pairs and not the requested count (on the sample page,
    asked for 2, it is 1); [category_name] is the table's name for the code
    and the code itself when the table has no such code. *)
Theorem getRecent_count (BeautifulSoup : str -> list Soup.node)
  (list_of_set : list str -> list str) (category : str) (count : Z) :
  (exists rq k,
     getRecent BeautifulSoup list_of_set category count = HttpGet rq k
     /\ forall response,
          match k response with
          | Ret r =>
              let pairs := dt_dd_pairs (listing_entries (BeautifulSoup (resp_text response))) in
              recent_count r = Z.of_nat (List.length (recent_papers r))
              /\ recent_papers r
                 = flat_map (fun pair => recent_pair list_of_set (fst pair) (snd pair)) pairs
              /\ List.length (recent_papers r) = List.length (filter pair_identified pairs)
              /\ recent_category r = category
              /\ recent_category_name r = dict_get ARXIV_CATEGORIES category category
          | Throw _ => True
          | HttpGet _ _ => False
          end)
  /\ (In category (map fst ARXIV_CATEGORIES) ->
      In (category, dict_get ARXIV_CATEGORIES category category) ARXIV_CATEGORIES)
  /\ (~ In category (map fst ARXIV_CATEGORIES) ->
      dict_get ARXIV_CATEGORIES category category = category)
  /\ (exists r,
        exec (always_ok []) (getRecent (fun _ => sample_listing) list_of_set "cs.AI" 2) = Ok r
        /\ recent_count r = 1%Z /\ (recent_count r < 2)%Z).
Proof.
  split; [|split; [|split]].
  - unfold getRecent. eexists. eexists. split; [reflexivity|].
    intro response. cbn beta. destruct (raise_for_status response); [|exact I].
    unfold recent_of_page. cbn [recent_count recent_papers recent_category recent_category_name].
    fold (listing_entries (BeautifulSoup (resp_text response))).
    rewrite recent_loop_pairs. cbn [app].
    repeat split.
    apply flat_map_length_filter. apply recent_pair_length.
  - apply dict_get_present.
  - apply dict_get_absent.
  - eexists. split; [reflexivity|]. split; [reflexivity|]. reflexivity.
Qed.


(** ** The search-results extractor *)

Lemma parse_blocks_flat_map (items : list Soup.Tag) :
  forall papers, parse_blocks items papers = papers ++ flat_map block_papers items.
Proof.
  induction items as [|item more IH]; intro papers; cbn [parse_blocks flat_map].
  - now rewrite app_nil_r.
  - unfold block_papers at 1. destruct (parse_block item); rewrite IH.
    + now rewrite <- app_assoc.
    + reflexivity.
Qed.

Lemma parse_block_raises (item : Soup.Tag) :
  (exists e, parse_block item = Raised e) <-> link_without_href item = true.
Proof.
  unfold parse_block, link_without_href.
  destruct (Soup.select_one Sel.list_title_span_a item) as [url_elem|].
  - destruct (Soup.get url_elem "href"); split;
      try (intros [e H]; discriminate); try discriminate; eauto.
  - split; [intros [e H]; discriminate | discriminate].
Qed.

Lemma block_papers_length (item : Soup.Tag) :
  List.length (block_papers item) = if negb (link_without_href item) then 1%nat else 0%nat.
Proof.
  unfold block_papers. destruct (link_without_href item) eqn:E.
  - apply parse_block_raises in E as [e ->]. reflexivity.
  - destruct (parse_block item) eqn:P; [reflexivity|].
    assert (H : link_without_href item = true) by (apply parse_block_raises; eauto).
    congruence.
Qed.

Lemma parse_block_defaults (item : Soup.Tag) :
  lacks_title_and_link item ->
  exists p, parse_block item = Ok p
            /\ title p = ("Unknown Title" : str) /\ id_arxiv p = []
            /\ url_abstract p = [] /\ url_pdf p = [].
Proof.
  intros [Ht Hl]. unfold parse_block. rewrite Ht, Hl.
  eexists. split; [reflexivity|]. cbn. repeat split.
Qed.

Lemma parse_block_pdf (item : Soup.Tag) (p : Paper) :
  parse_block item = Ok p ->
  (id_arxiv p = [] -> url_pdf p = [])
  /\ (id_arxiv p <> [] -> url_pdf p = "https://arxiv.org/pdf/" ++ id_arxiv p ++ ".pdf").
Proof.
  unfold parse_block.
  destruct (match Soup.select_one Sel.list_title_span_a item with
            | Some e => Soup.get e "href"
            | None => Some []
            end) as [url|]; [|discriminate].
  intros [= <-]. cbn [id_arxiv url_pdf].
  destruct (or_empty (extractPaperId url)); split; intro H; (congruence || reflexivity).
Qed.

Lemma parseSearchResults_papers (BeautifulSoup : str -> list Soup.node)
  (html query : str) (page page_size : Z) (r : SearchResult) :
  parseSearchResults BeautifulSoup html query page page_size = Ok r ->
  papers r = flat_map block_papers (result_blocks (BeautifulSoup html))
  /\ header_total (Soup.document (BeautifulSoup html)) = Ok (total_results r).
Proof.
  unfold parseSearchResults.
  destruct (header_total _) as [n|e]; [|discriminate].
  intros [= <-]. cbn [papers total_results]. now rewrite parse_blocks_flat_map.
Qed.

(** C2, as the code has it.  A result block without title element and
    without link does not raise: it yields a paper titled "Unknown Title"
    with empty [id], [url_abstract] and [url_pdf].  The body of a block raises
    exactly when the block has a link anchor without [href]; such blocks are
    left out and all the others, the one without title and link among them,
    are returned in page order.
    [total_results] is the count of the page header, whatever the blocks are.
    On the sample page (three blocks, the second without title and link) the
    extractor returns three papers and the total 1234. *)
Theorem parseSearchResults_blocks (BeautifulSoup : str -> list Soup.node)
  (html query : str) (page page_size : Z) :
  (forall item, lacks_title_and_link item ->
     exists p, parse_block item = Ok p
               /\ title p = ("Unknown Title" : str) /\ id_arxiv p = []
               /\ url_abstract p = [] /\ url_pdf p = [])
  /\ (forall item, (exists e, parse_block item = Raised e) <-> link_without_href item = true)
  /\ match parseSearchResults BeautifulSoup html query page page_size with
     | Ok r =>
         header_total (Soup.document (BeautifulSoup html)) = Ok (total_results r)
         /\ papers r = flat_map block_papers (result_blocks (BeautifulSoup html))
         /\ List.length (papers r)
            = List.length (filter (fun item => negb (link_without_href item))
                                  (result_blocks (BeautifulSoup html)))
         /\ (forall item,
               In item (result_blocks (BeautifulSoup html)) ->
               lacks_title_and_link item ->
               exists p, In p (papers r)
                         /\ title p = ("Unknown Title" : str) /\ id_arxiv p = []
                         /\ url_pdf p = [])
     | Raised e => header_total (Soup.document (BeautifulSoup html)) = Raised e
     end
  /\ (exists r,
        parseSearchResults (fun _ => sample_search_page) html query page page_size = Ok r
        /\ List.length (papers r) = 3%nat /\ total_results r = 1234%Z)
  /\ (exists r,
        parseSearchResults (fun _ => sample_search_page ++ [sample_block_without_href])
          html query page page_size = Ok r
        /\ List.length (result_blocks (sample_search_page ++ [sample_block_without_href])) = 4%nat
        /\ List.length (papers r) = 3%nat /\ total_results r = 1234%Z).
Proof.
  split; [exact parse_block_defaults|].
  split; [exact parse_block_raises|].
  split.
  - destruct (parseSearchResults BeautifulSoup html query page page_size) as [r|e] eqn:E.
    + apply parseSearchResults_papers in E as [Hp Ht].
      split; [exact Ht|]. split; [exact Hp|]. split.
      * rewrite Hp. apply flat_map_length_filter. apply block_papers_length.
      * intros item Hin Hlack.
        destruct (parse_block_defaults item Hlack) as (p & Ep & Htitle & Hid & _ & Hpdf).
        exists p. repeat split; try assumption.
        rewrite Hp. apply in_flat_map. exists item. split; [exact Hin|].
        unfold block_papers. rewrite Ep. now left.
    + unfold parseSearchResults in E.
      destruct (header_total _); [discriminate | congruence].
  - split; (eexists; split; [reflexivity|]); repeat split; reflexivity.
Qed.

(** The sample page refutes C2 as stated: three blocks, the second without
    title element and without link, and three papers come back, not two. *)
Lemma block_without_title_and_link_is_kept :
  exists r item2,
    parseSearchResults (fun _ => sample_search_page) [] "LLM" 1 25 = Ok r
    /\ List.length (result_blocks sample_search_page) = 3%nat
    /\ nth_error (result_blocks sample_search_page) 1 = Some item2
    /\ lacks_title_and_link item2
    /\ List.length (papers r) = 3%nat
    /\ List.length (papers r) <> 2%nat
    /\ option_map title (nth_error (papers r) 1) = Some ("Unknown Title" : str)
    /\ total_results r = 1234%Z.
Proof.
  eexists. eexists. split; [reflexivity|].
  split; [reflexivity|]. split; [reflexivity|].
  split; [split; reflexivity|].
  split; [reflexivity|]. split; [discriminate|]. split; reflexivity.
Qed.


(** ** Papers without identifier *)

Lemma exec_lift {A} (net : Request -> result Response) (r : result A) :
  exec net (lift r) = r.
Proof. now destruct r. Qed.

Lemma block_papers_pdf (item : Soup.Tag) (p : Paper) :
  In p (block_papers item) -> pdf_only_if_identified p.
Proof.
  unfold block_papers. destruct (parse_block item) as [q|] eqn:E; [|contradiction].
  intros [<-|[]]. exact (proj1 (parse_block_pdf item q E)).
Qed.

Lemma search_response_pdf (BeautifulSoup : str -> list Soup.node)
  (full_query : str) (page page_size : Z) (response : Response) (r : SearchResult) :
  search_response BeautifulSoup full_query page page_size response = Ok r ->
  Forall pdf_only_if_identified (papers r).
Proof.
  unfold search_response. destruct (raise_for_status response); [|discriminate].
  intro H. apply parseSearchResults_papers in H as [-> _].
  apply Forall_forall. intros p Hp. apply in_flat_map in Hp as (item & _ & Hp).
  now apply (block_papers_pdf item).
Qed.

(** C5. No extractor produces a paper with an empty [id] and a non-empty
    [url_pdf]: a result block gives the PDF URL only next to an identifier,
    and [getPaper] and [getRecent] only build papers whose identifier is not
    empty. *)
Theorem unidentified_paper_has_no_pdf (BeautifulSoup : str -> list Soup.node)
  (list_of_set : list str -> list str) (net : Request -> result Response) :
  (forall html query page page_size,
     match parseSearchResults BeautifulSoup html query page page_size with
     | Ok r => Forall pdf_only_if_identified (papers r)
     | Raised _ => True
     end)
  /\ (forall query category author sort_by page page_size,
        match exec net (search BeautifulSoup query category author sort_by page page_size) with
        | Ok r => Forall pdf_only_if_identified (papers r)
        | Raised _ => True
        end)
  /\ (forall title abstract author category id_arxiv date_from date_to sort_by page page_size,
        match exec net (searchAdvanced BeautifulSoup title abstract author category id_arxiv
                          date_from date_to sort_by page page_size) with
        | Ok (Dump r) => Forall pdf_only_if_identified (papers r)
        | _ => True
        end)
  /\ (forall id_or_url,
        match exec net (getPaper BeautifulSoup id_or_url) with
        | Ok (Dump p) => id_arxiv p <> [] /\ pdf_only_if_identified p
        | _ => True
        end)
  /\ (forall category count,
        match exec net (getRecent BeautifulSoup list_of_set category count) with
        | Ok r => Forall (fun p => id_arxiv p <> [] /\ pdf_only_if_identified p) (recent_papers r)
        | Raised _ => True
        end).
Proof.
  repeat split.
  - intros html query page page_size.
    destruct (parseSearchResults _ _ _ _ _) as [r|] eqn:E; [|exact I].
    apply parseSearchResults_papers in E as [-> _].
    apply Forall_forall. intros p Hp. apply in_flat_map in Hp as (item & _ & Hp).
    now apply (block_papers_pdf item).
  - intros query category author sort_by page page_size.
    unfold search. cbn [exec]. destruct (net _) as [response|]; [|exact I].
    rewrite exec_lift.
    destruct (search_response _ _ _ _ response) as [r|] eqn:E; [|exact I].
    now apply search_response_pdf in E.
  - intros title abstract author category id_arxiv date_from date_to sort_by page page_size.
    unfold searchAdvanced.
    destruct (advanced_parts _ _ _ _ _); [exact I|].
    cbn [exec]. destruct (net _) as [response|]; [|exact I].
    rewrite exec_lift.
    destruct (search_response _ _ _ _ response) as [r|] eqn:E; [|exact I].
    cbn [result_map]. now apply search_response_pdf in E.
  - intro id_or_url. unfold getPaper.
    destruct (extractPaperId id_or_url) as [[|c t]|]; try exact I.
    cbn [exec]. destruct (net _) as [response|]; [|exact I].
    destruct (raise_for_status response); [|exact I].
    cbn [exec]. unfold paper_of_page, pdf_only_if_identified. cbn [id_arxiv url_pdf].
    split; [discriminate | intro H; discriminate H].
  - intros category count. unfold getRecent.
    cbn [exec]. destruct (net _) as [response|]; [|exact I].
    destruct (raise_for_status response); [|exact I].
    cbn [exec]. unfold recent_of_page. cbn [recent_papers].
    rewrite recent_loop_pairs. cbn [app].
    apply Forall_forall. intros p Hp. apply in_flat_map in Hp as (pair & _ & Hp).
    apply recent_pair_id in Hp as (_ & Hne & _). split; [exact Hne|].
    intro H. contradiction.
Qed.


(** ** Labels around the abstract *)

Lemma drop_while_nil_all (p : ascii -> bool) (s : str) :
  drop_while p s = [] <-> forallb p s = true.
Proof.
  induction s as [|c t IH]; [now split|].
  cbn. destruct (p c); cbn; [exact IH | split; discriminate].
Qed.

Lemma space_not_label_head (c : ascii) (t : str) :
  Py.isspace c = true ->
  Py.startswith (c :: t) less = false /\ Py.startswith (c :: t) more = false.
Proof.
  intro H. split.
  - destruct (Py.startswith (c :: t) less) eqn:E; [|reflexivity].
    apply startswith_iff in E as [t' E]. injection E as -> _. discriminate.
  - destruct (Py.startswith (c :: t) more) eqn:E; [|reflexivity].
    apply startswith_iff in E as [t' E]. injection E as -> _. discriminate.
Qed.

Lemma space_not_newline_end (c : ascii) (t : str) :
  Re.at_eol (c :: t) = true -> Py.isspace c = true /\ t = [].
Proof.
  destruct t; [|discriminate]. cbn. intro H. apply Ascii.eqb_eq in H. now subst.
Qed.

Section ToggleMatch.

Context {R : Type}.

(** Trailing whitespace up to the end of the string. *)
Lemma star_space_eol (t : str) (k : str -> option R) (f : str -> R) :
  (forall t', k t' = if Re.at_eol t' then Some (f t') else None) ->
  Re.star Py.isspace t k
  = match drop_while Py.isspace t with
    | [] => Some (f [])
    | _ :: _ => None
    end.
Proof.
  intro Hk. induction t as [|c t IH]; [apply Hk|].
  cbn [Re.star drop_while]. destruct (Py.isspace c) eqn:Ec.
  - rewrite IH. destruct (drop_while Py.isspace t) eqn:Ed; [reflexivity|].
    rewrite Hk. destruct (Re.at_eol (c :: t)) eqn:Ee; [|reflexivity].
    apply space_not_newline_end in Ee as [_ ->]. discriminate.
  - rewrite Hk. destruct (Re.at_eol (c :: t)) eqn:Ee; [|reflexivity].
    apply space_not_newline_end in Ee as [Hc _]. congruence.
Qed.

End ToggleMatch.

Lemma less_not_more (r : str) : Py.startswith r less = true -> Py.startswith r more = false.
Proof. intro H. apply startswith_iff in H as [t ->]. reflexivity. Qed.

(** The toggle pattern at one position: it matches exactly when [toggle_at]
    holds, and then up to the end of the string. *)
Lemma match_at_toggle (n0 : nat) (s : str) :
  option_map fst (Re.match_at Pat.toggle n0 s) = if toggle_at s then Some [] else None.
Proof.
  unfold Re.match_at, toggle_at. cbn [Pat.toggle Re.seqs Re.run].
  rewrite star_longest.
  2:{ right. intros c t Hc. destruct (space_not_label_head c t Hc) as [EL EM].
      rewrite !run_lit. fold less more. now rewrite EL, EM. }
  set (r := drop_while Py.isspace s).
  rewrite !run_lit. fold less more.
  change (List.length less) with 4%nat. change (List.length more) with 4%nat.
  destruct (Py.startswith r less) eqn:EL.
  - rewrite (less_not_more r EL). cbn [orb andb].
    rewrite (star_space_eol (skipn 4 r) _
               (fun t' => (t', Some (firstn (List.length r - List.length (skipn 4 r)) r))))
      by reflexivity.
    now destruct (drop_while Py.isspace (skipn 4 r)).
  - cbn [orb]. destruct (Py.startswith r more) eqn:EM; [|reflexivity].
    cbn [andb].
    rewrite (star_space_eol (skipn 4 r) _
               (fun t' => (t', Some (firstn (List.length r - List.length (skipn 4 r)) r))))
      by reflexivity.
    now destruct (drop_while Py.isspace (skipn 4 r)).
Qed.

Lemma toggle_at_tail (s : str) : toggle_at s = true <-> toggle_tail s.
Proof.
  unfold toggle_at. split.
  - intro H. apply andb_prop in H as [Hl Hw].
    pose proof (take_drop Py.isspace s) as Es.
    pose proof (take_while_all Py.isspace s) as Hw1.
    set (r := drop_while Py.isspace s) in *.
    assert (Hr : exists l t, toggle_label l /\ r = l ++ t /\ skipn 4 r = t).
    { apply orb_prop in Hl as [Hl|Hl]; apply startswith_iff in Hl as [t Et].
      - exists less, t. rewrite Et. repeat split. now left.
      - exists more, t. rewrite Et. repeat split. now right. }
    destruct Hr as (l & t & Hlab & Er & Et). rewrite Et in Hw.
    exists (take_while Py.isspace s), l, t. rewrite <- Er.
    repeat split; try assumption; [now symmetry|].
    apply drop_while_nil_all. now destruct (drop_while Py.isspace t).
  - intros (w1 & l & w2 & -> & Hw1 & Hl & Hw2).
    assert (Hh : not_headed Py.isspace (l ++ w2))
      by (destruct Hl as [-> | ->]; now intros ? ? [= <- _]).
    rewrite drop_while_app by assumption.
    assert (Hs : skipn 4 (l ++ w2) = w2) by (destruct Hl as [-> | ->]; reflexivity).
    rewrite Hs. apply drop_while_nil_all in Hw2. rewrite Hw2.
    destruct Hl as [-> | ->]; reflexivity.
Qed.

Lemma sub_from_skip_all (r : Re.regex) (repl : str) (n0 : nat) (t : str) :
  Re.sub_from r repl n0 (List.length t) t = Re.sub_from r repl n0 0 [].
Proof. induction t as [|c t IH]; [reflexivity | exact IH]. Qed.

Lemma sub_from_skip (r : Re.regex) (repl : str) (n0 k : nat) (pre rest : str) :
  List.length pre = k ->
  Re.sub_from r repl n0 k (pre ++ rest) = Re.sub_from r repl n0 0 rest.
Proof.
  revert k. induction pre as [|c pre IH]; intros k <-; [reflexivity|].
  cbn [List.length app Re.sub_from]. now apply IH.
Qed.

Lemma sub_from_toggle (n0 : nat) (t : str) :
  toggle_stripped t (Re.sub_from Pat.toggle [] n0 0 t).
Proof.
  induction t as [|c t IH].
  - cbn [Re.sub_from]. pose proof (match_at_toggle n0 []) as H.
    destruct (Re.match_at Pat.toggle n0 []) as [[rest cap]|]; [discriminate H|].
    apply toggle_kept. intros body tail E Ht.
    symmetry in E. apply app_eq_nil in E as [_ ->].
    apply toggle_at_tail in Ht. discriminate.
  - cbn [Re.sub_from]. pose proof (match_at_toggle n0 (c :: t)) as H.
    destruct (toggle_at (c :: t)) eqn:Et.
    + destruct (Re.match_at Pat.toggle n0 (c :: t)) as [[rest cap]|]; [|discriminate H].
      injection H as ->. cbn [List.length Nat.sub app].
      rewrite sub_from_skip_all. cbn [Re.sub_from].
      pose proof (match_at_toggle n0 []) as H0.
      destruct (Re.match_at Pat.toggle n0 []) as [[rest0 cap0]|]; [discriminate H0|].
      apply (toggle_cut [] (c :: t)).
      * now apply toggle_at_tail.
      * intros b x E. destruct b; discriminate.
    + destruct (Re.match_at Pat.toggle n0 (c :: t)) as [[rest cap]|]; [discriminate H|].
      clear H. remember (Re.sub_from Pat.toggle [] n0 0 t) as u eqn:Eu. clear Eu.
      destruct IH as [body tail Htail Hbody | t Hkeep].
      * apply (toggle_cut (c :: body) tail Htail).
        intros b x E. destruct b as [|c' b].
        -- destruct body; [|destruct body; discriminate].
           injection E as <-. destruct (Py.isspace c) eqn:Ec; [|reflexivity].
           assert (Hbad : toggle_tail (c :: tail)).
           { destruct Htail as (w1 & l & w2 & -> & Hw1 & Hl & Hw2).
             exists (c :: w1), l, w2. repeat split; try assumption.
             unfold blank. cbn. now rewrite Ec. }
           apply toggle_at_tail in Hbad. cbn [app] in Et. congruence.
        -- injection E as _ E. now apply (Hbody b x).
      * apply toggle_kept. intros body tail E Htail. destruct body as [|c' body].
        -- cbn in E. subst tail. apply toggle_at_tail in Htail. congruence.
        -- injection E as _ E. now apply (Hkeep body tail).
Qed.

(** The first [re.sub] of the abstract. *)
Lemma sub_toggle_spec (t : str) : toggle_stripped t (Re.sub Pat.toggle [] t).
Proof. apply sub_from_toggle. Qed.


(** The label pattern at one position: only at position 0, and then it
    takes the label and all the whitespace after it. *)
Lemma match_at_label (n0 : nat) (s : str) :
  option_map fst (Re.match_at Pat.abstract_label n0 s)
  = if Nat.eqb (List.length s) n0 && Py.startswith s abstract_colon
    then Some (drop_while Py.isspace (skipn 9 s))
    else None.
Proof.
  unfold Re.match_at. cbn [Pat.abstract_label Re.seqs Re.run].
  destruct (Nat.eqb (List.length s) n0); [|reflexivity].
  rewrite run_lit. fold abstract_colon. change (List.length abstract_colon) with 9%nat.
  destruct (Py.startswith s abstract_colon); [|reflexivity].
  cbn [andb Re.run]. rewrite star_longest by (left; discriminate). reflexivity.
Qed.

Lemma sub_from_label_copy (n0 : nat) (s : str) :
  (List.length s < n0)%nat -> Re.sub_from Pat.abstract_label [] n0 0 s = s.
Proof.
  induction s as [|c t IH]; intro Hl; cbn [Re.sub_from].
  - pose proof (match_at_label n0 []) as H0.
    replace (Nat.eqb (List.length (@nil ascii)) n0) with false in H0
      by (symmetry; apply Nat.eqb_neq; cbn in *; lia).
    now destruct (Re.match_at Pat.abstract_label n0 []) as [[? ?]|].
  - pose proof (match_at_label n0 (c :: t)) as H.
    replace (Nat.eqb (List.length (c :: t)) n0) with false in H
      by (symmetry; apply Nat.eqb_neq; lia).
    destruct (Re.match_at Pat.abstract_label n0 (c :: t)) as [[? ?]|]; [discriminate H|].
    rewrite IH; [reflexivity | cbn in Hl; lia].
Qed.

(** The second [re.sub] of the abstract. *)
Lemma sub_label_spec (t : str) : label_stripped t (Re.sub Pat.abstract_label [] t).
Proof.
  unfold Re.sub. pose proof (match_at_label (List.length t) t) as H.
  rewrite Nat.eqb_refl in H. cbn [andb] in H.
  destruct t as [|c t].
  - cbn [Re.sub_from]. destruct (Re.match_at _ _ _) as [[? ?]|]; [discriminate H|].
    now apply label_kept.
  - remember (List.length (c :: t)) as n0 eqn:En0. cbn [Re.sub_from].
    destruct (Py.startswith (c :: t) abstract_colon) eqn:Es.
    + destruct (Re.match_at _ _ _) as [[rest cap]|]; [|discriminate H].
      cbn [option_map fst] in H.
      assert (Hrest : rest = drop_while Py.isspace (skipn 9 (c :: t))) by congruence.
      clear H. apply startswith_iff in Es as [t' Et]. rewrite Et in Hrest.
      change (skipn 9 (abstract_colon ++ t')) with t' in Hrest.
      assert (Ew : c :: t = (abstract_colon ++ take_while Py.isspace t') ++ rest)
        by now rewrite Et, Hrest, <- app_assoc, take_drop.
      assert (Hpre : exists pre', abstract_colon ++ take_while Py.isspace t' = c :: pre').
      { destruct (abstract_colon ++ take_while Py.isspace t') as [|c' pre'] eqn:E;
          [discriminate E|].
        injection Ew as <- _. now exists pre'. }
      destruct Hpre as (pre' & Epre). rewrite Epre in Ew. injection Ew as Et'.
      assert (Elen : (List.length (c :: t) - List.length rest)%nat = S (List.length pre')).
      { rewrite Et'. cbn [List.length]. rewrite length_app. lia. }
      rewrite Elen. cbn [app].
      rewrite Et'. rewrite sub_from_skip by reflexivity.
      rewrite sub_from_label_copy.
      * rewrite <- Et', Et, Hrest. apply label_cut.
      * rewrite En0, Et'. cbn [List.length]. rewrite length_app. lia.
    + destruct (Re.match_at _ _ _) as [[rest cap]|]; [discriminate H|].
      rewrite sub_from_label_copy by (rewrite En0; cbn; lia).
      now apply label_kept.
Qed.

Lemma replace_absent (old new s : str) :
  Py.contains s old = false -> Py.replace s old new = s.
Proof.
  unfold Py.replace. induction s as [|c t IH]; [reflexivity|].
  intro H. cbn [Py.contains] in H. apply orb_false_elim in H as [Hs Ht].
  cbn [Py.replace_from]. rewrite Hs. now rewrite IH.
Qed.

Lemma replace_abstract_label (body : str) :
  Py.replace (abstract_colon ++ body) abstract_colon [] = Py.replace body abstract_colon [].
Proof. reflexivity. Qed.

Lemma blank_no_letters (w : str) :
  blank w -> filter (fun c => negb (Py.isspace c)) w = [].
Proof.
  unfold blank. induction w as [|c w IH]; [reflexivity|].
  cbn. intro H. apply andb_prop in H as [Hc Hw]. rewrite Hc. cbn. now apply IH.
Qed.

(** A toggle tail has the four letters of its label and nothing else but
    whitespace. *)
Lemma toggle_tail_letters (tail : str) :
  toggle_tail tail -> List.length (filter (fun c => negb (Py.isspace c)) tail) = 4%nat.
Proof.
  intros (w1 & l & w2 & -> & Hw1 & Hl & Hw2).
  rewrite !filter_app, (blank_no_letters w1 Hw1), (blank_no_letters w2 Hw2).
  destruct Hl as [-> | ->]; reflexivity.
Qed.

Lemma toggle_cut_unique (body tail body' l : str) :
  toggle_tail tail -> toggle_tail (l ++ tail) ->
  no_trailing_space body -> body = body' ++ l -> l = [].
Proof.
  intros Ht Ht' Hb Eb.
  destruct l as [|c0 l0 _] using rev_ind; [reflexivity|]. exfalso.
  assert (Hc : Py.isspace c0 = false).
  { apply (Hb (body' ++ l0)). now rewrite Eb, app_assoc. }
  apply toggle_tail_letters in Ht, Ht'.
  rewrite !filter_app, !length_app in Ht'. cbn [filter] in Ht'.
  rewrite Hc in Ht'. cbn in Ht'. lia.
Qed.

Lemma toggle_stripped_functional (t u u' : str) :
  toggle_stripped t u -> toggle_stripped t u' -> u = u'.
Proof.
  intros H H'.
  destruct H as [body tail Ht Hb | t Hkeep].
  - remember (body ++ tail) as t eqn:Et.
    destruct H' as [body' tail' Ht' Hb' | t Hkeep'].
    + apply app_eq_app in Et as [l [[E1 E2]|[E1 E2]]].
      * subst tail. rewrite (toggle_cut_unique body' tail' body l) in E1; try assumption.
        now rewrite app_nil_r in E1.
      * subst tail'. rewrite (toggle_cut_unique body tail body' l) in E1; try assumption.
        now rewrite app_nil_r in E1.
    + exfalso. exact (Hkeep' body tail Et Ht).
  - remember t as t0 eqn:E0 in H'.
    destruct H' as [body' tail' Ht' Hb' | t' Hkeep'].
    + exfalso. subst. exact (Hkeep body' tail' eq_refl Ht').
    + now subst.
Qed.

Lemma label_stripped_functional (t u u' : str) :
  label_stripped t u -> label_stripped t u' -> u = u'.
Proof.
  intros H H'.
  destruct H as [t1 | t1 Hn].
  - remember (abstract_colon ++ t1) as t eqn:Et.
    destruct H' as [t2 | t2 Hn'].
    + apply app_inv_head in Et. now subst.
    + subst. discriminate Hn'.
  - remember t1 as t eqn:Et in H'.
    destruct H' as [t2 | t2 Hn'].
    + subst. discriminate Hn.
    + now subst.
Qed.

(** *** Deleting the label on the abstract page *)

Lemma contains_false_free (t n : str) :
  Py.contains t n = false -> forall pre post, t <> pre ++ n ++ post.
Proof.
  induction t as [|c t IH]; intros H pre post E.
  - cbn [Py.contains] in H. rewrite orb_false_r in H.
    symmetry in E. apply app_eq_nil in E as [_ E]. apply app_eq_nil in E as [-> _].
    discriminate H.
  - cbn [Py.contains] in H. apply orb_false_elim in H as [Hs Ht].
    destruct pre as [|c' pre].
    + assert (Hs' : Py.startswith (c :: t) n = true) by (apply startswith_iff; eauto).
      congruence.
    + injection E as _ E. exact (IH Ht pre post E).
Qed.

Lemma replace_no_label (c : ascii) (t : str) :
  Py.startswith (c :: t) abstract_colon = false ->
  Py.replace (c :: t) abstract_colon [] = c :: Py.replace t abstract_colon [].
Proof. intro H. unfold Py.replace. cbn [Py.replace_from]. now rewrite H. Qed.

Lemma label_deleted_cons (c : ascii) (t r : str) :
  Py.startswith (c :: t) abstract_colon = false ->
  label_deleted t r -> label_deleted (c :: t) (c :: r).
Proof.
  intros Hs H.
  assert (Hhead : forall post, c :: t <> abstract_colon ++ post).
  { intros post E.
    assert (Hs' : Py.startswith (c :: t) abstract_colon = true)
      by (apply startswith_iff; eauto).
    congruence. }
  destruct H as [t Hfree | pre post r Hleft Hd].
  - apply deleted_none. intros [|c' pre] post E; [exact (Hhead post E)|].
    injection E as _ E. exact (Hfree pre post E).
  - change (label_deleted ((c :: pre) ++ abstract_colon ++ post) ((c :: pre) ++ r)).
    apply deleted_first; [|exact Hd].
    intros [|c' pre'] post' E; [destruct (Hhead post' E)|].
    injection E as _ E. pose proof (Hleft pre' post' E). cbn [List.length]. lia.
Qed.

(** [text.replace("Abstract:", "")] deletes every label. *)
Lemma replace_label_spec (t : str) : label_deleted t (Py.replace t abstract_colon []).
Proof.
  assert (Hnil : label_deleted [] (Py.replace [] abstract_colon [])).
  { apply deleted_none. intros [|c pre] post; discriminate. }
  assert (G : forall n t, (List.length t <= n)%nat ->
                          label_deleted t (Py.replace t abstract_colon [])).
  { induction n as [|n IH]; intros [|c t'] Hlen; try exact Hnil; [cbn in Hlen; lia|].
    destruct (Py.startswith (c :: t') abstract_colon) eqn:Es.
    - apply startswith_iff in Es as [post E]. rewrite E, replace_abstract_label.
      apply (deleted_first [] post).
      + intros pre' post' _. cbn. lia.
      + apply IH. apply (f_equal (@List.length ascii)) in E.
        rewrite length_app in E. change (List.length abstract_colon) with 9%nat in E.
        cbn [List.length] in E, Hlen. lia.
    - rewrite (replace_no_label c t' Es). apply label_deleted_cons; [exact Es|].
      apply IH. cbn [List.length] in Hlen. lia. }
  exact (G (List.length t) t (Nat.le_refl _)).
Qed.

Lemma label_deleted_functional (t u u' : str) :
  label_deleted t u -> label_deleted t u' -> u = u'.
Proof.
  intro H. revert u'. induction H as [t Hfree | pre post r Hleft Hd IH]; intros u' H'.
  - inversion H' as [t1 Hfree' Et Eu | pre' post' r' Hleft' Hd' Et Eu]; [reflexivity|].
    destruct (Hfree pre' post' (eq_sym Et)).
  - inversion H' as [t1 Hfree' Et Eu | pre' post' r' Hleft' Hd' Et Eu].
    + subst. destruct (Hfree' pre post eq_refl).
    + assert (Hlen : List.length pre' = List.length pre).
      { apply Nat.le_antisymm.
        - exact (Hleft' pre post Et).
        - exact (Hleft pre' post' (eq_sym Et)). }
      destruct (same_length_prefix _ _ _ _ Et Hlen) as [-> Epost].
      injection Epost as Epost. subst post'.
      now rewrite (IH r' Hd').
Qed.

Lemma replace_after_blank (w s : str) :
  blank w -> Py.replace (w ++ s) abstract_colon [] = w ++ Py.replace s abstract_colon [].
Proof.
  unfold blank. induction w as [|c w IH]; intro H; [reflexivity|].
  cbn [forallb] in H. apply andb_prop in H as [Hc Hw].
  rewrite <- app_comm_cons, replace_no_label.
  - now rewrite (IH Hw).
  - cbn [abstract_colon list_ascii_of_string Py.startswith].
    destruct (Ascii.eqb "A" c) eqn:E; [|reflexivity].
    apply Ascii.eqb_eq in E. subst c. discriminate Hc.
Qed.

Lemma split_after_blank (w s : str) : blank w -> Py.split (w ++ s) = Py.split s.
Proof.
  unfold blank. induction w as [|c w IH]; intro H; [reflexivity|].
  cbn [forallb] in H. apply andb_prop in H as [Hc Hw].
  rewrite <- app_comm_cons, (split_space c (w ++ s) Hc). exact (IH Hw).
Qed.

(** C4, as the code has it.  The search-results extractor takes the
    normalised text of the abstract element, cuts one trailing "Less" or
    "More" together with the whitespace around it, and then cuts one leading
    "Abstract:" together with the whitespace after it; its abstract is the
    only text obtained that way.  The single-paper extractor deletes every
    "Abstract:" of the element text, wherever it stands, and normalises what
    is left; its abstract is the only text obtained that way, and nothing is
    done about "Less" or "More".  So for an element text that is whitespace,
    then "Abstract:", then a body without further "Abstract:", the abstract
    is the normalised body. *)
Theorem abstract_labels :
  (forall item v,
     (exists u,
        toggle_stripped (block_abstract_text item) u /\ label_stripped u v)
     <-> v = block_abstract item)
  /\ (forall soup abstract_elem v,
        Soup.select_one Sel.abstract_mathjax soup = Some abstract_elem ->
        (exists u, label_deleted (Soup.text abstract_elem) u /\ v = cleanText u)
        <-> v = paper_abstract soup)
  /\ (forall soup abstract_elem w body,
        Soup.select_one Sel.abstract_mathjax soup = Some abstract_elem ->
        Soup.text abstract_elem = w ++ abstract_colon ++ body ->
        blank w ->
        Py.contains body abstract_colon = false ->
        paper_abstract soup = cleanText body)
  /\ paper_abstract (Soup.document sample_paper_page_spaced) = ("We study X." : str).
Proof.
  split; [|split; [|split]].
  - intros item v. split.
    + intros (u & Hu & Hv).
      pose proof (sub_toggle_spec (block_abstract_text item)) as Hu'.
      rewrite (toggle_stripped_functional _ _ _ Hu Hu') in Hv.
      exact (label_stripped_functional _ _ _ Hv (sub_label_spec _)).
    + intros ->. exists (Re.sub Pat.toggle [] (block_abstract_text item)). split.
      * apply sub_toggle_spec.
      * apply sub_label_spec.
  - intros soup abstract_elem v Hsel. unfold paper_abstract. rewrite Hsel.
    fold abstract_colon.
    change (list_ascii_of_string "") with (@nil ascii).
    pose proof (replace_label_spec (Soup.text abstract_elem)) as Hd. split.
    + intros (u & Hu & ->). now rewrite (label_deleted_functional _ _ _ Hu Hd).
    + intros ->. eexists. split; [exact Hd | reflexivity].
  - intros soup abstract_elem w body Hsel Htext Hw Hbody.
    unfold paper_abstract. rewrite Hsel, Htext.
    fold abstract_colon.
    change (list_ascii_of_string "") with (@nil ascii).
    rewrite (replace_after_blank w _ Hw), replace_abstract_label.
    rewrite (replace_absent _ _ _ Hbody).
    rewrite !cleanText_join_split. now rewrite (split_after_blank w body Hw).
  - reflexivity.
Qed.

Example block_abstract_sample :
  map abstract (flat_map block_papers (result_blocks sample_block_more))
  = ["We want" : str].
Proof. reflexivity. Qed.

(** The sample abstract page refutes C4 for the single-paper extractor: the
    returned abstract still ends with the label "More", which the
    search-results extractor cuts from the same text. *)
Lemma single_paper_keeps_toggle_label :
  exists p body,
    exec (always_ok []) (getPaper (fun _ => sample_paper_page) "2301.00001") = Ok (Dump p)
    /\ abstract p = body ++ " More"
    /\ toggle_tail " More"
    /\ Re.sub Pat.toggle [] (abstract p) = body
    /\ Re.sub Pat.toggle [] (abstract p) <> abstract p.
Proof.
  eexists. exists ("We want" : str). split; [reflexivity|].
  split; [reflexivity|]. split.
  - exists [space], more, []. repeat split. now right.
  - split; [reflexivity | discriminate].
Qed.


(** * Further properties *)

(** ** What identifier extraction returns *)

Lemma occurs_at_substring (prefix url pre id : str) :
  occurs_at prefix url pre id -> identifier id /\ substring id url.
Proof.
  intros (post & -> & Hid & _). split; [exact Hid|].
  exists (pre ++ prefix), post. now rewrite <- app_assoc.
Qed.

Lemma extract_spec_identifier (url id : str) :
  extract_spec url (Some id) -> identifier id /\ substring id url.
Proof.
  intro H. inversion H as [id' Ha | id' _ Hp | id' _ _ Hb | ]; subst.
  - destruct Ha as (pre & Ho & _). exact (occurs_at_substring _ _ _ _ Ho).
  - destruct Hp as (pre & Ho & _). exact (occurs_at_substring _ _ _ _ Ho).
  - destruct Hb as [Hid [-> | ->]]; (split; [exact Hid|]).
    + exists [], []. now rewrite app_nil_r.
    + now exists [], [newline].
Qed.

Lemma extractPaperId_identifier (url id : str) :
  extractPaperId url = Some id -> identifier id /\ substring id url.
Proof.
  intro H. apply extract_spec_identifier. rewrite <- H. apply extractPaperId_meets_spec.
Qed.

Lemma extractPaperId_nonempty (url id : str) : extractPaperId url = Some id -> id <> [].
Proof.
  intro H. destruct (extractPaperId_identifier url id H) as [Hid _].
  destruct (identifier_nonempty id Hid) as (c & t & ->). discriminate.
Qed.

(** X1. Whatever [extractPaperId] returns is a well-formed identifier
    (digits, a dot, digits) that occurs in the input; in particular it is
    never the empty string. *)
Theorem extractPaperId_returns_identifier (url id : str) :
  extractPaperId url = Some id ->
  identifier id /\ substring id url /\ id <> [].
Proof.
  intro H. assert (Hs : extract_spec url (Some id)).
  { rewrite <- H. apply extractPaperId_meets_spec. }
  destruct (extract_spec_identifier url id Hs) as [Hid Hsub].
  repeat split; try assumption.
  destruct (identifier_nonempty id Hid) as (c & t & ->). discriminate.
Qed.

Lemma extractPaperId_returns_identifier_witness :
  extractPaperId "see https://arxiv.org/pdf/2301.00001v3 there" = Some ("2301.00001" : str)
  /\ identifier "2301.00001".
Proof.
  split; [reflexivity|].
  exact (proj1 (extractPaperId_returns_identifier
                  "see https://arxiv.org/pdf/2301.00001v3 there" "2301.00001" eq_refl)).
Defined.

Lemma abs_page_first_occurrence (id suffix : str) :
  identifier id -> not_headed Py.isdecimal suffix ->
  first_occurrence abs_prefix (abs_page ++ id ++ suffix) id.
Proof.
  intros Hid Hs. exists ("https://" : str). split.
  - exists suffix. split; [reflexivity|]. split; assumption.
  - intros pre' id' (post' & E & _).
    do 8 (destruct pre' as [|? pre']; [cbn in E; discriminate E | cbn in E; injection E as <- E]).
    cbn. lia.
Qed.

Lemma extractPaperId_of_abs_page_suffix (id suffix : str) :
  identifier id -> not_headed Py.isdecimal suffix ->
  extractPaperId (abs_page ++ id ++ suffix) = Some id.
Proof.
  intros Hid Hs. apply extractPaperId_complete. apply from_abs.
  now apply abs_page_first_occurrence.
Qed.

(** X2. An abstract-page URL resolves to its identifier whatever follows
    the identifier, as long as that does not begin with a digit: a version
    suffix, a query string or a fragment do not matter. *)
Theorem extractPaperId_ignores_suffix (id suffix : str) :
  identifier id -> not_headed Py.isdecimal suffix ->
  extractPaperId (abs_page ++ id ++ suffix) = Some id.
Proof.
  intros Hid Hs. apply extractPaperId_complete. apply from_abs.
  exists ("https://" : str). split.
  - exists suffix. split; [reflexivity|]. split; assumption.
  - intros pre' id' (post' & E & _).
    do 8 (destruct pre' as [|? pre']; [cbn in E; discriminate E | cbn in E; injection E as <- E]).
    cbn. lia.
Qed.

Lemma extractPaperId_ignores_suffix_witness :
  identifier "2301.00001" /\ not_headed Py.isdecimal "v2?context=cs"
  /\ extractPaperId "https://arxiv.org/abs/2301.00001v2?context=cs" = Some ("2301.00001" : str).
Proof.
  assert (H : identifier "2301.00001").
  { exists ("2301" : str), ("00001" : str). repeat split; (discriminate || reflexivity). }
  assert (H' : not_headed Py.isdecimal "v2?context=cs").
  { intros c t E. injection E as <- _. reflexivity. }
  split; [exact H|]. split; [exact H'|].
  exact (extractPaperId_ignores_suffix "2301.00001" "v2?context=cs" H H').
Defined.

Lemma no_abs_in_pdf_page (id suffix : str) :
  identifier id -> ~ In "a"%char suffix ->
  ~ has_occurrence abs_prefix (pdf_page ++ id ++ suffix).
Proof.
  intros Hid Hs (pre' & id' & post' & E & _).
  do 8 (destruct pre' as [|? pre']; [cbn in E; discriminate E | cbn in E; injection E as <- E]).
  do 14 (destruct pre' as [|? pre']; [cbn in E; discriminate E | cbn in E; injection E as <- E]).
  assert (Ha : In "a"%char (id ++ suffix)).
  { rewrite E. apply in_or_app. right. now left. }
  apply in_app_or in Ha as [Ha|Ha]; [|contradiction].
  destruct (identifier_chars id "a"%char Hid Ha) as [H|H]; discriminate.
Qed.

Lemma extractPaperId_of_pdf_page (id suffix : str) :
  identifier id -> not_headed Py.isdecimal suffix -> ~ In "a"%char suffix ->
  extractPaperId (pdf_page ++ id ++ suffix) = Some id.
Proof.
  intros Hid Hs Ha. apply extractPaperId_complete. apply from_pdf.
  - now apply no_abs_in_pdf_page.
  - exists ("https://" : str). split.
    + exists suffix. split; [reflexivity|]. split; assumption.
    + intros pre' id' (post' & E & _).
      do 8 (destruct pre' as [|? pre']; [cbn in E; discriminate E | cbn in E; injection E as <- E]).
      cbn. lia.
Qed.

Lemma pdf_suffix_ok :
  not_headed Py.isdecimal ".pdf" /\ ~ In "a"%char (".pdf" : str).
Proof.
  split.
  - intros c t E. injection E as <- _. reflexivity.
  - cbn. intros [H|[H|[H|[H|[]]]]]; discriminate H.
Qed.

Lemma linked_of_identifier (p : Paper) :
  identifier (id_arxiv p) ->
  url_abstract p = URL_BASE ++ "/abs/" ++ id_arxiv p ->
  url_pdf p = URL_BASE ++ "/pdf/" ++ id_arxiv p ++ ".pdf" ->
  linked p.
Proof.
  intros Hid Ea Ep. destruct pdf_suffix_ok as [H1 H2]. repeat split; [exact Hid| |].
  - rewrite Ea. rewrite <- (app_nil_r (id_arxiv p)) at 1.
    apply (extractPaperId_of_abs_page_suffix (id_arxiv p) []); [exact Hid | intros ? ? [=]].
  - rewrite Ep. now apply (extractPaperId_of_pdf_page (id_arxiv p) ".pdf").
Qed.


(** ** Papers and their URLs *)

Lemma recent_id_identifier (dt : Soup.Tag) :
  recent_id dt <> [] -> identifier (recent_id dt).
Proof.
  unfold recent_id.
  destruct (Soup.select_one Sel.a_href_abs dt) as [id_link|]; [|congruence].
  set (href := match Soup.get id_link "href" with Some h => h | None => [] end).
  pose proof (search_url ("/abs/" : str) href) as H.
  change (Re.Seq (Re.lit ("/abs/" : str)) (Re.Grp Pat.number_dot_number))
    with Pat.abs_href in H.
  destruct (Re.search Pat.abs_href href) as [m|]; [|congruence].
  intros _. destruct H as (pre & Ho & _).
  exact (proj1 (occurs_at_substring _ _ _ _ Ho)).
Qed.

Lemma recent_pair_fields (list_of_set : list str -> list str) (dt dd : Soup.Tag) (p : Paper) :
  In p (recent_pair list_of_set dt dd) ->
  id_arxiv p = recent_id dt /\ id_arxiv p <> []
  /\ url_abstract p = URL_BASE ++ "/abs/" ++ id_arxiv p
  /\ url_pdf p = URL_BASE ++ "/pdf/" ++ id_arxiv p ++ ".pdf"
  /\ abstract p = [] /\ date_published p = None /\ date_updated p = None.
Proof.
  unfold recent_pair. destruct (recent_id dt) as [|c t] eqn:E; [contradiction|].
  intros [<-|[]]. cbn. repeat split. discriminate.
Qed.

Lemma parse_block_id (item : Soup.Tag) (p : Paper) :
  parse_block item = Ok p ->
  id_arxiv p = or_empty (extractPaperId (url_abstract p)).
Proof.
  unfold parse_block.
  destruct (match Soup.select_one Sel.list_title_span_a item with
            | Some e => Soup.get e "href"
            | None => Some []
            end) as [url|]; [|discriminate].
  now intros [= <-].
Qed.

Lemma or_empty_some (o : option str) :
  or_empty o <> [] -> o = Some (or_empty o).
Proof. destruct o as [[|c t]|]; cbn; congruence. Qed.

Lemma parse_block_linked (item : Soup.Tag) (p : Paper) :
  parse_block item = Ok p -> id_arxiv p <> [] -> linked p.
Proof.
  intros Hp Hne.
  pose proof (parse_block_id item p Hp) as Eid.
  assert (Ex : extractPaperId (url_abstract p) = Some (id_arxiv p)).
  { rewrite Eid. apply or_empty_some. now rewrite <- Eid. }
  destruct (extractPaperId_identifier _ _ Ex) as [Hid _].
  destruct pdf_suffix_ok as [H1 H2].
  repeat split; [exact Hid | exact Ex |].
  rewrite (proj2 (parse_block_pdf item p Hp) Hne).
  now apply (extractPaperId_of_pdf_page (id_arxiv p) ".pdf").
Qed.

(** X3. The URLs of a returned paper lead back to its identifier: for the
    paper of [getPaper], for every paper of [getRecent], and for every paper
    of a search page that has an identifier, the identifier is well formed
    and [extractPaperId] applied to [url_abstract] and to [url_pdf] returns
    it. *)
Theorem paper_urls_resolve (BeautifulSoup : str -> list Soup.node)
  (list_of_set : list str -> list str) (net : Request -> result Response) :
  (forall id_or_url,
     match exec net (getPaper BeautifulSoup id_or_url) with
     | Ok (Dump p) => linked p
     | _ => True
     end)
  /\ (forall category count,
        match exec net (getRecent BeautifulSoup list_of_set category count) with
        | Ok r => Forall linked (recent_papers r)
        | Raised _ => True
        end)
  /\ (forall html query page page_size,
        match parseSearchResults BeautifulSoup html query page page_size with
        | Ok r => Forall (fun p => id_arxiv p <> [] -> linked p) (papers r)
        | Raised _ => True
        end).
Proof.
  split; [|split].
  - intro id_or_url. unfold getPaper.
    destruct (extractPaperId id_or_url) as [[|c t]|] eqn:E; try exact I.
    cbn [exec]. destruct (net _) as [response|]; [|exact I].
    destruct (raise_for_status response); [|exact I].
    cbn [exec]. apply linked_of_identifier; try reflexivity.
    exact (proj1 (extractPaperId_identifier _ _ E)).
  - intros category count. unfold getRecent.
    cbn [exec]. destruct (net _) as [response|]; [|exact I].
    destruct (raise_for_status response); [|exact I].
    cbn [exec]. unfold recent_of_page. cbn [recent_papers].
    rewrite recent_loop_pairs. cbn [app].
    apply Forall_forall. intros p Hp. apply in_flat_map in Hp as (pair & _ & Hp).
    apply recent_pair_fields in Hp as (Eid & Hne & Ea & Epdf & _).
    apply linked_of_identifier; try assumption.
    rewrite Eid. apply recent_id_identifier. now rewrite <- Eid.
  - intros html query page page_size.
    destruct (parseSearchResults _ _ _ _ _) as [r|] eqn:E; [|exact I].
    apply parseSearchResults_papers in E as [-> _].
    apply Forall_forall. intros p Hp. apply in_flat_map in Hp as (item & _ & Hp).
    unfold block_papers in Hp. destruct (parse_block item) as [q|] eqn:Eq; [|contradiction].
    destruct Hp as [<-|[]]. now apply (parse_block_linked item).
Qed.

(** ** [getPaper] without an identifier *)

Lemma unrecognised_iff (url : str) : unrecognised url <-> extractPaperId url = None.
Proof.
  split.
  - intros (Ha & Hp & Hb). apply extractPaperId_complete. now apply not_found.
  - intro H. pose proof (extractPaperId_meets_spec url) as Hs. rewrite H in Hs.
    inversion Hs. now repeat split.
Qed.

(** X4. [getPaper] answers with the error mapping, whose message ends with
    the input, exactly when the input has no abstract-page URL, no PDF-page
    URL and is not a bare identifier; it then issues no request.  For every
    other input it issues one GET of the abstract page, following
    redirects. *)
Theorem getPaper_unrecognised (BeautifulSoup : str -> list Soup.node) (id_or_url : str) :
  (unrecognised id_or_url <->
   getPaper BeautifulSoup id_or_url
   = Ret (ErrorDict ("Could not extract arXiv ID from: " ++ id_or_url)))
  /\ (unrecognised id_or_url ->
      forall net, requests net (getPaper BeautifulSoup id_or_url) = [])
  /\ (~ unrecognised id_or_url ->
      exists id k,
        extractPaperId id_or_url = Some id
        /\ getPaper BeautifulSoup id_or_url
           = HttpGet (mkRequest (abs_page ++ id) TIMEOUT true) k).
Proof.
  rewrite unrecognised_iff. unfold getPaper.
  destruct (extractPaperId id_or_url) as [id|] eqn:E.
  - pose proof (extractPaperId_nonempty _ _ E) as Hne.
    destruct id as [|c t]; [congruence|].
    split; [split; discriminate|]. split; [discriminate|].
    intros _. eexists. eexists. split; reflexivity.
  - split; [split; reflexivity|]. split; [reflexivity|]. intro H. congruence.
Qed.


(** ** [getContent] *)

Lemma raise_for_status_success (response : Response) :
  success response -> raise_for_status response = Ok tt.
Proof.
  unfold success, raise_for_status. intro H.
  replace (200 <=? status_code response)%Z with true by (symmetry; apply Z.leb_le; lia).
  replace (status_code response <=? 299)%Z with true by (symmetry; apply Z.leb_le; lia).
  reflexivity.
Qed.

Lemma raise_for_status_error (response : Response) :
  error_status response ->
  raise_for_status response = Raised (HTTPStatusError (status_code response)).
Proof.
  unfold error_status, raise_for_status. intro H.
  replace (status_code response <=? 299)%Z with false by (symmetry; apply Z.leb_gt; lia).
  now rewrite andb_false_r.
Qed.

(** X5. [getContent] sends a bare identifier, its abstract-page URL (with
    any suffix that does not begin with a digit) and its PDF URL to the
    rendering proxy as one and the same request: the abstract page of the
    identifier, also when a PDF URL was given. *)
Theorem getContent_same_target (id suffix : str) :
  identifier id -> not_headed Py.isdecimal suffix ->
  (exists k, getContent id
             = HttpGet (mkRequest (proxied (abs_page ++ id)) (TIMEOUT * 2) false) k)
  /\ getContent (abs_page ++ id ++ suffix) = getContent id
  /\ getContent (pdf_page ++ id ++ ".pdf") = getContent id.
Proof.
  intros Hid Hs. destruct pdf_suffix_ok as [H1 H2].
  pose proof (extractPaperId_of_identifier id Hid) as E1.
  pose proof (extractPaperId_of_abs_page_suffix id suffix Hid Hs) as E2.
  pose proof (extractPaperId_of_pdf_page id ".pdf" Hid H1 H2) as E3.
  destruct (identifier_nonempty id Hid) as (c & t & Eid).
  unfold getContent. rewrite E1, E2, E3, Eid.
  split; [eexists; reflexivity|]. split; reflexivity.
Qed.

Lemma getContent_same_target_witness :
  identifier "2301.00001" /\ not_headed Py.isdecimal "v2"
  /\ getContent "https://arxiv.org/pdf/2301.00001.pdf" = getContent "2301.00001".
Proof.
  assert (H : identifier "2301.00001").
  { exists ("2301" : str), ("00001" : str). repeat split; (discriminate || reflexivity). }
  assert (H' : not_headed Py.isdecimal "v2").
  { intros c t E. injection E as <- _. reflexivity. }
  split; [exact H|]. split; [exact H'|].
  exact (proj2 (proj2 (getContent_same_target "2301.00001" "v2" H H'))).
Defined.

Lemma invalid_url_control (pre s : str) :
  existsb nonprintable_ascii s = true -> invalid_url (pre ++ s) = true.
Proof.
  intro H. unfold invalid_url. rewrite existsb_app, H.
  now rewrite !orb_true_r.
Qed.

(** X6. [getContent] has no error reply of its own: every input reaches
    [client.get], in one call with twice the usual timeout.  When no
    identifier can be read from the input, an input that starts with "http"
    goes to the proxy as it is, and any other input is taken for an
    identifier and appended to the abstract-page address.  Whatever the
    client raises ends the call with that exception, and the body of a 2xx
    answer is returned unchanged.  As an input without identifier is part of
    the URL verbatim, an ASCII control character in it makes the client
    refuse the URL: the call ends with [InvalidURL] and nothing reaches the
    transport. *)
Theorem getContent_passes_through (id_or_url : str) :
  (unrecognised id_or_url ->
   exists k,
     getContent id_or_url
     = HttpGet (mkRequest (proxied (if Py.startswith id_or_url "http"
                                    then id_or_url
                                    else abs_page ++ id_or_url))
                          (TIMEOUT * 2) false) k)
  /\ (exists target k,
        getContent id_or_url = HttpGet (mkRequest (proxied target) (TIMEOUT * 2) false) k
        /\ forall net,
             requests net (getContent id_or_url)
             = [mkRequest (proxied target) (TIMEOUT * 2) false]
             /\ (forall e,
                   net (mkRequest (proxied target) (TIMEOUT * 2) false) = Raised e ->
                   exec net (getContent id_or_url) = Raised e)
             /\ forall response,
                  net (mkRequest (proxied target) (TIMEOUT * 2) false) = Ok response ->
                  success response ->
                  exec net (getContent id_or_url) = Ok (resp_text response))
  /\ (unrecognised id_or_url ->
      existsb nonprintable_ascii id_or_url = true ->
      forall transport,
        exec (client transport) (getContent id_or_url) = Raised InvalidURL
        /\ sent transport (getContent id_or_url) = []).
Proof.
  split; [|split].
  - intro H. apply unrecognised_iff in H. unfold getContent. rewrite H.
    eexists. destruct (Py.startswith id_or_url "http"); reflexivity.
  - unfold getContent, proxied. cbv zeta. eexists. eexists. split; [reflexivity|].
    intro net. split; [|split].
    + cbn [requests]. destruct (net _) as [response|]; [|reflexivity].
      now destruct (raise_for_status response).
    + intros e Hn. cbn [exec]. now rewrite Hn.
    + intros response Hn Hs. cbn [exec]. rewrite Hn.
      now rewrite (raise_for_status_success response Hs).
  - intros H Hc transport. apply unrecognised_iff in H.
    unfold sent, getContent. rewrite H. cbv zeta.
    match goal with
    | |- context [mkRequest ?u _ _] =>
        assert (Hk : invalid_url u = true); [|set (url := u) in *]
    end.
    { destruct (Py.startswith id_or_url "http"); rewrite !app_assoc;
        exact (invalid_url_control _ id_or_url Hc). }
    cbn [exec requests]. unfold client. cbn [req_url]. rewrite Hk.
    cbn [filter req_url]. rewrite Hk. now split.
Qed.

(** A line break inside an input without identifier is refused by the
    client; a line break after a bare identifier is not part of the
    identifier, so that request is sent. *)
Example getContent_line_break :
  exec (client (always_ok "text")) (getContent ("a" ++ [newline] ++ "b"))
  = Raised InvalidURL
  /\ sent (always_ok "text") (getContent ("a" ++ [newline] ++ "b")) = []
  /\ sent (always_ok "text") (getContent ("2301.00001" ++ [newline]))
     = [mkRequest (proxied (abs_page ++ "2301.00001")) (TIMEOUT * 2) false].
Proof. split; [|split]; vm_compute; reflexivity. Qed.

(** ** One request, and failures end the call *)

Lemma single_shot_get {A} (rq : Request) (k : Response -> io A) :
  guarded k -> single_shot (HttpGet rq k).
Proof.
  intros Hk net. cbn [requests exec].
  destruct (net rq) as [response|e] eqn:En.
  - destruct (Hk response) as [Hraise Hnoget].
    assert (Hreq : requests net (k response) = []).
    { destruct (k response) as [a|e|rq' k'] eqn:Ek; try reflexivity.
      now destruct (Hnoget rq' k'). }
    rewrite Hreq. split; [cbn; lia|].
    intros rq0 [<-|[]]. rewrite En. intro He.
    rewrite (Hraise _ (raise_for_status_error response He)). reflexivity.
  - split; [cbn; lia|]. intros rq0 [<-|[]]. now rewrite En.
Qed.

Lemma single_shot_ret {A} (a : A) : single_shot (Ret a).
Proof. intro net. split; [cbn; lia | intros rq []]. Qed.

Lemma guarded_status {A} (f : Response -> io A) :
  (forall response rq k', f response <> HttpGet rq k') ->
  guarded (fun response =>
             match raise_for_status response with
             | Raised e => Throw e
             | Ok _ => f response
             end).
Proof.
  intros Hf response. split.
  - intros e ->. reflexivity.
  - intros rq k'. destruct (raise_for_status response); [apply Hf | discriminate].
Qed.

Lemma lift_not_get {A} (r : result A) (rq : Request) (k : Response -> io A) :
  lift r <> HttpGet rq k.
Proof. destruct r; discriminate. Qed.

Lemma guarded_search_response {A} (BeautifulSoup : str -> list Soup.node)
  (f : result SearchResult -> result A) (full_query : str) (page page_size : Z) :
  (forall e, f (Raised e) = Raised e) ->
  guarded (fun response =>
             lift (f (search_response BeautifulSoup full_query page page_size response))).
Proof.
  intros Hf response. split.
  - intros e He. unfold search_response. rewrite He, Hf. reflexivity.
  - intros rq k'. apply lift_not_get.
Qed.

(** X7. No tool retries or issues a second request: each call makes at most
    one GET, and when that GET fails, or is answered with a 4xx or 5xx
    status, the call ends with that exception and returns nothing. *)
Theorem tools_single_shot (BeautifulSoup : str -> list Soup.node)
  (list_of_set : list str -> list str) :
  (forall query category author sort_by page page_size,
     single_shot (search BeautifulSoup query category author sort_by page page_size))
  /\ (forall title abstract author category id_arxiv date_from date_to sort_by page page_size,
        single_shot (searchAdvanced BeautifulSoup title abstract author category id_arxiv
                       date_from date_to sort_by page page_size))
  /\ (forall id_or_url, single_shot (getPaper BeautifulSoup id_or_url))
  /\ (forall id_or_url, single_shot (getContent id_or_url))
  /\ (forall category count,
        single_shot (getRecent BeautifulSoup list_of_set category count)).
Proof.
  split; [|split; [|split; [|split]]].
  - intros. unfold search. apply single_shot_get.
    apply (guarded_search_response BeautifulSoup (fun r => r)). reflexivity.
  - intros. unfold searchAdvanced.
    destruct (advanced_parts _ _ _ _ _); [apply single_shot_ret|].
    apply single_shot_get.
    apply (guarded_search_response BeautifulSoup (result_map Dump)). reflexivity.
  - intros. unfold getPaper. destruct (extractPaperId id_or_url) as [[|c t]|];
      try apply single_shot_ret.
    apply single_shot_get. apply guarded_status. discriminate.
  - intros. unfold getContent. apply single_shot_get. apply guarded_status. discriminate.
  - intros. unfold getRecent. apply single_shot_get. apply guarded_status. discriminate.
Qed.


(** ** The effective query and the sort order *)




Example effective_query_single_term :
  exists k,
    search (fun _ => []) "" None (Some ("hinton" : str)) "relevance" 1 25
    = HttpGet (mkRequest
        "https://arxiv.org/search/?query=au%3Ahinton&searchtype=all&abstracts=show&order=&size=25&start=0"
        TIMEOUT false) k.
Proof. eexists. reflexivity. Qed.

(** X9. A [sort_by] that is not a key of the sort table is not rejected:
    both search tools then behave exactly as with "relevance", sending an
    empty sort order. *)
Theorem unknown_sort_is_relevance (BeautifulSoup : str -> list Soup.node)
  (sort_by : str) :
  ~ In sort_by (map fst SORT_OPTIONS) ->
  (forall query category author page page_size,
     search BeautifulSoup query category author sort_by page page_size
     = search BeautifulSoup query category author "relevance" page page_size)
  /\ (forall title abstract author category id_arxiv date_from date_to page page_size,
        searchAdvanced BeautifulSoup title abstract author category id_arxiv
          date_from date_to sort_by page page_size
        = searchAdvanced BeautifulSoup title abstract author category id_arxiv
            date_from date_to "relevance" page page_size).
Proof.
  intro H. pose proof (dict_get_absent SORT_OPTIONS sort_by [] H) as E.
  split.
  - intros. unfold search. cbv zeta. change (list_ascii_of_string "") with (@nil ascii).
    rewrite E. reflexivity.
  - intros. unfold searchAdvanced. cbv zeta. change (list_ascii_of_string "") with (@nil ascii).
    rewrite E. reflexivity.
Qed.

Lemma unknown_sort_is_relevance_witness :
  ~ In ("newest" : str) (map fst SORT_OPTIONS)
  /\ search (fun _ => []) "LLM" None None "newest" 1 25
     = search (fun _ => []) "LLM" None None "relevance" 1 25.
Proof.
  assert (H : ~ In ("newest" : str) (map fst SORT_OPTIONS)).
  { cbn. intros [H|[H|[H|[H|[H|[]]]]]]; discriminate H. }
  split; [exact H|].
  exact (proj1 (unknown_sort_is_relevance (fun _ => []) "newest" H) "LLM" None None 1%Z 25%Z).
Defined.


(** ** Authors and categories *)

Lemma lstrip_drop_while (s : str) : Py.lstrip s = drop_while Py.isspace s.
Proof.
  induction s as [|c t IH]; [reflexivity|]. cbn. now destruct (Py.isspace c).
Qed.

Lemma lstrip_suffix (s : str) : exists ws, s = ws ++ Py.lstrip s.
Proof.
  exists (take_while Py.isspace s). rewrite lstrip_drop_while. symmetry. apply take_drop.
Qed.

Lemma rstrip_prefix (s : str) : exists ws, s = Py.rstrip s ++ ws.
Proof.
  unfold Py.rstrip. destruct (lstrip_suffix (rev s)) as [ws E].
  exists (rev ws). rewrite <- rev_app_distr, <- E. symmetry. apply rev_involutive.
Qed.

Lemma rstrip_no_trailing_space (s : str) : no_trailing_space (Py.rstrip s).
Proof.
  unfold Py.rstrip. intros b c E.
  assert (E' : Py.lstrip (rev s) = c :: rev b).
  { rewrite <- (rev_involutive (Py.lstrip (rev s))), E, rev_app_distr. reflexivity. }
  rewrite lstrip_drop_while in E'.
  exact (drop_while_head Py.isspace (rev s) c (rev b) E').
Qed.

Lemma strip_trimmed (s : str) : trimmed (Py.strip s).
Proof.
  unfold Py.strip. split; [|apply rstrip_no_trailing_space].
  intros c t E. destruct (rstrip_prefix (Py.lstrip s)) as [ws Ew].
  rewrite E, lstrip_drop_while in Ew. cbn in Ew.
  exact (drop_while_head Py.isspace s c (t ++ ws) Ew).
Qed.

Lemma map_strip_trimmed {A} (f : A -> str) (l : list A) :
  Forall trimmed (map (fun a => Py.strip (f a)) l).
Proof.
  apply Forall_forall. intros x Hx. apply in_map_iff in Hx as (a & <- & _).
  apply strip_trimmed.
Qed.

Lemma parse_block_fields (item : Soup.Tag) (p : Paper) :
  parse_block item = Ok p ->
  Forall category_tag (categories p) /\ Forall trimmed (authors p).
Proof.
  unfold parse_block.
  destruct (match Soup.select_one Sel.list_title_span_a item with
            | Some e => Soup.get e "href"
            | None => Some []
            end) as [url|]; [|discriminate].
  intros [= <-]. cbn [categories authors]. split; [|apply map_strip_trimmed].
  apply Forall_forall. intros c Hc. apply filter_In in Hc as [Hin Hkeep].
  apply in_map_iff in Hin as (tag & <- & _).
  destruct (Py.strip (Soup.text tag)) as [|x t] eqn:E; [discriminate|].
  apply negb_true_iff in Hkeep.
  repeat split; [discriminate | exact Hkeep | | ]; rewrite <- E; apply strip_trimmed.
Qed.

(** X10. In every paper of a search page no category is empty, none begins
    with "doi:", and none has whitespace at an end: DOI tags and blank tags
    of a result block are left out of [categories]. *)
Theorem search_categories_exclude_doi (BeautifulSoup : str -> list Soup.node)
  (html query : str) (page page_size : Z) :
  match parseSearchResults BeautifulSoup html query page page_size with
  | Ok r => Forall (fun p => Forall category_tag (categories p)) (papers r)
  | Raised _ => True
  end
  /\ map categories (flat_map block_papers (result_blocks sample_block_tags))
     = [["cs.LG" : str]].
Proof.
  split; [|reflexivity].
  destruct (parseSearchResults _ _ _ _ _) as [r|] eqn:E; [|exact I].
  apply parseSearchResults_papers in E as [-> _].
  apply Forall_forall. intros p Hp. apply in_flat_map in Hp as (item & _ & Hp).
  unfold block_papers in Hp. destruct (parse_block item) as [q|] eqn:Eq; [|contradiction].
  destruct Hp as [<-|[]]. exact (proj1 (parse_block_fields item q Eq)).
Qed.

(** X11. Author names never carry whitespace at either end, in the papers
    of all three extractors. *)
Theorem authors_are_trimmed (BeautifulSoup : str -> list Soup.node)
  (list_of_set : list str -> list str) :
  (forall html query page page_size,
     match parseSearchResults BeautifulSoup html query page page_size with
     | Ok r => Forall (fun p => Forall trimmed (authors p)) (papers r)
     | Raised _ => True
     end)
  /\ (forall id_arxiv url_abstract html,
        Forall trimmed (authors (paper_of_page BeautifulSoup id_arxiv url_abstract html)))
  /\ (forall category html,
        Forall (fun p => Forall trimmed (authors p))
               (recent_papers (recent_of_page BeautifulSoup list_of_set category html)))
  /\ map authors (flat_map block_papers (result_blocks sample_block_tags))
     = [["Ada Lovelace" : str]].
Proof.
  split; [|split; [|split]]; [| | |reflexivity].
  - intros html query page page_size.
    destruct (parseSearchResults _ _ _ _ _) as [r|] eqn:E; [|exact I].
    apply parseSearchResults_papers in E as [-> _].
    apply Forall_forall. intros p Hp. apply in_flat_map in Hp as (item & _ & Hp).
    unfold block_papers in Hp. destruct (parse_block item) as [q|] eqn:Eq; [|contradiction].
    destruct Hp as [<-|[]]. exact (proj2 (parse_block_fields item q Eq)).
  - intros id_arxiv url_abstract html. unfold paper_of_page. cbn [authors].
    destruct (Soup.select_one Sel.authors _); [apply map_strip_trimmed | constructor].
  - intros category html. unfold recent_of_page. cbn [recent_papers].
    rewrite recent_loop_pairs. cbn [app].
    apply Forall_forall. intros p Hp. apply in_flat_map in Hp as (pair & _ & Hp).
    unfold recent_pair in Hp. destruct (recent_id (fst pair)); [contradiction|].
    destruct Hp as [<-|[]]. cbn [authors].
    destruct (Soup.select_one Sel.list_authors _); [apply map_strip_trimmed | constructor].
Qed.

(** ** The categories of [getPaper] *)

Lemma mem_In (x : str) (l : list str) : Soup.mem x l = true <-> In x l.
Proof.
  unfold Soup.mem. rewrite existsb_exists. split.
  - intros (y & Hy & E). unfold Py.str_eqb in E.
    destruct (list_eq_dec ascii_dec x y) as [->|]; [exact Hy | discriminate].
  - intro H. exists x. split; [exact H|]. unfold Py.str_eqb.
    now destruct (list_eq_dec ascii_dec x x).
Qed.

Lemma fold_append_new (matches : list str) :
  forall acc,
    exists extra,
      fold_left append_new matches acc = acc ++ extra
      /\ NoDup extra
      /\ (forall c, In c extra <-> In c matches /\ ~ In c acc).
Proof.
  induction matches as [|m ms IH]; intro acc.
  - exists []. rewrite app_nil_r. split; [reflexivity|]. split; [constructor|].
    intro c. cbn. tauto.
  - cbn [fold_left]. unfold append_new at 2.
    destruct (Soup.mem m acc) eqn:Em.
    + apply mem_In in Em. destruct (IH acc) as (extra & E & Hnd & Hin).
      exists extra. split; [exact E|]. split; [exact Hnd|]. intro c. split.
      * intro Hc. apply Hin in Hc as [H1 H2]. split; [now right | exact H2].
      * intros [[<-|H1] H2]; [contradiction|]. apply Hin. now split.
    + assert (Hm : ~ In m acc) by (intro H; apply mem_In in H; congruence).
      destruct (IH (acc ++ [m])) as (extra & E & Hnd & Hin).
      exists (m :: extra). split; [now rewrite E, <- app_assoc|]. split.
      * constructor; [|exact Hnd]. intro H. apply Hin in H as [_ H].
        apply H. apply in_or_app. right. now left.
      * intro c. split.
        -- intros [<-|Hc]; [split; [now left | exact Hm]|].
           apply Hin in Hc as [H1 H2]. split; [now right|].
           intro H. apply H2. apply in_or_app. now left.
        -- intros [[<-|H1] H2]; [now left|].
           destruct (list_eq_dec ascii_dec m c) as [->|Hne]; [now left|].
           right. apply Hin. split; [exact H1|].
           intro H. apply in_app_or in H as [H|[H|[]]]; [contradiction | congruence].
Qed.

(** X12. The categories of [getPaper] are the primary subjects, as found,
    followed by the parenthesised codes of the subjects text that are not
    among them, each once; so if the primary subjects are distinct, all the
    categories are.  Without a subjects cell there are none. *)
Theorem paper_categories_ordered_dedup (soup : Soup.Tag) :
  match Soup.select_one Sel.tablecell_subjects soup with
  | Some subj_elem =>
      exists extra,
        paper_categories soup = primary_subjects subj_elem ++ extra
        /\ NoDup extra
        /\ (forall c, In c extra <->
                      In c (subject_codes subj_elem) /\ ~ In c (primary_subjects subj_elem))
        /\ (NoDup (primary_subjects subj_elem) -> NoDup (paper_categories soup))
  | None => paper_categories soup = []
  end.
Proof.
  unfold paper_categories.
  destruct (Soup.select_one Sel.tablecell_subjects soup) as [subj_elem|]; [|reflexivity].
  fold (primary_subjects subj_elem). fold (subject_codes subj_elem).
  destruct (fold_append_new (subject_codes subj_elem) (primary_subjects subj_elem))
    as (extra & E & Hnd & Hin).
  exists extra. split; [exact E|]. split; [exact Hnd|]. split; [exact Hin|].
  intro Hp. rewrite E. apply NoDup_app; [exact Hp | exact Hnd |].
  intros c Hc He. apply Hin in He. exact (proj2 He Hc).
Qed.

(** ** The page-header count *)

Lemma decimal_nonneg (d : str) : (0 <= decimal d)%Z.
Proof.
  induction d as [|c t IH]; [reflexivity|].
  cbn [decimal]. unfold digit_value.
  pose proof (Nat2Z.is_nonneg (Py.ord c - 48)) as Hd.
  pose proof (Z.pow_nonneg 10 (Z.of_nat (List.length t))) as Hp. nia.
Qed.

(** Reading the digits from the left, as [int] does, gives the number they
    denote. *)
Lemma fold_decimal (d : str) (acc : Z) :
  fold_left (fun a x => (10 * a + digit_value x)%Z) d acc
  = (acc * 10 ^ Z.of_nat (List.length d) + decimal d)%Z.
Proof.
  revert acc. induction d as [|c t IH]; intro acc.
  - cbn. lia.
  - cbn [fold_left decimal List.length]. rewrite IH.
    rewrite Nat2Z.inj_succ, Z.pow_succ_r by lia. ring.
Qed.

Lemma int_digits (d : str) :
  d <> [] -> forallb Py.isdecimal d = true ->
  int_ d = if (Z.of_nat (List.length d) <=? int_max_str_digits)%Z
           then Ok (decimal d) else Raised ValueError.
Proof.
  intros Hne Hd. unfold int_. destruct d as [|c t]; [contradiction|].
  rewrite Hd. destruct (_ <=? _)%Z; [|reflexivity].
  rewrite fold_decimal. reflexivity.
Qed.

Lemma int_nonneg (s : str) (n : Z) : int_ s = Ok n -> (0 <= n)%Z.
Proof.
  unfold int_. destruct s as [|c t]; [discriminate|].
  destruct (forallb Py.isdecimal (c :: t)); [|discriminate].
  destruct (_ <=? _)%Z; [|discriminate].
  intros [= <-]. rewrite fold_decimal. exact (decimal_nonneg (c :: t)).
Qed.

Lemma int_raises (s : str) (e : exn) : int_ s = Raised e -> e = ValueError.
Proof.
  unfold int_. destruct s as [|c t]; [congruence|].
  destruct (forallb Py.isdecimal (c :: t)); [|congruence].
  destruct (_ <=? _)%Z; [discriminate | congruence].
Qed.

Lemma replace_commas (g : str) :
  Py.replace g [comma] [] = filter (fun c => negb (Ascii.eqb c comma)) g.
Proof.
  unfold Py.replace. induction g as [|c t IH]; [reflexivity|].
  cbn [Py.replace_from Py.startswith List.length Nat.sub filter app].
  rewrite Ascii.eqb_sym, andb_true_r.
  destruct (Ascii.eqb c comma); cbn; now rewrite IH.
Qed.

Lemma digit_not_comma (c : ascii) : Py.isdecimal c = true -> Ascii.eqb c comma = false.
Proof.
  intro H. destruct (Ascii.eqb c comma) eqn:E; [|reflexivity].
  apply Ascii.eqb_eq in E. subst. discriminate H.
Qed.

(** Without its commas, a count is its digits. *)
Lemma count_without_commas (g : str) :
  forallb Pat.digit_or_comma g = true ->
  Py.replace g [comma] [] = filter Py.isdecimal g.
Proof.
  intro H. rewrite replace_commas. induction g as [|c t IH]; [reflexivity|].
  cbn [forallb] in H. apply andb_prop in H as [Hc Ht].
  cbn [filter]. rewrite (IH Ht). unfold Pat.digit_or_comma in Hc.
  destruct (Py.isdecimal c) eqn:Ed.
  - now rewrite (digit_not_comma c Ed).
  - cbn in Hc. fold comma in Hc. now rewrite Hc.
Qed.

Lemma filter_all (p : ascii -> bool) (g : str) : forallb p (filter p g) = true.
Proof.
  induction g as [|c t IH]; [reflexivity|].
  cbn. destruct (p c) eqn:E; [cbn; now rewrite E | exact IH].
Qed.

Lemma results_not_headed (rest : str) :
  not_headed Pat.digit_or_comma (" results" ++ rest).
Proof. intros c t [= <- _]. reflexivity. Qed.

(** The header pattern at one position. *)
Lemma match_at_total (n0 : nat) (s : str) :
  Re.match_at Pat.total n0 s =
  if Py.startswith s "of "
  then let r := skipn 3 s in
       match take_while Pat.digit_or_comma r with
       | [] => None
       | c :: g =>
           if Py.startswith (drop_while Pat.digit_or_comma r) " results"
           then Some (skipn 8 (drop_while Pat.digit_or_comma r), Some (c :: g))
           else None
       end
  else None.
Proof.
  unfold Re.match_at, Pat.total. cbn [Re.seqs Re.run]. rewrite run_lit.
  destruct (Py.startswith s "of "); [|reflexivity].
  change (List.length (list_ascii_of_string "of ")) with 3%nat.
  cbv zeta. destruct (skipn 3 s) as [|x t]; [reflexivity|].
  cbn [take_while drop_while]. destruct (Pat.digit_or_comma x) eqn:Ex; [|reflexivity].
  rewrite star_longest.
  2:{ right. intros c t' Hc. rewrite run_lit.
      replace (Py.startswith (c :: t') " results") with false; [reflexivity|].
      symmetry. cbn [list_ascii_of_string Py.startswith].
      destruct (Ascii.eqb " " c) eqn:E; [|reflexivity].
      apply Ascii.eqb_eq in E. subst. discriminate Hc. }
  rewrite run_lit.
  destruct (Py.startswith (drop_while Pat.digit_or_comma t) " results"); [|reflexivity].
  change (List.length (list_ascii_of_string " results")) with 8%nat.
  do 2 f_equal. f_equal.
  pose proof (firstn_prefix (x :: take_while Pat.digit_or_comma t)
                (drop_while Pat.digit_or_comma t)) as F.
  rewrite <- app_comm_cons, (take_drop Pat.digit_or_comma t) in F. exact F.
Qed.

(** A match of the header pattern is a place where the text reads
    "of N results". *)
Lemma match_at_total_iff (n0 : nat) (s rest : str) (cap : option str) :
  Re.match_at Pat.total n0 s = Some (rest, cap) <->
  exists count, cap = Some count /\ reads_count s [] count rest.
Proof.
  rewrite match_at_total. split.
  - destruct (Py.startswith s "of ") eqn:Es; [|discriminate].
    apply startswith_iff in Es as [r ->].
    change (skipn 3 ("of " ++ r)) with r. cbv zeta.
    destruct (take_while Pat.digit_or_comma r) as [|c g] eqn:Eg; [discriminate|].
    destruct (Py.startswith (drop_while Pat.digit_or_comma r) " results") eqn:Er;
      [|discriminate].
    apply startswith_iff in Er as [rest' Er]. rewrite Er.
    change (skipn 8 (" results" ++ rest')) with rest'.
    intros [= <- <-]. exists (c :: g). split; [reflexivity|].
    split; [|split; [discriminate|]].
    + rewrite <- (take_drop Pat.digit_or_comma r) at 1. rewrite Eg, Er. reflexivity.
    + rewrite <- Eg. apply take_while_all.
  - intros (count & -> & E & Hne & Hall). cbn [app] in E. subst s.
    replace (Py.startswith ("of " ++ count ++ " results" ++ rest) "of ") with true
      by (symmetry; apply startswith_iff; eauto).
    change (skipn 3 ("of " ++ count ++ " results" ++ rest))
      with (count ++ " results" ++ rest).
    cbv zeta.
    rewrite (take_while_app _ count _ Hall (results_not_headed rest)).
    rewrite (drop_while_app _ count _ Hall (results_not_headed rest)).
    destruct count as [|c g]; [contradiction|].
    reflexivity.
Qed.

(** [re.search] with the header pattern: the first place where the text
    reads "of N results", or none. *)
Lemma search_total (text : str) :
  match Re.search Pat.total text with
  | Some m => first_count text (Re.group1 m)
  | None => forall pre count rest, ~ reads_count text pre count rest
  end.
Proof.
  unfold Re.search. set (n0 := List.length text).
  assert (Hshift : forall pre s count rest,
            reads_count s [] count rest -> reads_count (pre ++ s) pre count rest).
  { intros pre s count rest (E & H). split; [|exact H]. cbn [app] in E. now rewrite E. }
  assert (Hunshift : forall pre count rest,
            reads_count text pre count rest ->
            exists s, text = pre ++ s /\ reads_count s [] count rest).
  { intros pre count rest (E & H). eexists. split; [exact E|]. now split. }
  destruct (Re.search_from Pat.total n0 text) as [[rest cap]|] eqn:E.
  - apply search_from_some in E as (pre & s' & Et & Hm & Hleft).
    apply match_at_total_iff in Hm as (count & -> & Hr).
    cbn [Re.group1 snd]. exists pre, rest. split; [rewrite Et; now apply Hshift|].
    intros pre' count' rest' Hr'.
    destruct (Nat.le_gt_cases (List.length pre) (List.length pre')) as [|Hlt]; [assumption|].
    destruct (Hunshift _ _ _ Hr') as (s'' & Et' & Hr'').
    assert (Hm' : Re.match_at Pat.total n0 s'' = Some (rest', Some count'))
      by (apply match_at_total_iff; eauto).
    rewrite (Hleft pre' s'' Et' Hlt) in Hm'. discriminate.
  - intros pre count rest Hr.
    destruct (Hunshift _ _ _ Hr) as (s' & Et & Hr').
    assert (Hm : Re.match_at Pat.total n0 s' = Some (rest, Some count))
      by (apply match_at_total_iff; eauto).
    rewrite (search_from_none _ _ _ E pre s' Et) in Hm. discriminate.
Qed.

Lemma reads_count_unique (text pre count rest count' rest' : str) :
  reads_count text pre count rest -> reads_count text pre count' rest' -> count = count'.
Proof.
  intros (E & _ & Hall) (E' & _ & Hall'). rewrite E in E'.
  apply app_inv_head in E'. apply app_inv_head in E'.
  rewrite <- (take_while_app _ count _ Hall (results_not_headed rest)).
  rewrite <- (take_while_app _ count' _ Hall' (results_not_headed rest')).
  now rewrite E'.
Qed.

Lemma first_count_unique (text count count' : str) :
  first_count text count -> first_count text count' -> count = count'.
Proof.
  intros (pre & rest & Hr & Hleft) (pre' & rest' & Hr' & Hleft').
  assert (Hlen : List.length pre = List.length pre').
  { apply Nat.le_antisymm; [exact (Hleft _ _ _ Hr') | exact (Hleft' _ _ _ Hr)]. }
  assert (Epre : pre = pre').
  { destruct Hr as (E & _), Hr' as (E' & _). rewrite E in E'.
    apply (f_equal (firstn (List.length pre))) in E'.
    rewrite firstn_app, Nat.sub_diag, firstn_all in E'. cbn [firstn] in E'.
    rewrite app_nil_r in E'. rewrite Hlen in E' at 1.
    rewrite firstn_app, Nat.sub_diag, firstn_all in E'. cbn [firstn] in E'.
    now rewrite app_nil_r in E'. }
  subst pre'. exact (reads_count_unique _ _ _ _ _ _ Hr Hr').
Qed.

Lemma header_total_first_count (soup total_text : Soup.Tag) (count : str) :
  Soup.select_one Sel.title_is_clearfix soup = Some total_text ->
  first_count (Soup.text total_text) count ->
  header_total soup = int_ (filter Py.isdecimal count)
  /\ forallb Pat.digit_or_comma count = true.
Proof.
  intros Hsel Hc. unfold header_total. rewrite Hsel.
  pose proof (search_total (Soup.text total_text)) as Hs.
  destruct (Re.search Pat.total (Soup.text total_text)) as [m|].
  - rewrite <- (first_count_unique _ _ _ Hs Hc).
    destruct Hs as (pre & rest & (_ & _ & Hall) & _).
    split; [|exact Hall].
    change (list_ascii_of_string ",") with [comma].
    change (list_ascii_of_string "") with (@nil ascii).
    now rewrite (count_without_commas _ Hall).
  - destruct Hc as (pre & rest & Hr & _). destruct (Hs pre count rest Hr).
Qed.

Example int_at_the_limit :
  int_ (repeat "9"%char 4300) = Ok (10 ^ 4300 - 1)%Z
  /\ int_ (repeat "9"%char 4301) = Raised ValueError
  /\ int_ (repeat "0"%char 4301) = Raised ValueError.
Proof. split; [|split]; vm_compute; reflexivity. Qed.

(** X13. The count of the page header.  It is 0 when the page has no header
    element or the header nowhere reads "of N results".  Otherwise the count
    N at the first such place is taken, its commas are dropped, and the
    digits that remain are converted: the result is the number they denote,
    which is never negative; the conversion fails, with [ValueError], exactly
    when no digit remains (N is made of commas) or more than 4300 digits do.
    That failure is not confined to a block: the whole page fails, whatever
    its result blocks are. *)
Theorem header_total_edges (BeautifulSoup : str -> list Soup.node)
  (html query : str) (page page_size : Z) :
  let soup := Soup.document (BeautifulSoup html) in
  (Soup.select_one Sel.title_is_clearfix soup = None -> header_total soup = Ok 0%Z)
  /\ (forall total_text,
        Soup.select_one Sel.title_is_clearfix soup = Some total_text ->
        ((forall pre count rest, ~ reads_count (Soup.text total_text) pre count rest)
         \/ exists count, first_count (Soup.text total_text) count)
        /\ ((forall pre count rest, ~ reads_count (Soup.text total_text) pre count rest) ->
            header_total soup = Ok 0%Z)
        /\ (forall count,
              first_count (Soup.text total_text) count ->
              let d := filter Py.isdecimal count in
              (d <> [] -> (Z.of_nat (List.length d) <= int_max_str_digits)%Z ->
               header_total soup = Ok (decimal d))
              /\ (d = [] \/ (int_max_str_digits < Z.of_nat (List.length d))%Z ->
                  header_total soup = Raised ValueError)))
  /\ (forall n, header_total soup = Ok n -> (0 <= n)%Z)
  /\ (forall e, header_total soup = Raised e -> e = ValueError)
  /\ (forall e,
        header_total soup = Raised e <->
        parseSearchResults BeautifulSoup html query page page_size = Raised e)
  /\ (List.length (result_blocks sample_comma_page) = 1%nat
      /\ parseSearchResults (fun _ => sample_comma_page) html query page page_size
         = Raised ValueError).
Proof.
  intro soup.
  split; [unfold header_total; now intros ->|].
  split.
  { intros total_text Hsel.
    pose proof (search_total (Soup.text total_text)) as Hs.
    split; [|split].
    - destruct (Re.search Pat.total (Soup.text total_text)) as [m|];
        [right; eauto | left; exact Hs].
    - intro Hno. unfold header_total. rewrite Hsel.
      destruct (Re.search Pat.total (Soup.text total_text)) as [m|]; [|reflexivity].
      destruct Hs as (pre & rest & Hr & _). destruct (Hno _ _ _ Hr).
    - intros count Hc d.
      destruct (header_total_first_count soup total_text count Hsel Hc)
        as [-> Hall].
      fold d. split.
      + intros Hne Hlen. rewrite int_digits; [|exact Hne | apply filter_all].
        now replace (Z.of_nat (List.length d) <=? int_max_str_digits)%Z with true
          by (symmetry; apply Z.leb_le; exact Hlen).
      + intros [Hd|Hlen]; [now rewrite Hd|].
        rewrite int_digits; [| |apply filter_all].
        * now replace (Z.of_nat (List.length d) <=? int_max_str_digits)%Z with false
            by (symmetry; apply Z.leb_gt; exact Hlen).
        * intros Hd. rewrite Hd in Hlen. discriminate Hlen. }
  unfold header_total.
  split.
  { intro n. destruct (Soup.select_one _ soup) as [total_text|]; [|intros [= <-]; lia].
    destruct (Re.search Pat.total _) as [m|]; [apply int_nonneg | intros [= <-]; lia]. }
  split.
  { intro e. destruct (Soup.select_one _ soup) as [total_text|]; [|discriminate].
    destruct (Re.search Pat.total _) as [m|]; [apply int_raises | discriminate]. }
  split; [|split; reflexivity].
  intro e. unfold parseSearchResults. fold soup. unfold header_total.
  destruct (Soup.select_one _ soup) as [total_text|]; [|split; discriminate].
  destruct (Re.search Pat.total _) as [m|]; [|split; discriminate].
  destruct (int_ _); split; (discriminate || congruence).
Qed.

(** ** The recent listing: shape of the papers *)

Lemma list_induction_2 {A} (P : list A -> Prop) :
  P [] ->
  (forall x, P [x]) ->
  (forall x y l, P l -> P (y :: l) -> P (x :: y :: l)) ->
  forall l, P l.
Proof.
  intros H0 H1 H2 l.
  assert (G : P l /\ forall x, P (x :: l)).
  { induction l as [|y l [IH1 IH2]]; [now split|].
    split; [apply IH2|]. intro x. apply H2; [exact IH1 | apply IH2]. }
  exact (proj1 G).
Qed.

Lemma dt_dd_pairs_bound (entries : list Soup.Tag) :
  (2 * List.length (dt_dd_pairs entries) <= List.length entries)%nat.
Proof.
  induction entries as [|x|x y l IHl IHyl] using list_induction_2; [cbn; lia | cbn; lia|].
  assert (E : dt_dd_pairs (x :: y :: l)
              = if Py.str_eqb (Soup.name x) "dt" && Py.str_eqb (Soup.name y) "dd"
                then (x, y) :: dt_dd_pairs l
                else dt_dd_pairs (y :: l)) by reflexivity.
  rewrite E.
  destruct (Py.str_eqb (Soup.name x) "dt" && Py.str_eqb (Soup.name y) "dd");
    cbn [List.length] in *; lia.
Qed.

(** X14. Every paper of [getRecent] has an empty abstract, no dates, and
    both URLs built from its identifier; there are at most half as many
    papers as [dt] and [dd] elements on the page; and the [count] argument
    only goes into the request: what is made of the answer does not depend
    on it, so the papers are never cut down to the requested count. *)
Theorem recent_papers_shape (BeautifulSoup : str -> list Soup.node)
  (list_of_set : list str -> list str) (category : str) :
  (forall html,
     let r := recent_of_page BeautifulSoup list_of_set category html in
     Forall (fun p =>
               abstract p = [] /\ date_published p = None /\ date_updated p = None
               /\ url_abstract p = abs_page ++ id_arxiv p
               /\ url_pdf p = pdf_page ++ id_arxiv p ++ ".pdf")
            (recent_papers r)
     /\ (2 * List.length (recent_papers r)
         <= List.length (listing_entries (BeautifulSoup html)))%nat)
  /\ (exists k,
        forall count,
          exists rq, getRecent BeautifulSoup list_of_set category count = HttpGet rq k).
Proof.
  split.
  - intros html r. subst r. unfold recent_of_page. cbn [recent_papers].
    fold (listing_entries (BeautifulSoup html)).
    rewrite recent_loop_pairs. cbn [app]. split.
    + apply Forall_forall. intros p Hp. apply in_flat_map in Hp as (pair & _ & Hp).
      apply recent_pair_fields in Hp as (_ & _ & Ea & Ep & Hab & Hd1 & Hd2).
      repeat split; assumption.
    + rewrite (flat_map_length_filter _ pair_identified) by apply recent_pair_length.
      pose proof (filter_length_le pair_identified
                    (dt_dd_pairs (listing_entries (BeautifulSoup html)))) as H1.
      pose proof (dt_dd_pairs_bound (listing_entries (BeautifulSoup html))) as H2.
      lia.
  - unfold getRecent. eexists. intro count. eexists. reflexivity.
Qed.

(** ** [cleanText] on blank and on long text *)

Lemma split_nil_blank (s : str) : Py.split s = [] <-> blank s.
Proof.
  unfold blank. induction s as [|c t IH]; [now split|].
  destruct (Py.isspace c) eqn:Ec.
  - rewrite (split_space c t Ec). cbn. rewrite Ec. exact IH.
  - cbn [forallb]. rewrite Ec. cbn [andb]. split; [|discriminate].
    cbn [Py.split]. rewrite Ec.
    destruct t as [|d t']; [discriminate|].
    destruct (Py.isspace d); [discriminate|].
    destruct (Py.split (d :: t')); discriminate.
Qed.

Lemma join_cons_head (c : ascii) (w : str) (ws : list str) :
  Py.join [space] ((c :: w) :: ws) = c :: Py.join [space] (w :: ws).
Proof. destruct ws; reflexivity. Qed.

Lemma join_split_length (s : str) :
  (List.length (Py.join [space] (Py.split s)) <= List.length s)%nat.
Proof.
  induction s as [|c|c d t IHt IHdt] using list_induction_2.
  - cbn. lia.
  - cbn. destruct (Py.isspace c); cbn; lia.
  - destruct (Py.isspace c) eqn:Ec.
    + rewrite (split_space c (d :: t) Ec). cbn [List.length] in *. lia.
    + destruct (Py.isspace d) eqn:Ed.
      * rewrite (split_end_of_word c d t Ec Ed).
        destruct (Py.split t) as [|w ws] eqn:Es.
        -- cbn. lia.
        -- change (Py.join [space] ([c] :: w :: ws))
             with (c :: space :: Py.join [space] (w :: ws)).
           cbn [List.length] in *. lia.
      * rewrite (split_in_word c d t Ec Ed).
        destruct (Py.split (d :: t)) as [|w ws] eqn:Es.
        -- cbn. lia.
        -- rewrite join_cons_head. cbn [List.length] in *. lia.
Qed.

(** X15. [cleanText] returns the empty string exactly for the inputs that
    are empty or all whitespace, and its result is never longer than its
    input. *)
Theorem cleanText_blank_and_length (s : str) :
  (cleanText s = [] <-> blank s)
  /\ (List.length (cleanText s) <= List.length s)%nat.
Proof.
  rewrite cleanText_join_split. split; [|apply join_split_length].
  rewrite <- split_nil_blank. split.
  - intro H. destruct (Py.split s) as [|w ws] eqn:E; [reflexivity|].
    pose proof (split_words s) as Hw. rewrite E in Hw.
    destruct (join_head (w :: ws) Hw) as (c & t & Ej & _); [discriminate|].
    congruence.
  - now intros ->.
Qed.


(** ** What reaches the URL *)

Lemma occurrences_app (x : ascii) (a b : str) :
  occurrences x (a ++ b) = (occurrences x a + occurrences x b)%nat.
Proof. unfold occurrences. now rewrite filter_app, length_app. Qed.

Lemma separator_free_app (a b : str) :
  separator_free a -> separator_free b -> separator_free (a ++ b).
Proof. unfold separator_free. intros Ha Hb. now rewrite forallb_app, Ha, Hb. Qed.

Lemma separator_free_none (x : ascii) (s : str) :
  separator x = true -> separator_free s -> occurrences x s = 0%nat.
Proof.
  unfold separator_free, occurrences. intros Hx.
  induction s as [|c t IH]; [reflexivity|].
  cbn. intro H. apply andb_prop in H as [Hc Ht].
  destruct (Ascii.eqb x c) eqn:E; [|now apply IH].
  apply Ascii.eqb_eq in E. subst c. rewrite Hx in Hc. discriminate.
Qed.

Lemma quote_char_separator_free (c : ascii) : separator_free (Quote.quote_char c).
Proof. destruct c as [[] [] [] [] [] [] [] []]; reflexivity. Qed.

Lemma quote_plus_separator_free (s : str) : separator_free (Quote.quote_plus s).
Proof.
  unfold Quote.quote_plus. induction s as [|c t IH]; [reflexivity|].
  cbn [flat_map]. apply separator_free_app; [apply quote_char_separator_free | exact IH].
Qed.

Lemma string_of_uint_separator_free (d : Decimal.uint) :
  separator_free (list_ascii_of_string (NilEmpty.string_of_uint d)).
Proof. unfold separator_free. induction d; cbn; auto. Qed.

Lemma str_of_int_separator_free (n : Z) : separator_free (Py.str_of_int n).
Proof.
  unfold Py.str_of_int, NilZero.string_of_int, NilZero.string_of_uint.
  destruct (Z.to_int n) as [d|d]; destruct d;
    try reflexivity; try apply (string_of_uint_separator_free (_ d));
    unfold separator_free; cbn [list_ascii_of_string forallb];
    try apply (string_of_uint_separator_free (_ d)).
Qed.

Lemma sort_order_separator_free (sort_by : str) :
  separator_free (dict_get SORT_OPTIONS sort_by []).
Proof.
  unfold SORT_OPTIONS. cbn [dict_get].
  repeat match goal with
         | |- context [Py.str_eqb ?a sort_by] => destruct (Py.str_eqb a sort_by)
         end; reflexivity.
Qed.

Ltac count_pieces x :=
  repeat rewrite occurrences_app;
  repeat match goal with
         | |- context [occurrences x (Quote.quote_plus ?s)] =>
             rewrite (separator_free_none x (Quote.quote_plus s))
               by (assumption || apply quote_plus_separator_free)
         | |- context [occurrences x (Py.str_of_int ?n)] =>
             rewrite (separator_free_none x (Py.str_of_int n))
               by (assumption || apply str_of_int_separator_free)
         | |- context [occurrences x (dict_get SORT_OPTIONS ?s ?d)] =>
             rewrite (separator_free_none x (dict_get SORT_OPTIONS s d))
               by (assumption || apply sort_order_separator_free)
         end.

(** X16. What the caller passes as query, author, category, title,
    abstract, id, sort order, page or page size cannot add a separator
    ([&], [=], [?], [#] or a space) to the request URL: the URL of [search]
    has exactly the separators of its fixed template.  The two dates of
    [searchAdvanced] are the exception: they are appended as they are, so the
    URL has the separators of the template plus those of the dates. *)
Theorem url_separators (BeautifulSoup : str -> list Soup.node)
  (sort_by : str) (page page_size : Z) (x : ascii) :
  separator x = true ->
  (forall query category author,
     exists url k,
       search BeautifulSoup query category author sort_by page page_size
       = HttpGet (mkRequest url TIMEOUT false) k
       /\ occurrences x url = occurrences x search_template)
  /\ (forall title abstract author category id_arxiv date_from date_to,
        no_filter title abstract author category id_arxiv = false ->
        exists url k,
          searchAdvanced BeautifulSoup title abstract author category id_arxiv
            date_from date_to sort_by page page_size
          = HttpGet (mkRequest url TIMEOUT false) k
          /\ occurrences x url
             = (occurrences x advanced_template
                + occurrences x (date_part "&date-from_date=" date_from)
                + occurrences x (date_part "&date-to_date=" date_to))%nat).
Proof.
  intro Hx. split.
  - intros query category author. unfold search. cbv zeta.
    eexists. eexists. split; [reflexivity|].
    change search_template
      with (URL_BASE ++ "/search/?query=" ++ "&searchtype=all&abstracts=show"
            ++ "&order=" ++ "&size=" ++ "&start=").
    change (list_ascii_of_string "") with (@nil ascii).
    count_pieces x. lia.
  - intros title abstract author category id_arxiv date_from date_to E.
    pose proof (advanced_parts_nonempty _ _ _ _ _ E) as Hne.
    unfold searchAdvanced.
    destruct (advanced_parts title abstract author category id_arxiv) as [|part parts];
      [congruence|].
    eexists. eexists. split; [reflexivity|].
    change advanced_template
      with (URL_BASE ++ "/search/advanced?terms-0-operator=AND"
            ++ "&terms-0-term=" ++ "&terms-0-field=all"
            ++ "&classification-physics_archives=all"
            ++ "&classification-include_cross_list=include"
            ++ "&abstracts=show&size=" ++ "&start=" ++ "&order=").
    change (list_ascii_of_string "") with (@nil ascii).
    unfold date_part.
    destruct date_from as [[|? ?]|], date_to as [[|? ?]|];
      count_pieces x; cbn [occurrences filter List.length]; lia.
Qed.

Lemma url_separators_witness :
  separator "&" = true
  /\ exists url k,
       search (fun _ => []) "a&b=c d" None None "relevance" 1 25
       = HttpGet (mkRequest url TIMEOUT false) k
       /\ occurrences "&" url = 5%nat.
Proof.
  split; [reflexivity|].
  exact (proj1 (url_separators (fun _ => []) "relevance" 1%Z 25%Z "&"%char eq_refl)
           "a&b=c d" None None).
Defined.


(** ** Normalised titles and abstracts *)

Lemma no_trailing_space_cons (c : ascii) (t : str) :
  no_trailing_space (c :: t) -> t <> [] -> no_trailing_space t.
Proof.
  intros H Hne b x E. apply (H (c :: b) x). now rewrite E.
Qed.

Lemma no_ws_run_cons2 (c d : ascii) (t : str) :
  no_ws_run (c :: d :: t) = negb (Py.isspace c && Py.isspace d) && no_ws_run (d :: t).
Proof. reflexivity. Qed.

(** Text in normal form is left as it is by [cleanText]. *)
Lemma normal_form_fixed (s : str) : normal_form s -> cleanText s = s.
Proof.
  rewrite cleanText_join_split. unfold normal_form, trimmed.
  induction s as [|c|c d t IHt IHdt] using list_induction_2.
  - reflexivity.
  - intros ((Hh & _) & _ & _). cbn. now rewrite (Hh c [] eq_refl).
  - intros ((Hh & Hl) & Hrun & Hsp).
    pose proof (Hh c (d :: t) eq_refl) as Hc.
    rewrite no_ws_run_cons2 in Hrun. apply andb_prop in Hrun as [_ Hrun].
    assert (Hl' : no_trailing_space (d :: t))
      by (apply (no_trailing_space_cons c); [exact Hl | discriminate]).
    assert (Hsp' : forall x, In x (d :: t) -> Py.isspace x = true -> x = space)
      by (intros x Hx; apply Hsp; now right).
    destruct (Py.isspace d) eqn:Ed.
    + assert (Ed' : d = space) by (apply Hsp'; [now left | exact Ed]).
      rewrite (split_end_of_word c d t Hc Ed).
      destruct t as [|e t'].
      * exfalso. specialize (Hl [c] d eq_refl). congruence.
      * rewrite no_ws_run_cons2 in Hrun. apply andb_prop in Hrun as [Hde Hrun].
        rewrite Ed in Hde. cbn [andb] in Hde. apply negb_true_iff in Hde.
        assert (IH : Py.join [space] (Py.split (e :: t')) = e :: t').
        { apply IHt. split; [split|split].
          - intros x y [= <- _]. exact Hde.
          - apply (no_trailing_space_cons d); [exact Hl' | discriminate].
          - exact Hrun.
          - intros x Hx. apply Hsp'. now right. }
        destruct (Py.split (e :: t')) as [|w ws] eqn:Es.
        -- cbn in IH. discriminate.
        -- change (Py.join [space] ([c] :: w :: ws))
             with (c :: space :: Py.join [space] (w :: ws)).
           now rewrite IH, Ed'.
    + assert (IH : Py.join [space] (Py.split (d :: t)) = d :: t).
      { apply IHdt. split; [split|split].
        - intros x y [= <- _]. exact Ed.
        - exact Hl'.
        - exact Hrun.
        - exact Hsp'. }
      rewrite (split_in_word c d t Hc Ed).
      destruct (Py.split (d :: t)) as [|w ws] eqn:Es.
      * cbn in IH. discriminate.
      * rewrite join_cons_head. now rewrite IH.
Qed.

Lemma join_trimmed (ws : list str) : Forall word ws -> trimmed (Py.join [space] ws).
Proof.
  intro H. destruct ws as [|w ws].
  - split; [intros ? ? [=] | intros [|? ?] ? [=]].
  - destruct (join_head _ H) as (c & t & E & Hc); [discriminate|].
    destruct (join_last _ H) as (t' & c' & E' & Hc'); [discriminate|].
    split.
    + intros x y Ex. rewrite E in Ex. now injection Ex as <- _.
    + intros b x Ex. rewrite E' in Ex. apply app_inj_tail in Ex as [_ <-]. exact Hc'.
Qed.

Lemma cleanText_normal_form (s : str) : normal_form (cleanText s).
Proof.
  rewrite cleanText_join_split. pose proof (split_words s) as Hw.
  split; [now apply join_trimmed|]. split; [now apply no_ws_run_join|].
  intro c. now apply join_chars.
Qed.

Lemma no_ws_run_app (a b : str) :
  no_ws_run (a ++ b) = true -> no_ws_run a = true /\ no_ws_run b = true.
Proof.
  induction a as [|c a IH]; [now split|].
  destruct a as [|d a'].
  - cbn [app]. intro H. split; [reflexivity|].
    destruct b as [|e b']; [reflexivity|].
    cbn [no_ws_run] in H. now apply andb_prop in H as [_ H].
  - cbn [app no_ws_run] in *. intro H. apply andb_prop in H as [H1 H2].
    destruct (IH H2) as [Ha Hb]. split; [|exact Hb].
    now rewrite H1, Ha.
Qed.

(** A piece of normalised text that has no whitespace at its ends is
    normalised. *)
Lemma normal_form_factor (pre s post : str) :
  normal_form (pre ++ s ++ post) -> trimmed s -> normal_form s.
Proof.
  intros (_ & Hrun & Hsp) Ht. split; [exact Ht|]. split.
  - apply no_ws_run_app in Hrun as [_ Hrun]. now apply no_ws_run_app in Hrun as [Hrun _].
  - intros c Hc. apply Hsp. apply in_or_app. right. apply in_or_app. now left.
Qed.

Lemma nil_normal_form : normal_form [].
Proof.
  split; [split; [intros ? ? [=] | intros [|? ?] ? [=]]|]. split; [reflexivity|].
  intros c [].
Qed.

Lemma toggle_stripped_normal (t u : str) :
  toggle_stripped t u -> normal_form t -> normal_form u.
Proof.
  intros H Ht. destruct H as [body tail _ Hbody | t _]; [|exact Ht].
  apply (normal_form_factor [] body tail); [exact Ht|].
  split; [|exact Hbody].
  intros c b E. destruct Ht as ((Hh & _) & _). apply (Hh c (b ++ tail)). now rewrite E.
Qed.

Lemma label_stripped_normal (u v : str) :
  label_stripped u v -> normal_form u -> normal_form v.
Proof.
  intros H Hu. destruct H as [t | t _]; [|exact Hu].
  pose proof (take_drop Py.isspace t) as Et.
  set (v := drop_while Py.isspace t) in *.
  assert (Eu : abstract_colon ++ t = (abstract_colon ++ take_while Py.isspace t) ++ v ++ [])
    by now rewrite app_nil_r, <- app_assoc, Et.
  rewrite Eu in Hu.
  apply (normal_form_factor _ v [] Hu). split.
  - apply drop_while_head.
  - intros b c E. destruct Hu as ((_ & Hl) & _).
    apply (Hl ((abstract_colon ++ take_while Py.isspace t) ++ b) c).
    now rewrite app_nil_r, E, app_assoc.
Qed.

Lemma block_abstract_normal_form (item : Soup.Tag) : normal_form (block_abstract item).
Proof.
  unfold block_abstract.
  apply (label_stripped_normal _ _ (sub_label_spec _)).
  apply (toggle_stripped_normal _ _ (sub_toggle_spec _)).
  unfold block_abstract_text.
  destruct (match Soup.select_one Sel.abstract_full item with
            | Some e => Some e
            | None => Soup.select_one Sel.abstract item
            end); [apply cleanText_normal_form | apply nil_normal_form].
Qed.

Lemma literal_normal_form (s : str) : cleanText s = s -> normal_form s.
Proof. intros <-. apply cleanText_normal_form. Qed.

Lemma parse_block_normal (item : Soup.Tag) (p : Paper) :
  parse_block item = Ok p -> normal_text p.
Proof.
  unfold parse_block.
  destruct (match Soup.select_one Sel.list_title_span_a item with
            | Some e => Soup.get e "href"
            | None => Some []
            end) as [url|]; [|discriminate].
  intros [= <-]. split; cbn [title abstract]; [|apply block_abstract_normal_form].
  destruct (Soup.select_one Sel.title item);
    [apply cleanText_normal_form | now apply literal_normal_form].
Qed.

(** X17. In the papers of all three extractors the title and the abstract
    are normalised text: no whitespace at the ends, no whitespace run, no
    whitespace character but the space; for the abstract of a search result
    this still holds after the labels have been cut.  So [cleanText] leaves
    every returned title and abstract as it is. *)
Theorem titles_and_abstracts_normalised (BeautifulSoup : str -> list Soup.node)
  (list_of_set : list str -> list str) :
  (forall html query page page_size,
     match parseSearchResults BeautifulSoup html query page page_size with
     | Ok r => Forall normal_text (papers r)
     | Raised _ => True
     end)
  /\ (forall id_arxiv url_abstract html,
        normal_text (paper_of_page BeautifulSoup id_arxiv url_abstract html))
  /\ (forall category html,
        Forall normal_text
               (recent_papers (recent_of_page BeautifulSoup list_of_set category html)))
  /\ (forall p, normal_text p ->
        cleanText (title p) = title p /\ cleanText (abstract p) = abstract p).
Proof.
  split; [|split; [|split]].
  - intros html query page page_size.
    destruct (parseSearchResults _ _ _ _ _) as [r|] eqn:E; [|exact I].
    apply parseSearchResults_papers in E as [-> _].
    apply Forall_forall. intros p Hp. apply in_flat_map in Hp as (item & _ & Hp).
    unfold block_papers in Hp. destruct (parse_block item) as [q|] eqn:Eq; [|contradiction].
    destruct Hp as [<-|[]]. exact (parse_block_normal item q Eq).
  - intros id_arxiv url_abstract html. unfold paper_of_page, paper_abstract.
    split; cbn [title abstract].
    + destruct (Soup.select_one Sel.title_mathjax _);
        [apply cleanText_normal_form | now apply literal_normal_form].
    + destruct (Soup.select_one Sel.abstract_mathjax _);
        [apply cleanText_normal_form | apply nil_normal_form].
  - intros category html. unfold recent_of_page. cbn [recent_papers].
    rewrite recent_loop_pairs. cbn [app].
    apply Forall_forall. intros p Hp. apply in_flat_map in Hp as (pair & _ & Hp).
    unfold recent_pair in Hp. destruct (recent_id (fst pair)); [contradiction|].
    destruct Hp as [<-|[]]. split; cbn [title abstract]; [|apply nil_normal_form].
    destruct (Soup.select_one Sel.list_title _);
      [apply cleanText_normal_form | apply nil_normal_form].
  - intros p [Ht Ha]. split; now apply normal_form_fixed.
Qed.
